(** * pdpIQ: extraction, scoring and recommendation pipeline

    A shallow embedding of the structured-data resolver
    ([content-script.js]), the scoring engine ([scoring-engine.js] with
    [weights.js]) and the recommendation engine
    ([recommendation-engine.js] with [recommendation-rules.js]), and the
    properties of them that the specification states.

    Conventions of the embedding.
    - A JavaScript number is a [num]: a rational or [NaN]; every finite
      double is a rational.  [JS] computes with the rationals exactly and
      reads a decimal literal of the source ([0.23], [1.5], ...) as the
      rational it denotes; [F64] rounds every sum, product and quotient to
      the nearest double, as the source language does, and reads a
      literal as the double nearest to it.  The engine is embedded over
      both: [Scoring] is exact, [Scoring64] is the engine in doubles.
      What depends on how a product or a quotient rounds (the bounds of
      the points, the share of the crawlers, the range of the total) is
      stated of [Scoring64]; [Agreement] compares the two.  Infinities
      are not modelled (the embedded code divides only by non-zero
      constants or by guarded non-zero counts).
    - A JavaScript string is a [string] of code units below 256.
    - A property that is absent reads as [VUndef], and arithmetic on it
      gives [NaN], as in the source language. *)

From Stdlib Require Import ZArith QArith Qround Qreduction Qpower List String Ascii Bool
  Lia Lqa SpecFloat.
Import ListNotations.

Set Implicit Arguments.
Set Warnings "-register-all".
Close Scope Q_scope.

(* ================================================================== *)
(** * JavaScript numbers                                                *)
(* ================================================================== *)

Module JS.

Local Open Scope Q_scope.

Inductive num : Type :=
| NaN : num
| Num (q : Q) : num.

(** Every operation normalises its result with [Qred], so that two equal
    numbers are the same term. *)
Definition mk (q : Q) : num := Num (Qred q).

Definition ofZ (z : Z) : num := Num (z # 1).

Definition add (a b : num) : num :=
  match a, b with
  | Num x, Num y => mk (x + y)
  | _, _ => NaN
  end.

Definition mul (a b : num) : num :=
  match a, b with
  | Num x, Num y => mk (x * y)
  | _, _ => NaN
  end.

(** [a / b]; a zero divisor gives [NaN] ([0/0] in the source language;
    no embedded division has a zero divisor and a non-zero dividend). *)
Definition div (a b : num) : num :=
  match a, b with
  | Num x, Num y => if Qeq_bool y 0 then NaN else mk (x / y)
  | _, _ => NaN
  end.

(** [Math.round]: the nearest integer, a tie going up. *)
Definition roundQ (q : Q) : Z := Qfloor (q + (1 # 2)).

Definition round (a : num) : num :=
  match a with
  | Num x => ofZ (roundQ x)
  | NaN => NaN
  end.

(** [Math.ceil]. *)
Definition ceil (a : num) : num :=
  match a with
  | Num x => ofZ (Qceiling x)
  | NaN => NaN
  end.

(** [Math.min] of two numbers: [NaN] as soon as one argument is. *)
Definition min (a b : num) : num :=
  match a, b with
  | Num x, Num y => if Qle_bool x y then mk x else mk y
  | _, _ => NaN
  end.

Definition max (a b : num) : num :=
  match a, b with
  | Num x, Num y => if Qle_bool x y then mk y else mk x
  | _, _ => NaN
  end.

(** Comparisons: false as soon as one side is [NaN]. *)
Definition ge (a b : num) : bool :=
  match a, b with
  | Num x, Num y => Qle_bool y x
  | _, _ => false
  end.

Definition le (a b : num) : bool := ge b a.

Definition gt (a b : num) : bool :=
  match a, b with
  | Num x, Num y => negb (Qle_bool x y)
  | _, _ => false
  end.

Definition lt (a b : num) : bool := gt b a.

(** [a === b] on numbers. *)
Definition eqb (a b : num) : bool :=
  match a, b with
  | Num x, Num y => Qeq_bool x y
  | _, _ => false
  end.

(** Truthiness of a number: neither zero nor [NaN]. *)
Definition truthy (a : num) : bool :=
  match a with
  | Num x => negb (Qeq_bool x 0)
  | NaN => false
  end.

(** [Number.isInteger] together with the bounds [lo <= a <= hi]. *)
Definition is_int_between (lo hi : Z) (a : num) : bool :=
  match a with
  | Num x => Qeq_bool x (Qfloor x # 1) && (lo <=? Qfloor x)%Z && (Qfloor x <=? hi)%Z
  | NaN => false
  end.

(** A value that is a number or [undefined] (a property read from a table
    that may lack the key).  [toNum] is the coercion arithmetic applies. *)
Inductive numU : Type :=
| Undefined : numU
| Number (n : num) : numU.

Definition toNum (v : numU) : num :=
  match v with
  | Undefined => NaN
  | Number n => n
  end.

End JS.

Coercion JS.Number : JS.num >-> JS.numU.

Declare Scope js_scope.
Delimit Scope js_scope with js.
Bind Scope js_scope with JS.num.
Infix "+" := JS.add : js_scope.
Infix "*" := JS.mul : js_scope.
Infix "/" := JS.div : js_scope.
Notation "a >=? b" := (JS.ge a b) (at level 70) : js_scope.
Notation "a <=? b" := (JS.le a b) (at level 70) : js_scope.
Notation "a >? b" := (JS.gt a b) (at level 70) : js_scope.
Notation "a <? b" := (JS.lt a b) (at level 70) : js_scope.

(* ================================================================== *)
(** * JavaScript strings                                                *)
(* ================================================================== *)

Module Str.

Open Scope string_scope.

Definition code (c : ascii) : nat := nat_of_ascii c.

(** [\s] of the regular-expression dialect, over code units below 256. *)
Definition isWs (c : ascii) : bool :=
  let n := code c in
  ((9 <=? n) && (n <=? 13) || (n =? 32) || (n =? 160))%nat.

Definition isDigit (c : ascii) : bool :=
  let n := code c in ((48 <=? n) && (n <=? 57))%nat.

Definition digitVal (c : ascii) : Z := Z.of_nat (code c - 48).

(** [toLowerCase] on one code unit (ASCII and Latin-1 capitals). *)
Definition lowerChar (c : ascii) : ascii :=
  let n := code c in
  if ((65 <=? n) && (n <=? 90) || (192 <=? n) && (n <=? 222) && negb (n =? 215))%nat
  then ascii_of_nat (n + 32) else c.

Fixpoint toLowerCase (s : string) : string :=
  match s with
  | EmptyString => EmptyString
  | String c r => String (lowerChar c) (toLowerCase r)
  end.

Fixpoint dropWs (l : list ascii) : list ascii :=
  match l with
  | c :: r => if isWs c then dropWs r else l
  | [] => []
  end.

Definition trimL (l : list ascii) : list ascii :=
  rev (dropWs (rev (dropWs l))).

Definition trim (s : string) : string :=
  string_of_list_ascii (trimL (list_ascii_of_string s)).

Fixpoint startsWith (s p : string) : bool :=
  match p, s with
  | EmptyString, _ => true
  | String a p', String b s' => Ascii.eqb a b && startsWith s' p'
  | String _ _, EmptyString => false
  end.

(** [s.includes(p)]. *)
Fixpoint includes (s p : string) : bool :=
  startsWith s p ||
  match s with
  | EmptyString => false
  | String _ r => includes r p
  end.

(** [s.endsWith(p)]. *)
Fixpoint endsWith (s p : string) : bool :=
  String.eqb s p ||
  match s with
  | EmptyString => false
  | String _ r => endsWith r p
  end.

(** [s.substring(0, n)]. *)
Definition take (n : nat) (s : string) : string := String.substring 0 n s.

Definition nonEmpty (s : string) : bool := negb (String.eqb s "").

(** [s.split(/\s+/)]: the pieces between the maximal runs of white space,
    an empty piece standing before a leading run and after a trailing
    one. *)
Fixpoint splitWsAux (l cur : list ascii) (inSep : bool) : list string :=
  match l with
  | [] => [string_of_list_ascii (rev cur)]
  | c :: r =>
      if isWs c
      then if inSep then splitWsAux r [] true
           else string_of_list_ascii (rev cur) :: splitWsAux r [] true
      else splitWsAux r (c :: cur) false
  end.

Definition splitWs (s : string) : list string :=
  splitWsAux (list_ascii_of_string s) [] false.

End Str.

(* ================================================================== *)
(** * Regular expressions                                               *)
(* ================================================================== *)

(** The backtracking matcher of the source language, for the constructs
    the embedded patterns use: alternatives are tried left to right,
    repetition is greedy, an optional iteration that consumes nothing is
    refused, and a search returns the leftmost match. *)
Module Regex.

Inductive re : Type :=
| Eps : re
| Chr (p : ascii -> bool) : re                      (* one character *)
| Seq (a b : re) : re
| Alt (a b : re) : re
| Rep (lo : nat) (hi : option nat) (a : re) : re    (* [a{lo,hi}], greedy *)
| Grp (i : nat) (a : re) : re                       (* capture group [i] *)
| Eos : re.                                         (* [$], no [m] flag *)

Definition caps := list (nat * list ascii).

Fixpoint getCap (c : caps) (i : nat) : option (list ascii) :=
  match c with
  | [] => None
  | (j, t) :: r => if (i =? j)%nat then Some t else getCap r i
  end.

Section Matcher.

Variable R : Type.

Definition orElse (a b : option R) : option R :=
  match a with Some x => Some x | None => b end.

(** [m r s c k]: match [r] at the head of [s] and hand what is left,
    with the captures, to the continuation [k]; [None] makes the matcher
    backtrack. *)
Fixpoint m (r : re) (s : list ascii) (c : caps)
           (k : list ascii -> caps -> option R) {struct r} : option R :=
  match r with
  | Eps => k s c
  | Chr p =>
      match s with
      | x :: s' => if p x then k s' c else None
      | [] => None
      end
  | Seq a b => m a s c (fun s' c' => m b s' c' k)
  | Alt a b => orElse (m a s c k) (m b s c k)
  | Rep lo hi a =>
      (fix rep (fuel lo : nat) (s : list ascii) (c : caps) {struct fuel} : option R :=
         match lo, fuel with
         | S lo', S fuel' => m a s c (fun s' c' => rep fuel' lo' s' c')
         | S _, O => None
         | O, S fuel' =>
             orElse (m a s c (fun s' c' =>
                       if (List.length s' <? List.length s)%nat
                       then rep fuel' O s' c' else None))
                    (k s c)
         | O, O => k s c
         end)
        (match hi with Some h => h | None => lo + List.length s end) lo s c
  | Grp i a =>
      m a s c (fun s' c' =>
        k s' ((i, firstn (List.length s - List.length s') s) :: c'))
  | Eos => match s with [] => k s c | _ :: _ => None end
  end.

End Matcher.

(** The result of [exec]: where the match starts, the matched text
    ([match[0]]) and the groups. *)
Record found : Type := {
  index : nat;
  whole : list ascii;
  groups : caps
}.

Definition matchAt (r : re) (s : list ascii) : option (list ascii * caps) :=
  m r s [] (fun rest c => Some (rest, c)).

Fixpoint search (r : re) (s : list ascii) (idx : nat) : option found :=
  match matchAt r s with
  | Some (rest, c) =>
      Some {| index := idx;
              whole := firstn (List.length s - List.length rest) s;
              groups := c |}
  | None =>
      match s with
      | [] => None
      | _ :: s' => search r s' (S idx)
      end
  end.

(** [s.match(r)] for a pattern without the [g] flag. *)
Definition exec (r : re) (s : string) : option found :=
  search r (list_ascii_of_string s) 0.

(** [r.test(s)]. *)
Definition test (r : re) (s : string) : bool :=
  match exec r s with Some _ => true | None => false end.

(** ** Writing patterns *)

(** One character as written, and under the [i] flag. *)
Definition chr (c : ascii) : re := Chr (Ascii.eqb c).

Definition chri (c : ascii) : re :=
  Chr (fun x => Ascii.eqb (Str.lowerChar x) (Str.lowerChar c)).

Fixpoint lit (s : string) : re :=
  match s with
  | EmptyString => Eps
  | String c EmptyString => chr c
  | String c r => Seq (chr c) (lit r)
  end.

Fixpoint liti (s : string) : re :=
  match s with
  | EmptyString => Eps
  | String c EmptyString => chri c
  | String c r => Seq (chri c) (liti r)
  end.

Fixpoint seq (l : list re) : re :=
  match l with
  | [] => Eps
  | [a] => a
  | a :: r => Seq a (seq r)
  end.

Fixpoint alt (l : list re) : re :=
  match l with
  | [] => Chr (fun _ => false)
  | [a] => a
  | a :: r => Alt a (alt r)
  end.

Definition opt (a : re) : re := Rep 0 (Some 1) a.        (* [a?] *)
Definition star (a : re) : re := Rep 0 None a.            (* [a*] *)
Definition plus (a : re) : re := Rep 1 None a.            (* [a+] *)
Definition upto (lo hi : nat) (a : re) : re := Rep lo (Some hi) a.
Definition ws : re := Chr Str.isWs.                       (* [\s] *)
Definition digit : re := Chr Str.isDigit.                 (* [\d] *)

(** [[^...]] and [[\s...]] over the characters of a string. *)
Definition noneOf (s : string) : re :=
  Chr (fun x => negb (existsb (Ascii.eqb x) (list_ascii_of_string s))).

Definition wsOr (s : string) : re :=
  Chr (fun x => Str.isWs x || existsb (Ascii.eqb x) (list_ascii_of_string s)).

End Regex.

(* ================================================================== *)
(** * Exceptions                                                        *)
(* ================================================================== *)

(** A computation of the source either returns or throws a [TypeError]
    (a property read on [null] or [undefined], a call of something that is
    not a function). *)
Inductive res (A : Type) : Type :=
| Ok (a : A) : res A
| TypeError : res A.

Arguments Ok {A} a.
Arguments TypeError {A}.

Definition bind {A B : Type} (m : res A) (f : A -> res B) : res B :=
  match m with
  | Ok a => f a
  | TypeError => TypeError
  end.

Notation "x <- m ;; k" := (bind m (fun x => k))
  (at level 61, m at next level, right associativity).

Fixpoint mapM {A B : Type} (f : A -> res B) (l : list A) : res (list B) :=
  match l with
  | [] => Ok []
  | a :: r => b <- f a ;; bs <- mapM f r ;; Ok (b :: bs)
  end.

(** [forEach] over a state that the callback updates, a throw aborting
    the loop. *)
Fixpoint foldM {A S : Type} (f : S -> A -> res S) (l : list A) (s : S) : res S :=
  match l with
  | [] => Ok s
  | a :: r => s' <- f s a ;; foldM f r s'
  end.

(* ================================================================== *)
(** * weights.js                                                        *)
(* ================================================================== *)

Module Weights.

Import JS.
Open Scope string_scope.

(** A table of the source: an object literal with numeric properties.
    Reading a key it lacks gives [undefined]. *)
Definition table := list (string * num).

Fixpoint get (t : table) (k : string) : numU :=
  match t with
  | [] => Undefined
  | (k', v) :: r => if String.eqb k k' then Number v else get r k
  end.

Definition dec (n d : Z) : num := Num (Qmake n (Z.to_pos d)).

(** [CATEGORY_WEIGHTS]. *)
Definition CATEGORY_WEIGHTS : table :=
  [ ("structuredData", dec 23 100);
    ("protocolMeta", dec 18 100);
    ("contentQuality", dec 23 100);
    ("contentStructure", dec 13 100);
    ("authorityTrust", dec 13 100);
    ("aiDiscoverability", dec 10 100) ].

Inductive context := want | need | hybrid.

(** [CONTEXT_MULTIPLIERS]. *)
Definition CONTEXT_MULTIPLIERS (c : context) : table :=
  match c with
  | want =>
      [ ("emotionalBenefitCopy", dec 15 10);
        ("technicalSpecifications", dec 6 10);
        ("compatibilityInfo", dec 4 10);
        ("socialProof", dec 14 10);
        ("certifications", dec 5 10);
        ("reviewCount", dec 14 10);
        ("reviewRating", dec 13 10);
        ("benefitStatements", dec 15 10);
        ("warrantyInfo", dec 7 10);
        ("comparisonContent", dec 6 10) ]
  | need =>
      [ ("emotionalBenefitCopy", dec 5 10);
        ("technicalSpecifications", dec 15 10);
        ("compatibilityInfo", dec 20 10);
        ("socialProof", dec 8 10);
        ("certifications", dec 16 10);
        ("reviewCount", dec 8 10);
        ("reviewRating", dec 10 10);
        ("benefitStatements", dec 5 10);
        ("warrantyInfo", dec 14 10);
        ("comparisonContent", dec 14 10) ]
  | hybrid =>
      [ ("emotionalBenefitCopy", dec 10 10);
        ("technicalSpecifications", dec 10 10);
        ("compatibilityInfo", dec 10 10);
        ("socialProof", dec 10 10);
        ("certifications", dec 10 10);
        ("reviewCount", dec 10 10);
        ("reviewRating", dec 10 10);
        ("benefitStatements", dec 10 10);
        ("warrantyInfo", dec 10 10);
        ("comparisonContent", dec 10 10) ]
  end.

(** [FACTOR_WEIGHTS], one table per category. *)
Definition FW_structuredData : table :=
  [ ("productSchema", ofZ 30); ("offerSchema", ofZ 20);
    ("aggregateRating", ofZ 15); ("reviewSchema", ofZ 10);
    ("faqSchema", ofZ 10); ("breadcrumbSchema", ofZ 5);
    ("organizationSchema", ofZ 5); ("imageSchema", ofZ 5) ].

Definition FW_protocolMeta : table :=
  [ ("ogImage", ofZ 20); ("ogImageFormat", ofZ 15); ("ogTitle", ofZ 10);
    ("ogDescription", ofZ 10); ("ogType", ofZ 5); ("twitterCard", ofZ 10);
    ("twitterImage", ofZ 5); ("canonical", ofZ 10);
    ("metaDescription", ofZ 10); ("robotsAllowsIndex", ofZ 5) ].

Definition FW_contentQuality : table :=
  [ ("descriptionLength", ofZ 15); ("descriptionQuality", ofZ 10);
    ("specificationCount", ofZ 10); ("specificationDetail", ofZ 5);
    ("featureCount", ofZ 10); ("faqPresence", ofZ 10); ("dimensions", ofZ 5);
    ("materials", ofZ 5); ("careInstructions", ofZ 3); ("warrantyInfo", ofZ 7);
    ("compatibilityInfo", ofZ 10); ("comparisonContent", ofZ 5) ].

Definition FW_contentStructure : table :=
  [ ("h1Presence", ofZ 15); ("headingHierarchy", ofZ 12);
    ("semanticHTML", ofZ 12); ("contentRatio", ofZ 12);
    ("tableStructure", ofZ 10); ("listStructure", ofZ 8); ("ariaLabels", ofZ 6);
    ("primaryImageAlt", ofZ 10); ("allImagesAlt", ofZ 8);
    ("jsDependency", ofZ 10); ("readability", ofZ 8) ].

Definition FW_authorityTrust : table :=
  [ ("reviewCount", ofZ 25); ("averageRating", ofZ 20);
    ("reviewRecency", ofZ 15); ("reviewDepth", ofZ 10);
    ("brandClarity", ofZ 15); ("certifications", ofZ 10); ("awards", ofZ 5) ].

Definition FW_aiDiscoverability : table :=
  [ ("aiCrawlerAccess", ofZ 35); ("contentFreshness", ofZ 30);
    ("llmsTxtPresence", ofZ 20); ("dateSignalsPresent", ofZ 15) ].

(** [GRADE_THRESHOLDS] and [getGrade]. *)
Inductive grade := A | B | C | D | F.

Definition getGrade (score : num) : grade :=
  if ge score (ofZ 90) then A
  else if ge score (ofZ 80) then B
  else if ge score (ofZ 70) then C
  else if ge score (ofZ 60) then D
  else F.

(** [getContextMultiplier]: [CONTEXT_MULTIPLIERS[context]?.[factor] || 1.0]. *)
Definition getContextMultiplier (c : context) (factor : string) : num :=
  match get (CONTEXT_MULTIPLIERS c) factor with
  | Number n => if truthy n then n else ofZ 1
  | Undefined => ofZ 1
  end.

End Weights.

(* ================================================================== *)
(** * JavaScript values                                                 *)
(* ================================================================== *)

Module Val.

Import JS.
Open Scope string_scope.

(** What [JSON.parse] returns, and [undefined].  An object is the list of
    its properties in source order; a parsed object has each key once. *)
Inductive value : Type :=
| VUndef : value
| VNull : value
| VBool (b : bool) : value
| VNum (n : num) : value
| VStr (s : string) : value
| VArr (items : list value) : value
| VObj (props : list (string * value)) : value.

(** [!!v]. *)
Definition truthy (v : value) : bool :=
  match v with
  | VUndef | VNull => false
  | VBool b => b
  | VNum n => JS.truthy n
  | VStr s => Str.nonEmpty s
  | VArr _ | VObj _ => true
  end.

(** [a || b]. *)
Definition or (a b : value) : value := if truthy a then a else b.

Fixpoint assoc (props : list (string * value)) (k : string) : value :=
  match props with
  | [] => VUndef
  | (k', v) :: r => if String.eqb k k' then v else assoc r k
  end.

Definition lengthOf (n : nat) : value := VNum (ofZ (Z.of_nat n)).

(** [v.k] where [v] is known not to be [null] or [undefined]: a property
    of an object, [length] of an array or a string, and [undefined]
    otherwise. *)
Definition field (v : value) (k : string) : value :=
  match v with
  | VObj props => assoc props k
  | VArr items => if String.eqb k "length" then lengthOf (List.length items) else VUndef
  | VStr s => if String.eqb k "length" then lengthOf (String.length s) else VUndef
  | _ => VUndef
  end.

(** [v.k]: throws on [null] and [undefined]. *)
Definition prop (v : value) (k : string) : res value :=
  match v with
  | VUndef | VNull => TypeError
  | _ => Ok (field v k)
  end.

(** [v?.k]. *)
Definition optProp (v : value) (k : string) : value := field v k.

(** [v[0]] where [v] is an array. *)
Definition first (items : list value) : value :=
  match items with
  | [] => VUndef
  | x :: _ => x
  end.

Definition isArray (v : value) : bool :=
  match v with VArr _ => true | _ => false end.

Definition isString (v : value) : bool :=
  match v with VStr _ => true | _ => false end.

(** [typeof v === 'object']: objects, arrays and [null]. *)
Definition typeofObject (v : value) : bool :=
  match v with VObj _ | VArr _ | VNull => true | _ => false end.

(** [v === s] for a string literal [s]. *)
Definition isStr (v : value) (s : string) : bool :=
  match v with VStr t => String.eqb t s | _ => false end.

(** [Array.isArray(v) ? v : [v]]. *)
Definition asArray (v : value) : list value :=
  match v with VArr items => items | _ => [v] end.

(** ** [parseFloat] and [parseInt(_, 10)] *)

Fixpoint digits (l : list ascii) (acc : Z) (n : nat) : Z * nat * list ascii :=
  match l with
  | c :: r => if Str.isDigit c then digits r (10 * acc + Str.digitVal c)%Z (S n)
              else (acc, n, l)
  | [] => (acc, n, [])
  end.

Definition signOf (l : list ascii) : Z * list ascii :=
  match l with
  | "-"%char :: r => ((-1)%Z, r)
  | "+"%char :: r => (1%Z, r)
  | _ => (1%Z, l)
  end.

(** The exponent part [e[+-]digits], if there is one, and what follows. *)
Definition exponent (l : list ascii) : Z * list ascii :=
  match l with
  | c :: r =>
      if Ascii.eqb c "e" || Ascii.eqb c "E" then
        let '(sg, r') := signOf r in
        let '(e, n, rest) := digits r' 0%Z 0 in
        if (n =? 0)%nat then (0%Z, l) else ((sg * e)%Z, rest)
      else (0%Z, l)
  | [] => (0%Z, [])
  end.

Definition pow10 (e : Z) : Q :=
  if (0 <=? e)%Z then inject_Z (10 ^ e) else Qinv (inject_Z (10 ^ (- e))).

(** The longest prefix that is a decimal literal (sign, digits, fraction,
    exponent), with the text after it; [None] when there is no digit.
    [Infinity] is not modelled. *)
Definition decimal (l : list ascii) : option (Q * list ascii) :=
  let '(sg, l1) := signOf l in
  let '(ip, ni, l2) := digits l1 0%Z 0 in
  let '(fp, nf, l3) :=
    match l2 with
    | "."%char :: r => digits r 0%Z 0
    | _ => (0%Z, 0, l2)
    end in
  if ((ni + nf) =? 0)%nat then None
  else
    let mant := (inject_Z ip + inject_Z fp / inject_Z (10 ^ Z.of_nat nf))%Q in
    let '(e, rest) := exponent l3 in
    Some ((inject_Z sg * mant * pow10 e)%Q, rest).

(** [parseFloat] of a string: leading white space is skipped, text after
    the literal is ignored. *)
Definition parseFloatStr (s : string) : num :=
  match decimal (Str.dropWs (list_ascii_of_string s)) with
  | Some (q, _) => mk q
  | None => NaN
  end.

(** [Number(s)]: the whole trimmed string must be a literal; the empty
    string is [0]. *)
Definition numberOfStr (s : string) : num :=
  match Str.trimL (list_ascii_of_string s) with
  | [] => ofZ 0
  | l => match decimal l with
         | Some (q, []) => mk q
         | _ => NaN
         end
  end.

(** [parseInt(s, 10)] of a string. *)
Definition parseIntStr (s : string) : num :=
  let l := Str.dropWs (list_ascii_of_string s) in
  let '(sg, l1) := signOf l in
  let '(ip, ni, _) := digits l1 0%Z 0 in
  if (ni =? 0)%nat then NaN else ofZ (sg * ip).

(** [parseFloat(v)]: [v] is first turned into a string; a number reads
    back as itself, an array as its first element does, and [undefined],
    [null], booleans and objects do not start with a digit. *)
Fixpoint parseFloat (v : value) : num :=
  match v with
  | VNum n => n
  | VStr s => parseFloatStr s
  | VArr (x :: _) => match x with VUndef | VNull => NaN | _ => parseFloat x end
  | _ => NaN
  end.

(** [parseInt(v, 10)]: as [parseFloat], keeping the integer part. *)
Fixpoint parseInt (v : value) : num :=
  match v with
  | VNum (Num q) => ofZ (Z.quot (Qnum q) (Zpos (Qden q)))
  | VNum NaN => NaN
  | VStr s => parseIntStr s
  | VArr (x :: _) => match x with VUndef | VNull => NaN | _ => parseInt x end
  | _ => NaN
  end.

(** [Number(v)], the coercion of [v > 0]: an array goes through its
    string, which is a literal only when it has at most one element. *)
Fixpoint toNumber (v : value) : num :=
  match v with
  | VUndef => NaN
  | VNull => ofZ 0
  | VBool b => if b then ofZ 1 else ofZ 0
  | VNum n => n
  | VStr s => numberOfStr s
  | VArr [] => ofZ 0
  | VArr [x] =>
      match x with
      | VUndef | VNull => ofZ 0
      | VBool _ | VObj _ => NaN
      | _ => toNumber x
      end
  | VArr _ => NaN
  | VObj _ => NaN
  end.

(** [n || d] where [n] is a number. *)
Definition numOr (n : num) (d : value) : value :=
  if JS.truthy n then VNum n else d.

End Val.

(* ================================================================== *)
(** * The schema-entity set                                             *)
(* ================================================================== *)

Module Schema.

Import Val.

(** [schemas.product]. *)
Record Product : Type := {
  name : value;
  description : value;
  image : value;
  sku : value;
  gtin : value;
  mpn : value;
  brandName : value;  (* the [brand] property of the product slot *)
  hasOffer : bool;
  hasRating : bool;
  isProductGroup : bool;
  productSource : option string
}.

Record Offer : Type := {
  price : value;
  priceCurrency : value;
  availability : value;
  offerSource : option string
}.

Record AggregateRating : Type := {
  ratingValue : value;
  reviewCount : value;
  ratingCount : value;
  bestRating : value;
  ratingSource : option string
}.

Record ReviewRating : Type := {
  rrValue : value;
  rrBest : value
}.

Record Review : Type := {
  author : value;
  datePublished : value;
  reviewBody : value;
  reviewRating : option ReviewRating
}.

Record Question : Type := {
  question : value;
  answer : value;
  answerLength : value
}.

Record Faq : Type := {
  questionCount : value;
  questions : list Question;
  faqSource : option string
}.

Record Crumb : Type := {
  position : value;
  crumbName : value;
  crumbUrl : value
}.

Record Breadcrumb : Type := {
  itemCount : value;
  items : list Crumb;
  breadcrumbSource : option string
}.

(** [schemas.organization] and [schemas.brand]. *)
Record Org : Type := {
  orgName : value;
  logo : value;
  url : value;
  orgSource : option string
}.

Record Image : Type := {
  imageUrl : value;
  caption : value;
  width : value;
  height : value
}.

(** The [schemas] object of [extractStructuredData]. *)
Record Schemas : Type := {
  product : option Product;
  offer : option (list Offer);
  aggregateRating : option AggregateRating;
  reviews : list Review;
  faq : option Faq;
  breadcrumb : option Breadcrumb;
  organization : option Org;
  brand : option Org;
  images : list Image
}.

(** The initial value of [results.schemas]. *)
Definition empty : Schemas := {|
  product := None; offer := None; aggregateRating := None; reviews := [];
  faq := None; breadcrumb := None; organization := None; brand := None;
  images := []
|}.

Definition setProduct (s : Schemas) (p : Product) : Schemas :=
  {| product := Some p; offer := offer s; aggregateRating := aggregateRating s;
     reviews := reviews s; faq := faq s; breadcrumb := breadcrumb s;
     organization := organization s; brand := brand s; images := images s |}.

Definition setOffer (s : Schemas) (o : list Offer) : Schemas :=
  {| product := product s; offer := Some o; aggregateRating := aggregateRating s;
     reviews := reviews s; faq := faq s; breadcrumb := breadcrumb s;
     organization := organization s; brand := brand s; images := images s |}.

Definition setAggregateRating (s : Schemas) (r : AggregateRating) : Schemas :=
  {| product := product s; offer := offer s; aggregateRating := Some r;
     reviews := reviews s; faq := faq s; breadcrumb := breadcrumb s;
     organization := organization s; brand := brand s; images := images s |}.

Definition setReviews (s : Schemas) (r : list Review) : Schemas :=
  {| product := product s; offer := offer s; aggregateRating := aggregateRating s;
     reviews := r; faq := faq s; breadcrumb := breadcrumb s;
     organization := organization s; brand := brand s; images := images s |}.

Definition setFaq (s : Schemas) (f : Faq) : Schemas :=
  {| product := product s; offer := offer s; aggregateRating := aggregateRating s;
     reviews := reviews s; faq := Some f; breadcrumb := breadcrumb s;
     organization := organization s; brand := brand s; images := images s |}.

Definition setBreadcrumb (s : Schemas) (b : Breadcrumb) : Schemas :=
  {| product := product s; offer := offer s; aggregateRating := aggregateRating s;
     reviews := reviews s; faq := faq s; breadcrumb := Some b;
     organization := organization s; brand := brand s; images := images s |}.

Definition setOrganization (s : Schemas) (o : Org) : Schemas :=
  {| product := product s; offer := offer s; aggregateRating := aggregateRating s;
     reviews := reviews s; faq := faq s; breadcrumb := breadcrumb s;
     organization := Some o; brand := brand s; images := images s |}.

Definition setBrand (s : Schemas) (b : Org) : Schemas :=
  {| product := product s; offer := offer s; aggregateRating := aggregateRating s;
     reviews := reviews s; faq := faq s; breadcrumb := breadcrumb s;
     organization := organization s; brand := Some b; images := images s |}.

Definition setImages (s : Schemas) (i : list Image) : Schemas :=
  {| product := product s; offer := offer s; aggregateRating := aggregateRating s;
     reviews := reviews s; faq := faq s; breadcrumb := breadcrumb s;
     organization := organization s; brand := brand s; images := i |}.

Definition isSome {A : Type} (o : option A) : bool :=
  match o with Some _ => true | None => false end.

End Schema.

(* ================================================================== *)
(** * content-script.js: the structured-data resolver                   *)
(* ================================================================== *)

Module Resolver.

Import JS Val Schema.
Open Scope string_scope.

(** The entities of one parsed JSON-LD block ([categorizeSchemas], the
    three formats).  [data['@graph']] throws on [null]; a truthy [@graph]
    that is no array has no [forEach]. *)
Definition itemsOf (data : value) : res (list value) :=
  match data with
  | VArr l => Ok l
  | _ =>
      g <- prop data "@graph" ;;
      if truthy g then
        match g with VArr l => Ok l | _ => TypeError end
      else Ok [data]
  end.

(** The lower-cased type of an entity; [None] when the entity is skipped
    ([!item || !item['@type']]).  [toLowerCase] exists on strings only. *)
Definition typeOf (item : value) : res (option string) :=
  if negb (truthy item) then Ok None
  else
    let t := field item "@type" in
    if negb (truthy t) then Ok None
    else
      match (match t with VArr l => first l | _ => t end) with
      | VStr s => Ok (Some (Str.toLowerCase s))
      | _ => TypeError
      end.

Definition extractImageUrl (image : value) : value :=
  if negb (truthy image) then VNull
  else match image with
       | VStr _ => image
       | VArr l => or (optProp (first l) "url") (first l)
       | _ => or (field image "url") (field image "contentUrl")
       end.

Definition extractBrandName (brandData : value) : value :=
  if negb (truthy brandData) then VNull
  else match brandData with
       | VStr _ => brandData
       | VArr l =>
           match l with
           | [] => VNull
           | f :: _ => if isString f then f else or (optProp f "name") VNull
           end
       | _ => or (optProp brandData "name") VNull
       end.

(** [for (const variant of variants) if (variant && variant.offers) ...]:
    the offers of the first variant that has them. *)
Fixpoint firstVariantOffers (variants : list value) (dflt : value) : value :=
  match variants with
  | [] => dflt
  | v :: r =>
      if truthy v && truthy (field v "offers") then field v "offers"
      else firstVariantOffers r dflt
  end.

Definition mkOffer (o : value) : res Offer :=
  p <- prop o "price" ;;
  Ok {| price := or p (field o "lowPrice");
        priceCurrency := field o "priceCurrency";
        availability := field o "availability";
        offerSource := None |}.

(** A nested [brand] or [manufacturer] object with a type of its own. *)
Definition nestedOrg (v : value) : option Org :=
  let o := match v with VArr l => first l | _ => v end in
  if truthy o && typeofObject o && truthy (field o "@type") then
    Some {| orgName := or (field o "name") VNull;
            logo := or (extractImageUrl (field o "logo")) VNull;
            url := or (field o "url") VNull;
            orgSource := Some "product-nested" |}
  else None.

Definition mkQuestion (q : value) : Question :=
  let text := optProp (field q "acceptedAnswer") "text" in
  {| question := field q "name";
     answer := text;
     answerLength := field (or text (VStr "")) "length" |}.

Definition mkCrumb (el : value) : res Crumb :=
  p <- prop el "position" ;;
  Ok {| position := p; crumbName := field el "name"; crumbUrl := VUndef |}.

Definition isProductType (type : string) : bool :=
  String.eqb type "product" || String.eqb type "productgroup".

(** The object assigned to [schemas.product] for a Product or
    ProductGroup entity. *)
Definition productOf (item : value) (type : string) : Product :=
  let hasVariant := field item "hasVariant" in
  {| name := field item "name";
     description := field item "description";
     image := extractImageUrl (field item "image");
     sku := or (field item "sku") (field item "productGroupID");
     gtin := or (or (or (or (field item "gtin") (field item "gtin13"))
                        (field item "gtin14")) (field item "gtin12"))
                (field item "gtin8");
     mpn := field item "mpn";
     brandName := or (extractBrandName (field item "brand"))
                     (extractBrandName (field item "manufacturer"));
     hasOffer := truthy (field item "offers")
                 || (truthy hasVariant && gt (toNumber (field hasVariant "length")) (ofZ 0));
     hasRating := truthy (field item "aggregateRating");
     isProductGroup := String.eqb type "productgroup";
     productSource := None |}.

(** The object assigned to [schemas.aggregateRating] for the
    [aggregateRating] property [ar] of such an entity. *)
Definition ratingOf (ar : value) : AggregateRating :=
  {| ratingValue := VNum (parseFloat (field ar "ratingValue"));
     reviewCount := numOr (parseInt (field ar "reviewCount")) VNull;
     ratingCount := VUndef;
     bestRating := numOr (parseFloat (field ar "bestRating")) (VNum (ofZ 5));
     ratingSource := None |}.

(** The body of [items.forEach(item => ...)] in [categorizeSchemas]. *)
Definition categorizeItem (schemas : Schemas) (item : value) : res Schemas :=
  ty <- typeOf item ;;
  match ty with
  | None => Ok schemas
  | Some type =>
      if isProductType type then
        let hasVariant := field item "hasVariant" in
        let schemas := setProduct schemas (productOf item type) in
        let offersSource :=
          if negb (truthy (field item "offers")) && truthy hasVariant
          then firstVariantOffers (asArray hasVariant) (field item "offers")
          else field item "offers" in
        schemas <-
          (if truthy offersSource
           then os <- mapM mkOffer (asArray offersSource) ;; Ok (setOffer schemas os)
           else Ok schemas) ;;
        let ar := field item "aggregateRating" in
        let schemas :=
          if truthy ar then setAggregateRating schemas (ratingOf ar) else schemas in
        let schemas :=
          if negb (isSome (brand schemas)) && truthy (field item "brand") then
            match nestedOrg (field item "brand") with
            | Some b => setBrand schemas b
            | None => schemas
            end
          else schemas in
        let schemas :=
          if negb (isSome (organization schemas)) && truthy (field item "manufacturer") then
            match nestedOrg (field item "manufacturer") with
            | Some o => setOrganization schemas o
            | None => schemas
            end
          else schemas in
        Ok schemas
      else if String.eqb type "faqpage" then
        match or (field item "mainEntity") (VArr []) with
        | VArr es =>
            tys <- mapM (fun e => prop e "@type") es ;;
            let qs := List.filter (fun e => isStr (field e "@type") "Question") es in
            Ok (setFaq schemas {|
                  questionCount := lengthOf (List.length qs);
                  questions := List.map mkQuestion qs;
                  faqSource := None |})
        | _ => TypeError
        end
      else if String.eqb type "breadcrumblist" then
        match or (field item "itemListElement") (VArr []) with
        | VArr els =>
            cs <- mapM mkCrumb els ;;
            Ok (setBreadcrumb schemas {|
                  itemCount := lengthOf (List.length els);
                  items := cs;
                  breadcrumbSource := None |})
        | _ => TypeError
        end
      else if String.eqb type "organization" then
        Ok (setOrganization schemas {|
              orgName := field item "name";
              logo := extractImageUrl (field item "logo");
              url := field item "url";
              orgSource := None |})
      else Ok schemas
  end.

(** [categorizeSchemas(data, schemas)]. *)
Definition categorizeSchemas (data : value) (schemas : Schemas) : res Schemas :=
  items <- itemsOf data ;;
  foldM categorizeItem items schemas.

(** ** Microdata *)

(** What [extractMicrodataItem] builds: the value of a property is a
    string, or the item of a nested scope with its [itemtype] and its
    properties (each name once, the last element of a name winning in the
    source). *)
Inductive md : Type :=
| MdStr (s : string) : md
| MdScope (type : string) (props : list (string * md)) : md.

(** The same item as the object [{ type, properties }]. *)
Fixpoint toValue (m : md) : value :=
  match m with
  | MdStr s => VStr s
  | MdScope t ps =>
      VObj [ ("type", VStr t);
             ("properties",
              VObj ((fix conv (l : list (string * md)) : list (string * value) :=
                       match l with
                       | [] => []
                       | (k, v) :: r => (k, toValue v) :: conv r
                       end) ps)) ]
  end.

(** [type.replace(/^https?:\/\/schema\.org\//, '')]. *)
Definition stripSchemaOrg (t : string) : string :=
  if Str.startsWith t "http://schema.org/" then String.substring 18 (String.length t) t
  else if Str.startsWith t "https://schema.org/" then String.substring 19 (String.length t) t
  else t.

(** [v.properties?.k] for a truthy property value [v]. *)
Definition sub (v : value) (k : string) : value :=
  optProp (field v "properties") k.

Definition mdOffer (o : value) : Offer :=
  {| price := or (or (sub o "price") (sub o "lowPrice")) VNull;
     priceCurrency := or (sub o "priceCurrency") VNull;
     availability := or (sub o "availability") VNull;
     offerSource := Some "microdata" |}.

Definition mdRating (r : value) : AggregateRating :=
  {| ratingValue := numOr (parseFloat (sub r "ratingValue")) VNull;
     reviewCount := numOr (parseInt (sub r "reviewCount")) VNull;
     ratingCount := numOr (parseInt (sub r "ratingCount")) VNull;
     bestRating := numOr (parseFloat (sub r "bestRating")) (VNum (ofZ 5));
     ratingSource := Some "microdata" |}.

Definition mdReview (r : value) : Review :=
  {| author := or (or (sub (sub r "author") "name") (sub r "author")) VNull;
     datePublished := or (sub r "datePublished") VNull;
     reviewBody := or (or (sub r "reviewBody") (sub r "description")) VNull;
     reviewRating :=
       if truthy (sub r "reviewRating") then
         Some {| rrValue := numOr (parseFloat (sub (sub r "reviewRating") "ratingValue")) VNull;
                 rrBest := numOr (parseFloat (sub (sub r "reviewRating") "bestRating"))
                                 (VNum (ofZ 5)) |}
       else None |}.

Definition mdQuestion (q : value) : Question :=
  let text := sub (sub q "acceptedAnswer") "text" in
  {| question := or (sub q "name") VNull;
     answer := or text VNull;
     answerLength := field (or text (VStr "")) "length" |}.

(** [q.type?.includes('Question')]; the type of an item is a string. *)
Definition isQuestion (q : value) : bool :=
  match field q "type" with
  | VStr t => Str.includes t "Question"
  | _ => false
  end.

Definition mdCrumb (el : value) : Crumb :=
  {| position := or (sub el "position") VNull;
     crumbName := or (sub el "name") VNull;
     crumbUrl := or (sub el "item") VNull |}.

Definition mdOrg (item : value) : Org :=
  {| orgName := or (sub item "name") VNull;
     logo := or (or (sub (sub item "logo") "url") (sub item "logo")) VNull;
     url := or (sub item "url") VNull;
     orgSource := Some "microdata" |}.

(** The object assigned to [schemas.product] for a microdata Product or
    ProductGroup item (it has no [gtin] and no [mpn]). *)
Definition mdProductOf (item : value) (type : string) : Product :=
  {| name := or (sub item "name") VNull;
     description := or (sub item "description") VNull;
     image := or (sub item "image") VNull;
     sku := or (or (sub item "sku") (sub item "productGroupID")) VNull;
     gtin := VUndef;
     mpn := VUndef;
     brandName :=
       or (extractBrandName (or (sub (sub item "brand") "name") (sub item "brand")))
          (extractBrandName (sub item "manufacturer"));
     hasOffer := truthy (sub item "offers") || truthy (sub item "hasVariant");
     hasRating := truthy (sub item "aggregateRating");
     isProductGroup := String.eqb type "productgroup";
     productSource := Some "microdata" |}.

(** The lower-cased type of a microdata item, [itemtype] without the
    schema.org prefix. *)
Definition mdType (t : string) : string := Str.toLowerCase (stripSchemaOrg t).

(** The body of [microdataItems.forEach(item => ...)] in
    [categorizeMicrodataSchemas], on an item with a non-empty type. *)
Definition categorizeMicrodataItem (schemas : Schemas) (m : md) : Schemas :=
  match m with
  | MdStr _ => schemas
  | MdScope t _ =>
      if negb (Str.nonEmpty t) then schemas
      else
        let item := toValue m in
        let type := mdType t in
        if isProductType type then
          if isSome (product schemas) then schemas
          else
            let schemas := setProduct schemas (mdProductOf item type) in
            let schemas :=
              if truthy (sub item "offers") && negb (isSome (offer schemas))
              then setOffer schemas (List.map mdOffer (asArray (sub item "offers")))
              else schemas in
            let schemas :=
              if truthy (sub item "aggregateRating") && negb (isSome (aggregateRating schemas))
              then setAggregateRating schemas (mdRating (sub item "aggregateRating"))
              else schemas in
            if truthy (sub item "review") && (List.length (reviews schemas) =? 0)%nat
            then setReviews schemas (List.map mdReview (asArray (sub item "review")))
            else schemas
        else if String.eqb type "offer" then
          if isSome (offer schemas) then schemas
          else setOffer schemas [ {|
                 price := or (or (sub item "price") (sub item "lowPrice")) VNull;
                 priceCurrency := or (sub item "priceCurrency") VNull;
                 availability := or (sub item "availability") VNull;
                 offerSource := Some "microdata" |} ]
        else if String.eqb type "aggregaterating" then
          if isSome (aggregateRating schemas) then schemas
          else setAggregateRating schemas (mdRating item)
        else if String.eqb type "review" then
          setReviews schemas (reviews schemas ++ [mdReview item])
        else if String.eqb type "faqpage" then
          if isSome (faq schemas) then schemas
          else
            let qs := asArray (or (sub item "mainEntity") (VArr [])) in
            setFaq schemas {|
              questionCount := lengthOf (List.length qs);
              questions := List.map mdQuestion (List.filter isQuestion qs);
              faqSource := Some "microdata" |}
        else if String.eqb type "breadcrumblist" then
          if isSome (breadcrumb schemas) then schemas
          else
            let els := asArray (or (sub item "itemListElement") (VArr [])) in
            setBreadcrumb schemas {|
              itemCount := lengthOf (List.length els);
              items := List.map mdCrumb els;
              breadcrumbSource := Some "microdata" |}
        else if String.eqb type "organization" then
          if isSome (organization schemas) then schemas
          else setOrganization schemas (mdOrg item)
        else if String.eqb type "brand" then
          if isSome (brand schemas) then schemas
          else setBrand schemas (mdOrg item)
        else if String.eqb type "imageobject" then
          setImages schemas (images schemas ++ [ {|
            imageUrl := or (or (sub item "url") (sub item "contentUrl")) VNull;
            caption := or (sub item "caption") VNull;
            width := or (sub item "width") VNull;
            height := or (sub item "height") VNull |} ])
        else schemas
  end.

(** [categorizeMicrodataSchemas(microdataItems, schemas)]. *)
Definition categorizeMicrodataSchemas (microdataItems : list md) (schemas : Schemas) : Schemas :=
  List.fold_left categorizeMicrodataItem microdataItems schemas.

(** [extractStructuredData]: the JSON-LD blocks in document order
    ([None]: the text of the block did not parse, which is recorded and
    skipped), then the top-level microdata scopes. *)
Definition categorizeBlock (schemas : Schemas) (block : option value) : res Schemas :=
  match block with
  | Some data => categorizeSchemas data schemas
  | None => Ok schemas
  end.

Definition extractStructuredData (parsedJsonLd : list (option value)) (microdata : list md)
  : res Schemas :=
  s <- foldM categorizeBlock parsedJsonLd Schema.empty ;;
  Ok (categorizeMicrodataSchemas microdata s).

End Resolver.

(* ================================================================== *)
(** * The extraction result                                             *)
(* ================================================================== *)

(** The fields of [performFullExtraction]'s result that scoring and the
    recommendation checks read, typed as the extractors produce them. *)
Module Extraction.

Import JS.

Record OpenGraph : Type := {
  ogTitle : option string;
  ogDescription : option string;
  ogImage : option string;
  ogType : option string
}.

Record TwitterCards : Type := {
  card : option string;
  twitterImage : option string
}.

Record Canonical : Type := {
  present : bool;
  matchesCurrentUrl : option bool;
  isProductCanonical : option bool
}.

Record MetaTags : Type := {
  openGraph : OpenGraph;
  twitterCards : TwitterCards;
  standardDescription : option string;  (* [standard.description] *)
  canonical : Canonical;
  robotsIsBlocked : bool                (* [robots.isBlocked] *)
}.

Record Description : Type := {
  wordCount : num;
  lengthScore : num;
  hasBenefitStatements : bool;
  hasEmotionalLanguage : bool;
  hasTechnicalTerms : bool
}.

Record Counted : Type := {   (* [features], [faq]: a count and its score *)
  count : num;
  countScore : num
}.

Record Specifications : Type := {
  specCount : num;
  specCountScore : num;
  specItems : list bool       (* [items], each by its [hasUnit] *)
}.

Record ProductDetails : Type := {
  hasDimensions : bool;
  hasMaterials : bool;
  hasCareInstructions : bool;
  hasWarranty : bool;
  hasCompatibility : bool
}.

Record ContentQuality : Type := {
  description : Description;
  specifications : Specifications;
  features : Counted;
  faq : Counted;
  productDetails : ProductDetails;
  readabilityScore : option num   (* [textMetrics.readabilityScore] *)
}.

Record Headings : Type := {
  h1Count : num;
  h1Texts : list string;
  hasH1 : bool;
  hasSingleH1 : bool;
  hierarchyIssues : list string;
  hierarchyValid : bool
}.

Record ContentStructure : Type := {
  headings : Headings;
  semanticScore : num;
  hasMain : bool;
  hasArticle : bool;
  ratio : num;
  ratioScore : num;
  tableCount : num;
  hasProperTables : bool;
  tableScore : num;
  hasProperLists : bool;
  listScore : num;
  ariaLabels : num;
  primaryImage : option bool;     (* [images.primaryImage], by its [hasAlt] *)
  altCoverage : num;
  totalCount : num;
  jsScore : num;
  dependencyLevel : string
}.

Record Reviews : Type := {
  reviewCount : num;
  averageRating : option num;
  hasReviews : bool;
  hasRecentReviews : option bool;
  averageReviewLength : num;
  reviewsAnalyzed : num;
  reviewCountScore : num;
  ratingScore : num;
  depthScore : num
}.

Record Brand : Type := {
  brandName : option string;
  inH1 : bool;
  inTitle : bool;
  clarity : string;
  brandScore : num
}.

Record TrustSignals : Type := {
  reviews : Reviews;
  brand : Brand;
  certFound : bool;
  certCount : num;
  certScore : num;
  awardCount : num
}.

Record AnswerFormat : Type := {
  bestForCount : num;
  hasComparison : bool;
  hasHowTo : bool;
  useCaseCount : num
}.

Record ExtractedData : Type := {
  schemas : Schema.Schemas;               (* [structuredData.schemas] *)
  metaTags : MetaTags;
  contentQuality : ContentQuality;
  contentStructure : ContentStructure;
  trustSignals : TrustSignals;
  answerFormat : option AnswerFormat;     (* [aiDiscoverability.answerFormat] *)
  pageTitle : option string               (* [pageInfo.title] *)
}.

(** [!!s] for a string that may be [null] or [undefined]. *)
Definition present_str (s : option string) : bool :=
  match s with
  | Some t => Str.nonEmpty t
  | None => false
  end.

Definition len (s : option string) : num :=
  match s with
  | Some t => ofZ (Z.of_nat (String.length t))
  | None => ofZ 0
  end.

Definition isTrue (b : option bool) : bool :=
  match b with Some true => true | _ => false end.

(** The external facts. *)
Record ImageFormatFact : Type := {
  isWebP : bool;
  isValidFormat : bool
}.

Record RobotsFact : Type := {
  accessible : option bool;      (* absent when no fact was fetched *)
  error : option string;
  blockedCrawlers : list string;
  allowedCrawlers : list string
}.

Record LlmsTxtFact : Type := {
  found : bool;
  llmsTxtFound : bool;
  llmsFullTxtFound : bool
}.

Record NetworkData : Type := {
  robots : RobotsFact;
  llms : LlmsTxtFact
}.

(** [networkData?.robots || {}] and [networkData?.llms || {}] when no
    network data is given. *)
Definition noRobots : RobotsFact :=
  {| accessible := None; error := None; blockedCrawlers := []; allowedCrawlers := [] |}.

Definition noLlms : LlmsTxtFact :=
  {| found := false; llmsTxtFound := false; llmsFullTxtFound := false |}.

End Extraction.

(* ================================================================== *)
(** * scoring-engine.js                                                 *)
(* ================================================================== *)

Module Scoring.

Import JS Val Weights Extraction.
Open Scope string_scope.
Open Scope Z_scope.

Inductive status := pass | warning | fail | unknown.

(** A factor of a category; its [details] text is not modelled. *)
Record Factor : Type := {
  name : string;
  fstatus : status;
  points : numU;
  maxPoints : numU;
  critical : bool;
  contextual : bool
}.

Record CategoryScore : Type := {
  score : num;
  factors : list Factor;
  weight : numU;
  categoryName : string
}.

Definition mkFactor (n : string) (st : status) (p m : numU) (crit ctx : bool) : Factor :=
  {| name := n; fstatus := st; points := p; maxPoints := m;
     critical := crit; contextual := ctx |}.

(** [rawScore]: it starts at [0] and each factor's points are added to it
    as the factor is pushed. *)
Definition rawScore (fs : list Factor) : num :=
  List.fold_left (fun acc f => add acc (toNum (points f))) fs (ofZ 0).

Definition q (n d : Z) : num := Weights.dec n d.

(** [x ? Math.round((x / 100) * w) : 0]. *)
Definition scaled (x w : num) : num :=
  if JS.truthy x then round (mul (div x (ofZ 100)) w) else ofZ 0.

Definition bpoints (b : bool) (w : num) : num := if b then w else ofZ 0.

Definition bstatus (b : bool) : status := if b then pass else fail.

Section Engine.

(** [new ScoringEngine(context)]. *)
Variable context : Weights.context.

Definition multipliers : table := CONTEXT_MULTIPLIERS context.

Definition mult (k : string) : num := toNum (get multipliers k).

(** ** [scoreStructuredData] *)

Definition productFieldScore (p : Schema.Product) : num :=
  let pts (b : bool) (n : Z) := if b then ofZ n else ofZ 0 in
  add (add (add (add (add (add
    (pts (truthy (Schema.name p)) 6)
    (pts (truthy (Schema.description p)) 5))
    (pts (truthy (Schema.image p)) 5))
    (pts (Schema.hasOffer p) 5))
    (pts (truthy (Schema.brandName p)) 3))
    (pts (truthy (Schema.gtin p) || truthy (Schema.mpn p) || truthy (Schema.sku p)) 3))
    (pts (Schema.hasRating p) 3).

Definition scoreStructuredData (s : Schema.Schemas) : CategoryScore :=
  let w k := toNum (get FW_structuredData k) in
  let m k := get FW_structuredData k in
  let productScore :=
    match Schema.product s with
    | Some p => round (mul (div (productFieldScore p) (ofZ 30)) (w "productSchema"))
    | None => ofZ 0
    end in
  let productStatus :=
    match Schema.product s with
    | None => fail
    | Some _ =>
        if ge productScore (mul (w "productSchema") (q 8 10)) then pass
        else if ge productScore (mul (w "productSchema") (q 5 10)) then warning
        else fail
    end in
  let hasOffer := Schema.isSome (Schema.offer s) in
  let hasRating := Schema.isSome (Schema.aggregateRating s) in
  let hasReviews := negb (List.length (Schema.reviews s) =? 0)%nat in
  let hasFaq :=
    match Schema.faq s with
    | Some f => gt (toNumber (Schema.questionCount f)) (ofZ 0)
    | None => false
    end in
  let hasBreadcrumb := Schema.isSome (Schema.breadcrumb s) in
  let hasOrg := Schema.isSome (Schema.organization s) || Schema.isSome (Schema.brand s) in
  let hasImageSchema := negb (List.length (Schema.images s) =? 0)%nat in
  let fs :=
    [ mkFactor "Product Schema" productStatus productScore (m "productSchema") true false;
      mkFactor "Offer Schema" (bstatus hasOffer) (bpoints hasOffer (w "offerSchema"))
               (m "offerSchema") true false;
      mkFactor "AggregateRating Schema" (bstatus hasRating)
               (bpoints hasRating (w "aggregateRating")) (m "aggregateRating") false false;
      mkFactor "Review Schema" (bstatus hasReviews)
               (bpoints hasReviews (w "reviewSchema")) (m "reviewSchema") false false;
      mkFactor "FAQ Schema" (bstatus hasFaq)
               (bpoints hasFaq (w "faqSchema")) (m "faqSchema") false false;
      mkFactor "Breadcrumb Schema" (bstatus hasBreadcrumb)
               (bpoints hasBreadcrumb (w "breadcrumbSchema")) (m "breadcrumbSchema") false false;
      mkFactor "Organization/Brand Schema" (bstatus hasOrg)
               (bpoints hasOrg (w "organizationSchema")) (m "organizationSchema") false false;
      mkFactor "ImageObject Schema" (bstatus hasImageSchema)
               (bpoints hasImageSchema (w "imageSchema")) (m "imageSchema") false false ] in
  {| score := rawScore fs; factors := fs;
     weight := get CATEGORY_WEIGHTS "structuredData";
     categoryName := "Structured Data" |}.

(** ** [scoreProtocolMeta] *)

(** [/\.(jpe?g|png|gif)(\?|$)/]. *)
Definition validExtension : Regex.re :=
  Regex.seq [ Regex.lit ".";
              Regex.Grp 1 (Regex.alt [ Regex.seq [Regex.lit "jp"; Regex.opt (Regex.lit "e");
                                                  Regex.lit "g"];
                                       Regex.lit "png"; Regex.lit "gif" ]);
              Regex.Grp 2 (Regex.alt [Regex.lit "?"; Regex.Eos]) ].

(** The og:image format: status and points. *)
Definition imageFormat (ogImage : option string) (imageVerification : option ImageFormatFact)
  : status * num :=
  let w := toNum (get FW_protocolMeta "ogImageFormat") in
  match imageVerification with
  | Some v =>
      if isWebP v then (fail, ofZ 0)
      else if isValidFormat v then (pass, w)
      else (warning, div w (ofZ 2))
  | None =>
      if present_str ogImage then
        let url := Str.toLowerCase (match ogImage with Some u => u | None => "" end) in
        if Str.endsWith url ".webp" || Str.includes url ".webp?" then (fail, ofZ 0)
        else if Regex.test validExtension url then (pass, w)
        else (unknown, ofZ 0)
      else (unknown, ofZ 0)
  end.

(** [present ? (optimal ? w : w * 0.7) : 0] with its status. *)
Definition graded (has optimal : bool) (w : num) : status * num :=
  if has then (if optimal then (pass, w) else (warning, mul w (q 7 10)))
  else (fail, ofZ 0).

Definition scoreProtocolMeta (data : MetaTags) (imageVerification : option ImageFormatFact)
  : CategoryScore :=
  let w k := toNum (get FW_protocolMeta k) in
  let m k := get FW_protocolMeta k in
  let og := openGraph data in
  let twitter := twitterCards data in
  let hasOgImage := present_str (ogImage og) in
  let fmt := imageFormat (ogImage og) imageVerification in
  let titleLength := len (ogTitle og) in
  let ogT := graded (present_str (ogTitle og))
                    (gt titleLength (ofZ 0) && le titleLength (ofZ 60)) (w "ogTitle") in
  let descLength := len (ogDescription og) in
  let ogD := graded (present_str (ogDescription og))
                    (ge descLength (ofZ 100) && le descLength (ofZ 200)) (w "ogDescription") in
  let isProductType :=
    match ogType og with
    | Some t => String.eqb t "product" || String.eqb t "og:product"
    | None => false
    end in
  let hasTwitterCard := present_str (card twitter) in
  let isLargeImage :=
    match card twitter with
    | Some c => String.eqb c "summary_large_image"
    | None => false
    end in
  let tw := graded hasTwitterCard isLargeImage (w "twitterCard") in
  let hasTwitterImage := present_str (twitterImage twitter) in
  let hasCanonical := present (canonical data) in
  let canonicalIsValid :=
    isTrue (matchesCurrentUrl (canonical data)) || isTrue (isProductCanonical (canonical data)) in
  let can := graded hasCanonical canonicalIsValid (w "canonical") in
  let hasMetaDesc := present_str (standardDescription data) in
  let metaDescLength := len (standardDescription data) in
  let md := graded hasMetaDesc
                   (ge metaDescLength (ofZ 120) && le metaDescLength (ofZ 160))
                   (w "metaDescription") in
  let isBlocked := robotsIsBlocked data in
  let fs :=
    [ mkFactor "og:image Present" (bstatus hasOgImage) (bpoints hasOgImage (w "ogImage"))
               (m "ogImage") true false;
      mkFactor "og:image Format" (fst fmt) (snd fmt) (m "ogImageFormat") true false;
      mkFactor "og:title" (fst ogT) (snd ogT) (m "ogTitle") false false;
      mkFactor "og:description" (fst ogD) (snd ogD) (m "ogDescription") false false;
      mkFactor "og:type = product" (bstatus isProductType)
               (bpoints isProductType (w "ogType")) (m "ogType") false false;
      mkFactor "Twitter Card" (fst tw) (snd tw) (m "twitterCard") false false;
      mkFactor "Twitter Image" (bstatus hasTwitterImage)
               (bpoints hasTwitterImage (w "twitterImage")) (m "twitterImage") false false;
      mkFactor "Canonical URL" (fst can) (snd can) (m "canonical") false false;
      mkFactor "Meta Description" (fst md) (snd md) (m "metaDescription") false false;
      mkFactor "Robots Allows Indexing" (bstatus (negb isBlocked))
               (bpoints (negb isBlocked) (w "robotsAllowsIndex")) (m "robotsAllowsIndex")
               isBlocked false ] in
  {| score := rawScore fs; factors := fs;
     weight := get CATEGORY_WEIGHTS "protocolMeta";
     categoryName := "Protocol & Meta Compliance" |}.

(** ** [scoreContentQuality] *)

(** [n || 0] and [n || 1.0]. *)
Definition orZero (n : num) : num := if JS.truthy n then n else ofZ 0.

Definition orOne (n : num) : num := if JS.truthy n then n else ofZ 1.

(** [count >= hi ? pass : count >= lo ? warning : fail]. *)
Definition byCount (n hi lo : num) : status :=
  if ge n hi then pass else if ge n lo then warning else fail.

(** A contextual factor that is clamped to its maximum:
    [Math.min(w, Math.round(base * multiplier))]. *)
Definition clamped (base mul_ w : num) : num := min w (round (mul base mul_)).

Definition scoreContentQuality (data : ContentQuality) (aiSignals : option AnswerFormat)
  : CategoryScore :=
  let w k := toNum (get FW_contentQuality k) in
  let m k := get FW_contentQuality k in
  let desc := description data in
  let specs := specifications data in
  let details := productDetails data in
  let wordCount := orZero (wordCount desc) in
  let descScore := scaled (lengthScore desc) (w "descriptionLength") in
  let half := div (w "descriptionQuality") (ofZ 2) in
  let dq0 := ofZ 0 in
  let dq1 :=
    if hasBenefitStatements desc || hasEmotionalLanguage desc
    then add dq0 (mul half (mult "emotionalBenefitCopy")) else dq0 in
  let dq2 :=
    if hasTechnicalTerms desc
    then add dq1 (mul half (mult "technicalSpecifications")) else dq1 in
  let descQualityScore := min (w "descriptionQuality") (round dq2) in
  let specCount := orZero (specCount specs) in
  let specScore0 := scaled (specCountScore specs) (w "specificationCount") in
  let specScore1 := round (mul specScore0 (mult "technicalSpecifications")) in
  let specScore := min (mul (w "specificationCount") (q 15 10)) specScore1 in
  let featureCount := orZero (count (features data)) in
  let faqCount := orZero (count (faq data)) in
  let dim0 := bpoints (hasDimensions details) (w "dimensions") in
  let dimensionsScore :=
    match context with
    | need => round (mul dim0 (q 13 10))
    | _ => dim0
    end in
  let isNeed := match context with need => true | _ => false end in
  let warrantyScore :=
    round (mul (bpoints (hasWarranty details) (w "warrantyInfo")) (mult "warrantyInfo")) in
  let compatScore :=
    round (mul (bpoints (hasCompatibility details) (w "compatibilityInfo"))
               (mult "compatibilityInfo")) in
  let nItems := List.length (specItems specs) in
  let specsWithUnits := List.length (List.filter (fun b => b) (specItems specs)) in
  let specDetailRatio :=
    if (0 <? nItems)%nat
    then div (ofZ (Z.of_nat specsWithUnits)) (ofZ (Z.of_nat nItems)) else ofZ 0 in
  let specDetailScore :=
    if ge specDetailRatio (q 3 10) then w "specificationDetail"
    else if gt specDetailRatio (ofZ 0) then round (mul (w "specificationDetail") (q 5 10))
    else ofZ 0 in
  let specDetailStatus :=
    if ge specDetailRatio (q 3 10) then pass
    else if gt specDetailRatio (ofZ 0) then warning else fail in
  let hasComparison :=
    match aiSignals with Some a => hasComparison a | None => false end in
  let comparisonScore :=
    min (w "comparisonContent")
        (round (mul (bpoints hasComparison (w "comparisonContent"))
                    (orOne (mult "comparisonContent")))) in
  let fs :=
    [ mkFactor "Description Length" (byCount wordCount (ofZ 100) (ofZ 50)) descScore
               (m "descriptionLength") false false;
      mkFactor "Description Quality"
               (if ge descQualityScore (mul (w "descriptionQuality") (q 7 10))
                then pass else warning)
               descQualityScore (m "descriptionQuality") false true;
      mkFactor "Specifications" (byCount specCount (ofZ 5) (ofZ 3))
               (min (w "specificationCount") specScore) (m "specificationCount") false true;
      mkFactor "Features List" (byCount featureCount (ofZ 5) (ofZ 3))
               (scaled (countScore (features data)) (w "featureCount"))
               (m "featureCount") false false;
      mkFactor "FAQ Section"
               (if ge faqCount (ofZ 3) then pass
                else if gt faqCount (ofZ 0) then warning else fail)
               (scaled (countScore (faq data)) (w "faqPresence")) (m "faqPresence") false false;
      mkFactor "Dimensions/Size" (bstatus (hasDimensions details))
               (min (w "dimensions") dimensionsScore) (m "dimensions") false isNeed;
      mkFactor "Materials" (bstatus (hasMaterials details))
               (bpoints (hasMaterials details) (w "materials")) (m "materials") false false;
      mkFactor "Care Instructions" (bstatus (hasCareInstructions details))
               (bpoints (hasCareInstructions details) (w "careInstructions"))
               (m "careInstructions") false false;
      mkFactor "Warranty Information" (bstatus (hasWarranty details))
               (min (w "warrantyInfo") warrantyScore) (m "warrantyInfo") false true;
      mkFactor "Compatibility Information" (bstatus (hasCompatibility details))
               (min (w "compatibilityInfo") compatScore) (m "compatibilityInfo") false true;
      mkFactor "Specification Detail" specDetailStatus specDetailScore
               (m "specificationDetail") false true;
      mkFactor "Comparison Content" (bstatus hasComparison) comparisonScore
               (m "comparisonContent") false true ] in
  {| score := min (ofZ 100) (rawScore fs); factors := fs;
     weight := get CATEGORY_WEIGHTS "contentQuality";
     categoryName := "Content Depth & Quality" |}.

(** ** [scoreContentStructure] *)

Definition scoreContentStructure (data : ContentStructure) (readabilityRaw : option num)
  : CategoryScore :=
  let w k := toNum (get FW_contentStructure k) in
  let m k := get FW_contentStructure k in
  let h := headings data in
  let h1Score :=
    if hasSingleH1 h then w "h1Presence"
    else if hasH1 h then mul (w "h1Presence") (q 5 10) else ofZ 0 in
  let h1Status :=
    if hasSingleH1 h then pass else if hasH1 h then warning else fail in
  let hierarchyScore :=
    if hierarchyValid h then w "headingHierarchy"
    else mul (w "headingHierarchy") (q 5 10) in
  let primaryHasAlt := match primaryImage data with Some b => b | None => false end in
  let altCov := orZero (altCoverage data) in
  let readability :=
    match readabilityRaw with
    | Some raw =>
        (round (mul (div raw (ofZ 100)) (w "readability")),
         if ge raw (ofZ 60) then pass else if ge raw (ofZ 40) then warning else fail)
    | None => (ofZ 0, fail)
    end in
  let jsPoints :=
    if JS.truthy (jsScore data)
    then round (mul (div (jsScore data) (ofZ 100)) (w "jsDependency"))
    else w "jsDependency" in
  let fs :=
    [ mkFactor "H1 Heading" h1Status h1Score (m "h1Presence") false false;
      mkFactor "Heading Hierarchy" (if hierarchyValid h then pass else warning)
               hierarchyScore (m "headingHierarchy") false false;
      mkFactor "Semantic HTML"
               (if hasMain data then pass else if hasArticle data then warning else fail)
               (scaled (semanticScore data) (w "semanticHTML")) (m "semanticHTML") false false;
      mkFactor "Content-to-Chrome Ratio" (byCount (ratio data) (q 5 10) (q 3 10))
               (scaled (ratioScore data) (w "contentRatio")) (m "contentRatio") false false;
      mkFactor "Table Structure"
               (if hasProperTables data then pass
                else if gt (tableCount data) (ofZ 0) then warning else fail)
               (scaled (tableScore data) (w "tableStructure")) (m "tableStructure") false false;
      mkFactor "List Structure" (bstatus (hasProperLists data))
               (scaled (listScore data) (w "listStructure")) (m "listStructure") false false;
      mkFactor "ARIA Labels" (bstatus (gt (ariaLabels data) (ofZ 0)))
               (bpoints (gt (ariaLabels data) (ofZ 0)) (w "ariaLabels"))
               (m "ariaLabels") false false;
      mkFactor "Primary Image Alt Text" (bstatus primaryHasAlt)
               (bpoints primaryHasAlt (w "primaryImageAlt")) (m "primaryImageAlt") false false;
      mkFactor "Image Alt Coverage" (byCount altCov (q 9 10) (q 5 10))
               (round (mul altCov (w "allImagesAlt"))) (m "allImagesAlt") false false;
      mkFactor "Readability" (snd readability) (fst readability) (m "readability") false false;
      mkFactor "JavaScript Dependency"
               (if String.eqb (dependencyLevel data) "low" then pass
                else if String.eqb (dependencyLevel data) "medium" then warning else fail)
               jsPoints (m "jsDependency") false false ] in
  {| score := min (ofZ 100) (rawScore fs); factors := fs;
     weight := get CATEGORY_WEIGHTS "contentStructure";
     categoryName := "Content Structure & Accessibility" |}.

(** ** [scoreAuthorityTrust] *)

Definition ratingAtLeast (r : option num) (bound : num) : bool :=
  match r with
  | Some n => ge n bound
  | None => ge (ofZ 0) bound      (* [null >= bound] *)
  end.

Definition scoreAuthorityTrust (data : TrustSignals) : CategoryScore :=
  let w k := toNum (get FW_authorityTrust k) in
  let m k := get FW_authorityTrust k in
  let rv := reviews data in
  let reviewCountScore :=
    round (mul (scaled (reviewCountScore rv) (w "reviewCount")) (mult "reviewCount")) in
  let ratingScore :=
    round (mul (scaled (ratingScore rv) (w "averageRating")) (mult "reviewRating")) in
  let recency :=
    match hasRecentReviews rv with
    | Some true => (w "reviewRecency", pass)
    | Some false => (round (mul (w "reviewRecency") (q 5 10)), warning)
    | None => (ofZ 0, fail)
    end in
  let avgLength := orZero (averageReviewLength rv) in
  let reviewsAnalyzed := orZero (reviewsAnalyzed rv) in
  let depth :=
    if gt reviewsAnalyzed (ofZ 0)
    then (scaled (depthScore rv) (w "reviewDepth"), byCount avgLength (ofZ 100) (ofZ 50))
    else (ofZ 0, fail) in
  let b := brand data in
  let certScore :=
    round (mul (scaled (certScore data) (w "certifications")) (mult "certifications")) in
  let hasAwards := gt (awardCount data) (ofZ 0) in
  let fs :=
    [ mkFactor "Review Count" (byCount (reviewCount rv) (ofZ 50) (ofZ 10))
               (min (mul (w "reviewCount") (q 15 10)) reviewCountScore)
               (m "reviewCount") false true;
      mkFactor "Average Rating"
               (if ratingAtLeast (averageRating rv) (ofZ 4) then pass
                else if ratingAtLeast (averageRating rv) (q 35 10) then warning else fail)
               (min (w "averageRating") ratingScore) (m "averageRating") false true;
      mkFactor "Review Recency" (snd recency) (fst recency) (m "reviewRecency") false false;
      mkFactor "Review Depth" (snd depth) (fst depth) (m "reviewDepth") false false;
      mkFactor "Brand Clarity"
               (if String.eqb (clarity b) "excellent" then pass
                else if String.eqb (clarity b) "good" then warning else fail)
               (scaled (brandScore b) (w "brandClarity")) (m "brandClarity") false false;
      mkFactor "Certifications" (bstatus (gt (certCount data) (ofZ 0)))
               (min (w "certifications") certScore) (m "certifications") false true;
      mkFactor "Awards" (bstatus hasAwards) (bpoints hasAwards (w "awards"))
               (m "awards") false false ] in
  {| score := min (ofZ 100) (rawScore fs); factors := fs;
     weight := get CATEGORY_WEIGHTS "authorityTrust";
     categoryName := "Authority & Trust Signals" |}.

(** ** [scoreAIDiscoverability] and its factors *)

(** What each factor scorer returns: [{ score, factor }]. *)
Definition scored (n : string) (st : status) (sc m : numU) (crit : bool) : numU * Factor :=
  (sc, mkFactor n st sc m crit false).

(** [scoreAICrawlerAccess(robotsData, maxPoints)]. *)
Definition scoreAICrawlerAccess (robotsData : RobotsFact) (maxPoints : numU) : numU * Factor :=
  let mp := toNum maxPoints in
  let '(st, sc) :=
    match accessible robotsData with
    | Some false =>
        if present_str (error robotsData)
        then (warning, Number (mul mp (q 5 10)))
        else (pass, maxPoints)
    | Some true =>
        let blockedCount := Z.of_nat (List.length (blockedCrawlers robotsData)) in
        let allowedCount := Z.of_nat (List.length (allowedCrawlers robotsData)) in
        let totalMajor := blockedCount + allowedCount in
        if blockedCount =? 0 then (pass, maxPoints)
        else if blockedCount <? totalMajor
        then (warning, Number (round (mul mp (div (ofZ allowedCount) (ofZ totalMajor)))))
        else (fail, Number (ofZ 0))
    | None => (unknown, Number (ofZ 0))
    end in
  scored "AI Crawler Access" st sc maxPoints
         (match st with fail => true | _ => false end).

(** One surface against the product name: both lower-cased and trimmed,
    equal or one containing the other. *)
Definition aligned (nameLower : string) (surface : option string) : bool :=
  match surface with
  | Some t =>
      Str.nonEmpty t &&
      (let l := Str.trim (Str.toLowerCase t) in
       String.eqb l nameLower || Str.includes l nameLower || Str.includes nameLower l)
  | None => false
  end.

(** The meta description against the product name: it contains the name,
    or at least [ceil(0.6 * n)] of the name's [n] words longer than two
    characters. *)
Definition alignedMeta (nameLower : string) (metaDesc : option string) : bool :=
  match metaDesc with
  | Some t =>
      Str.nonEmpty t &&
      (let metaLower := Str.toLowerCase t in
       let nameWords :=
         List.filter (fun wd => (2 <? String.length wd)%nat) (Str.splitWs nameLower) in
       let matchedWords := List.filter (fun wd => Str.includes metaLower wd) nameWords in
       Str.includes metaLower nameLower ||
       ge (ofZ (Z.of_nat (List.length matchedWords)))
          (ceil (mul (ofZ (Z.of_nat (List.length nameWords))) (q 6 10))))
  | None => false
  end.

Definition b2z (b : bool) : Z := if b then 1 else 0.

(** The number of surfaces, of the four, the name aligns with. *)
Definition entityMatches (d : ExtractedData) (nameLower : string) : Z :=
  b2z (aligned nameLower (List.hd_error (h1Texts (headings (contentStructure d)))))
  + b2z (aligned nameLower (ogTitle (openGraph (metaTags d))))
  + b2z (alignedMeta nameLower (standardDescription (metaTags d)))
  + b2z (aligned nameLower (pageTitle d)).

Definition entityStatus (matches : Z) : status :=
  if 3 <=? matches then pass else if 2 <=? matches then warning else fail.

(** [scoreEntityConsistency(extractedData, maxPoints)]; [toLowerCase] is
    a method of strings only. *)
Definition scoreEntityConsistency (d : ExtractedData) (maxPoints : numU) : res (numU * Factor) :=
  let productName :=
    match Schema.product (schemas d) with
    | Some p => Schema.name p
    | None => VUndef
    end in
  if negb (truthy productName) then
    Ok (scored "Entity Consistency" fail (Number (ofZ 0)) maxPoints false)
  else
    match productName with
    | VStr n =>
        let nameLower := Str.trim (Str.toLowerCase n) in
        let pointsPerLocation := div (toNum maxPoints) (ofZ 4) in
        let matches := entityMatches d nameLower in
        let sc := round (mul (ofZ matches) pointsPerLocation) in
        Ok (scored "Entity Consistency" (entityStatus matches) (Number sc) maxPoints false)
    | _ => TypeError
    end.

(** [scoreAnswerFormatContent(extractedData, maxPoints)]. *)
Definition scoreAnswerFormatContent (d : ExtractedData) (maxPoints : numU) : numU * Factor :=
  match answerFormat d with
  | None => scored "Answer-Format Content" fail (Number (ofZ 0)) maxPoints false
  | Some a =>
      let signals :=
        b2z (gt (bestForCount a) (ofZ 0)) + b2z (hasComparison a)
        + b2z (hasHowTo a) + b2z (gt (useCaseCount a) (ofZ 0)) in
      let sc := round (mul (div (ofZ signals) (ofZ 4)) (toNum maxPoints)) in
      let st := if 3 <=? signals then pass else if 1 <=? signals then warning else fail in
      scored "Answer-Format Content" st (Number sc) maxPoints false
  end.

(** [scoreProductIdentifiers(extractedData, maxPoints)]. *)
Definition scoreProductIdentifiers (d : ExtractedData) (maxPoints : numU) : numU * Factor :=
  match Schema.product (schemas d) with
  | None => scored "Product Identifiers" fail (Number (ofZ 0)) maxPoints false
  | Some p =>
      let n := b2z (truthy (Schema.gtin p)) + b2z (truthy (Schema.mpn p))
               + b2z (truthy (Schema.sku p)) in
      let sc :=
        if 2 <=? n then maxPoints
        else if n =? 1 then Number (round (mul (toNum maxPoints) (q 5 10)))
        else Number (ofZ 0) in
      let st := if 2 <=? n then pass else if n =? 1 then warning else fail in
      scored "Product Identifiers" st sc maxPoints false
  end.

(** [scoreLlmsTxt(llmsData, maxPoints)]. *)
Definition scoreLlmsTxt (llmsData : LlmsTxtFact) (maxPoints : numU) : numU * Factor :=
  let '(st, sc) :=
    if found llmsData then
      if llmsTxtFound llmsData then (pass, maxPoints)
      else if llmsFullTxtFound llmsData
      then (pass, Number (round (mul (toNum maxPoints) (q 8 10))))
      else (fail, Number (ofZ 0))
    else (fail, Number (ofZ 0)) in
  scored "llms.txt Presence" st sc maxPoints false.

Definition scoreAIDiscoverability (d : ExtractedData) (networkData : option NetworkData)
  : res CategoryScore :=
  let m k := get FW_aiDiscoverability k in
  let robots := match networkData with Some n => robots n | None => noRobots end in
  let llms := match networkData with Some n => llms n | None => noLlms end in
  let crawlerResult := scoreAICrawlerAccess robots (m "aiCrawlerAccess") in
  entityResult <- scoreEntityConsistency d (m "entityConsistency") ;;
  let answerResult := scoreAnswerFormatContent d (m "answerFormatContent") in
  let identResult := scoreProductIdentifiers d (m "productIdentifiers") in
  let llmsResult := scoreLlmsTxt llms (m "llmsTxtPresence") in
  let fs := [ snd crawlerResult; snd entityResult; snd answerResult;
              snd identResult; snd llmsResult ] in
  Ok {| score := min (ofZ 100) (rawScore fs); factors := fs;
        weight := get CATEGORY_WEIGHTS "aiDiscoverability";
        categoryName := "AI Discoverability" |}.

(** ** [calculateScore] *)

Record CategoryScores : Type := {
  structuredData : CategoryScore;
  protocolMeta : CategoryScore;
  contentQuality : CategoryScore;
  contentStructure : CategoryScore;
  authorityTrust : CategoryScore;
  aiDiscoverability : CategoryScore
}.

Record ScoreResult : Type := {
  totalScore : num;
  grade : Weights.grade;
  context_ : Weights.context;
  categoryScores : CategoryScores;
  jsDependent : bool
}.

Definition categories (c : CategoryScores) : list CategoryScore :=
  [ structuredData c; protocolMeta c; contentQuality c;
    contentStructure c; authorityTrust c; aiDiscoverability c ].

(** The weighted sum of [calculateScore], in source order, looking the
    weights up in [CATEGORY_WEIGHTS]. *)
Definition weightedSum (c : CategoryScores) : num :=
  let cw k := toNum (get CATEGORY_WEIGHTS k) in
  add (add (add (add (add
    (mul (score (structuredData c)) (cw "structuredData"))
    (mul (score (protocolMeta c)) (cw "protocolMeta")))
    (mul (score (contentQuality c)) (cw "contentQuality")))
    (mul (score (contentStructure c)) (cw "contentStructure")))
    (mul (score (authorityTrust c)) (cw "authorityTrust")))
    (mul (score (aiDiscoverability c)) (cw "aiDiscoverability")).

Definition calculateScore (extractedData : ExtractedData)
    (imageVerification : option ImageFormatFact)
    (aiDiscoverabilityData : option NetworkData) : res ScoreResult :=
  ai <- scoreAIDiscoverability extractedData aiDiscoverabilityData ;;
  let cs := {|
    structuredData := scoreStructuredData (schemas extractedData);
    protocolMeta := scoreProtocolMeta (metaTags extractedData) imageVerification;
    contentQuality :=
      scoreContentQuality (Extraction.contentQuality extractedData) (answerFormat extractedData);
    contentStructure :=
      scoreContentStructure (Extraction.contentStructure extractedData)
                            (readabilityScore (Extraction.contentQuality extractedData));
    authorityTrust := scoreAuthorityTrust (trustSignals extractedData);
    aiDiscoverability := ai |} in
  let total := round (weightedSum cs) in
  Ok {| totalScore := total;
        grade := getGrade total;
        context_ := context;
        categoryScores := cs;
        jsDependent :=
          String.eqb (dependencyLevel (Extraction.contentStructure extractedData)) "high" |}.

End Engine.

End Scoring.

(* ================================================================== *)
(** * recommendation-rules.js and recommendation-engine.js             *)
(* ================================================================== *)

Module Recs.

Import JS Weights Extraction.
Open Scope string_scope.
Open Scope Z_scope.

Inductive level := high | medium | low.

(** [PRIORITY_MATRIX] and [calculatePriority]. *)
Definition PRIORITY_MATRIX (impact effort : level) : Z :=
  match impact, effort with
  | high, low => 1 | high, medium => 2 | high, high => 3
  | medium, low => 2 | medium, medium => 3 | medium, high => 4
  | low, low => 3 | low, medium => 4 | low, high => 5
  end.

Definition calculatePriority (impact effort : level) : Z :=
  let p := PRIORITY_MATRIX impact effort in
  if p =? 0 then 5 else p.

(** A template of [RECOMMENDATION_TEMPLATES]; the texts are not
    modelled. *)
Record Template : Type := {
  t_impact : level;
  t_effort : level;
  t_category : string
}.

Definition tpl (i e : level) (c : string) : Template :=
  {| t_impact := i; t_effort := e; t_category := c |}.

Definition RECOMMENDATION_TEMPLATES : list (string * Template) :=
  [ ("og-image-missing", tpl high low "protocolMeta");
    ("og-image-webp", tpl high low "protocolMeta");
    ("robots-blocking", tpl high low "protocolMeta");
    ("og-title-missing", tpl medium low "protocolMeta");
    ("og-description-missing", tpl medium low "protocolMeta");
    ("twitter-card-missing", tpl low low "protocolMeta");
    ("product-schema-missing", tpl high medium "structuredData");
    ("offer-schema-missing", tpl high low "structuredData");
    ("rating-schema-missing", tpl medium low "structuredData");
    ("faq-schema-missing", tpl medium medium "structuredData");
    ("breadcrumb-schema-missing", tpl low low "structuredData");
    ("description-short", tpl high medium "contentQuality");
    ("specs-missing", tpl medium medium "contentQuality");
    ("faq-content-missing", tpl medium medium "contentQuality");
    ("features-missing", tpl medium low "contentQuality");
    ("compatibility-missing", tpl medium low "contentQuality");
    ("h1-missing", tpl medium low "contentStructure");
    ("multiple-h1", tpl low low "contentStructure");
    ("semantic-html-missing", tpl medium medium "contentStructure");
    ("primary-image-alt-missing", tpl medium low "contentStructure");
    ("images-alt-low", tpl low medium "contentStructure");
    ("reviews-missing", tpl high high "authorityTrust");
    ("reviews-low-count", tpl medium high "authorityTrust");
    ("brand-unclear", tpl medium low "authorityTrust");
    ("certifications-missing", tpl low low "authorityTrust");
    ("ai-crawler-blocked", tpl high low "aiDiscoverability");
    ("llms-txt-missing", tpl medium low "aiDiscoverability");
    ("entity-consistency-low", tpl medium low "aiDiscoverability");
    ("answer-format-missing", tpl medium medium "aiDiscoverability");
    ("product-identifiers-missing", tpl medium low "aiDiscoverability") ].

Fixpoint template (l : list (string * Template)) (id : string) : option Template :=
  match l with
  | [] => None
  | (k, t) :: r => if String.eqb id k then Some t else template r id
  end.

(** A recommendation; title, description and the other texts are not
    modelled. *)
Record Recommendation : Type := {
  id : string;
  impact : level;
  effort : level;
  category : string;
  priority : Z;
  contextual : bool
}.

Definition mkRec (i : string) (im ef : level) (c : string) (p : Z) (ctx : bool) : Recommendation :=
  {| id := i; impact := im; effort := ef; category := c; priority := p; contextual := ctx |}.

(** [createRecommendation(templateId)]: [null] for an unknown id. *)
Definition createRecommendation (templateId : string) : option Recommendation :=
  match template RECOMMENDATION_TEMPLATES templateId with
  | Some t =>
      Some (mkRec templateId (t_impact t) (t_effort t) (t_category t)
                (calculatePriority (t_impact t) (t_effort t)) false)
  | None => None
  end.

(** [{ ...this.createRecommendation(id), impact, priority }]: the fields
    of the template's recommendation with some of them replaced.
    Spreading [null] (an unknown id) gives an object with the replaced
    fields only. *)
Definition spread (templateId : string) (f : Recommendation -> Recommendation)
  : option Recommendation :=
  match createRecommendation templateId with
  | Some r => Some (f r)
  | None => Some (f (mkRec "" low low "" 5 false))
  end.

Definition withImpact (im : level) (p : Z) (ctx : bool) (r : Recommendation) : Recommendation :=
  {| id := id r; impact := im; effort := effort r; category := category r;
     priority := p; contextual := ctx |}.

Definition when (b : bool) (r : option Recommendation) : list (option Recommendation) :=
  if b then [r] else [].

Section Engine.

(** [new RecommendationEngine(scoreResult, extractedData, imageVerification)]. *)
Variable scoreResult : Scoring.ScoreResult.
Variable extractedData : ExtractedData.
Variable imageVerification : option ImageFormatFact.

Definition context : Weights.context := Scoring.context_ scoreResult.

Definition checkProtocolMetaIssues : list (option Recommendation) :=
  let mt := metaTags extractedData in
  let og := openGraph mt in
  when (robotsIsBlocked mt) (createRecommendation "robots-blocking")
  ++ (if negb (present_str (ogImage og))
      then [createRecommendation "og-image-missing"]
      else when (match imageVerification with Some v => isWebP v | None => false end)
                (createRecommendation "og-image-webp"))
  ++ when (negb (present_str (ogTitle og))) (createRecommendation "og-title-missing")
  ++ when (negb (present_str (ogDescription og)))
          (createRecommendation "og-description-missing")
  ++ when (negb (present_str (card (twitterCards mt))))
          (createRecommendation "twitter-card-missing")
  ++ when (negb (present (canonical mt)))
          (Some (mkRec "canonical-missing" low low "protocolMeta"
                     (calculatePriority low low) false))
  ++ when (negb (present_str (standardDescription mt)))
          (Some (mkRec "meta-description-missing" medium low "protocolMeta"
                     (calculatePriority medium low) false)).

Definition checkStructuredDataIssues : list (option Recommendation) :=
  let s := schemas extractedData in
  let hasProduct := Schema.isSome (Schema.product s) in
  let hasFaqSchema := Schema.isSome (Schema.faq s) in
  let faqCount := count (faq (contentQuality extractedData)) in
  when (negb hasProduct) (createRecommendation "product-schema-missing")
  ++ when (hasProduct && negb (Schema.isSome (Schema.offer s)))
          (createRecommendation "offer-schema-missing")
  ++ when (negb (Schema.isSome (Schema.aggregateRating s))
           && gt (reviewCount (reviews (trustSignals extractedData))) (ofZ 0))
          (createRecommendation "rating-schema-missing")
  ++ (if negb hasFaqSchema && gt faqCount (ofZ 0)
      then [createRecommendation "faq-schema-missing"]
      else when (negb hasFaqSchema && JS.eqb faqCount (ofZ 0))
                (Some (mkRec "faq-schema-and-content-missing" medium medium "structuredData"
                           (calculatePriority medium medium) false)))
  ++ when (negb (Schema.isSome (Schema.breadcrumb s)))
          (createRecommendation "breadcrumb-schema-missing").

Definition checkContentQualityIssues : list (option Recommendation) :=
  let cq := contentQuality extractedData in
  let details := productDetails cq in
  let specImpact :=
    if gt (getContextMultiplier context "technicalSpecifications") (ofZ 1)
    then high else medium in
  let warrantyBoost := gt (getContextMultiplier context "warrantyInfo") (ofZ 1) in
  let warrantyImpact := if warrantyBoost then medium else low in
  when (lt (wordCount (description cq)) (ofZ 100))
       (match template RECOMMENDATION_TEMPLATES "description-short" with
        | Some t => Some (mkRec "description-short" (t_impact t) (t_effort t) (t_category t)
                              (calculatePriority (t_impact t) (t_effort t)) false)
        | None => None
        end)
  ++ when (lt (specCount (specifications cq)) (ofZ 5))
          (Some (mkRec "specs-low" specImpact medium "contentQuality"
                     (calculatePriority specImpact medium) true))
  ++ when (lt (count (features cq)) (ofZ 3)) (createRecommendation "features-missing")
  ++ when (gt (count (faq cq)) (ofZ 0) && lt (count (faq cq)) (ofZ 3))
          (createRecommendation "faq-content-missing")
  ++ when (negb (hasCompatibility details))
          (if gt (getContextMultiplier context "compatibilityInfo") (ofZ 1)
           then spread "compatibility-missing"
                       (fun r => withImpact high (calculatePriority high low) (contextual r) r)
           else createRecommendation "compatibility-missing")
  ++ when (negb (hasWarranty details))
          (Some (mkRec "warranty-missing" warrantyImpact low "contentQuality"
                     (calculatePriority warrantyImpact low) warrantyBoost)).

Definition checkContentStructureIssues : list (option Recommendation) :=
  let cs := contentStructure extractedData in
  let h := headings cs in
  when (negb (hasH1 h)) (createRecommendation "h1-missing")
  ++ when (gt (h1Count h) (ofZ 1)) (createRecommendation "multiple-h1")
  ++ when (negb (hasMain cs) && negb (hasArticle cs))
          (createRecommendation "semantic-html-missing")
  ++ when (match primaryImage cs with Some hasAlt => negb hasAlt | None => false end)
          (createRecommendation "primary-image-alt-missing")
  ++ when (lt (altCoverage cs) (Weights.dec 8 10) && gt (totalCount cs) (ofZ 3))
          (spread "images-alt-low" (fun r => r))
  ++ when (negb (List.length (hierarchyIssues h) =? 0)%nat)
          (Some (mkRec "heading-hierarchy" low low "contentStructure"
                     (calculatePriority low low) false)).

Definition checkAuthorityTrustIssues : list (option Recommendation) :=
  let ts := trustSignals extractedData in
  let rv := reviews ts in
  let b := brand ts in
  let countImpact :=
    if gt (getContextMultiplier context "reviewCount") (ofZ 1) then high else medium in
  (if negb (hasReviews rv) || JS.eqb (reviewCount rv) (ofZ 0)
   then [createRecommendation "reviews-missing"]
   else when (lt (reviewCount rv) (ofZ 10))
             (spread "reviews-low-count"
                     (fun r => withImpact countImpact (calculatePriority countImpact high)
                                          (contextual r) r)))
  ++ (if negb (present_str (brandName b)) || String.eqb (clarity b) "missing"
      then [createRecommendation "brand-unclear"]
      else when (String.eqb (clarity b) "present" && negb (inH1 b) && negb (inTitle b))
                (Some (mkRec "brand-visibility" low low "authorityTrust"
                           (calculatePriority low low) false)))
  ++ when (negb (certFound ts)
           && gt (getContextMultiplier context "certifications") (ofZ 1))
          (spread "certifications-missing"
                  (fun r => withImpact medium (calculatePriority medium low) true r)).

(** The body of the loop of [checkAIDiscoverabilityIssues] for one
    factor. *)
Definition aiIssuesOf (f : Scoring.Factor) : list (option Recommendation) :=
  let named n := String.eqb (Scoring.name f) n in
  let st := Scoring.fstatus f in
  let failed := match st with Scoring.fail => true | _ => false end in
  let warned := match st with Scoring.warning => true | _ => false end in
  (if named "AI Crawler Access" && failed
   then [createRecommendation "ai-crawler-blocked"]
   else when (named "AI Crawler Access" && warned
              && lt (toNum (Scoring.points f))
                    (mul (toNum (Scoring.maxPoints f)) (Weights.dec 5 10)))
             (createRecommendation "ai-crawler-blocked"))
  ++ when (named "Entity Consistency" && (failed || warned))
          (createRecommendation "entity-consistency-low")
  ++ when (named "Answer-Format Content" && failed)
          (createRecommendation "answer-format-missing")
  ++ when (named "Product Identifiers" && failed)
          (createRecommendation "product-identifiers-missing")
  ++ when (named "llms.txt Presence" && failed)
          (createRecommendation "llms-txt-missing").

Definition checkAIDiscoverabilityIssues : list (option Recommendation) :=
  List.flat_map aiIssuesOf
    (Scoring.factors (Scoring.aiDiscoverability (Scoring.categoryScores scoreResult))).

(** The comparator of [prioritizeRecommendations]:
    [(impactOrder[a.impact] || 2)], where [impactOrder.high] is [0]. *)
Definition impactOrder (l : level) : Z :=
  match l with high => 0 | medium => 1 | low => 2 end.

Definition impactRank (l : level) : Z :=
  if impactOrder l =? 0 then 2 else impactOrder l.

Definition compare (a b : Recommendation) : Z :=
  if negb (priority a =? priority b) then priority a - priority b
  else impactRank (impact a) - impactRank (impact b).

(** [Array.prototype.sort] with a comparator: a stable sort, so an
    element moves behind another one only when it compares greater. *)
Fixpoint insert (r : Recommendation) (l : list Recommendation) : list Recommendation :=
  match l with
  | [] => [r]
  | x :: t => if 0 <? compare r x then x :: insert r t else r :: l
  end.

Fixpoint sort (l : list Recommendation) : list Recommendation :=
  match l with
  | [] => []
  | x :: t => insert x (sort t)
  end.

Fixpoint nonNull (l : list (option Recommendation)) : list Recommendation :=
  match l with
  | [] => []
  | Some r :: t => r :: nonNull t
  | None :: t => nonNull t
  end.

Definition prioritizeRecommendations (recommendations : list (option Recommendation))
  : list Recommendation :=
  sort (nonNull recommendations).

Definition generateRecommendations : list Recommendation :=
  prioritizeRecommendations
    (checkProtocolMetaIssues ++ checkStructuredDataIssues ++ checkContentQualityIssues
     ++ checkContentStructureIssues ++ checkAuthorityTrustIssues
     ++ checkAIDiscoverabilityIssues).

End Engine.

(** The recommendations about the FAQ: the three ids the two FAQ checks
    can emit. *)
Definition faqRelated (r : Recommendation) : bool :=
  String.eqb (id r) "faq-schema-missing"
  || String.eqb (id r) "faq-schema-and-content-missing"
  || String.eqb (id r) "faq-content-missing".

Definition faqCount (l : list Recommendation) : nat :=
  List.length (List.filter faqRelated l).

End Recs.

(* ================================================================== *)
(** * content-script.js: warranty detection of [extractProductDetails] *)
(* ================================================================== *)

Module Details.

Import Val Regex.
Open Scope string_scope.

Definition nl : string := String (ascii_of_nat 10) EmptyString.

Definition warrantyOrGuarantee : re := alt [liti "warranty"; liti "guarantee"].

(** [warrantyPatterns], all under the [i] flag. *)
Definition warrantyPatterns : list re :=
  [ (* /(\d+[\s-]*(?:year|month|day|yr|mo)[\s-]*(?:limited\s+)?(?:warranty|guarantee))/i *)
    Grp 1 (seq [plus digit; star (wsOr "-");
                alt [liti "year"; liti "month"; liti "day"; liti "yr"; liti "mo"];
                star (wsOr "-"); opt (seq [liti "limited"; plus ws]);
                warrantyOrGuarantee]);
    (* /((?:limited\s+)?(?:lifetime|full)\s+(?:warranty|guarantee))/i *)
    Grp 1 (seq [opt (seq [liti "limited"; plus ws]);
                alt [liti "lifetime"; liti "full"]; plus ws; warrantyOrGuarantee]);
    (* /(?:warranty|guarantee)[:\s]+([^.\n]{5,50})/i *)
    seq [warrantyOrGuarantee; plus (wsOr ":"); Grp 1 (upto 5 50 (noneOf ("." ++ nl)))];
    (* /(warranted? (?:for|against)[^.]{0,40})/i *)
    Grp 1 (seq [liti "warrante"; opt (liti "d"); liti " ";
                alt [liti "for"; liti "against"]; upto 0 40 (noneOf ".")]);
    (* /((?:manufacturer'?s?|factory)\s+(?:warranty|guarantee)[^.]{0,30})/i *)
    Grp 1 (seq [alt [seq [liti "manufacturer"; opt (liti "'"); opt (liti "s")];
                     liti "factory"];
                plus ws; warrantyOrGuarantee; upto 0 30 (noneOf ".")]) ].

(** [warrantyNegative]:
    [/no warranty|without warranty|warranty (?:not|does not)|void(?:s|ed)? (?:the\s+)?warranty/i]. *)
Definition warrantyNegative : re :=
  alt [ liti "no warranty";
        liti "without warranty";
        seq [liti "warranty "; alt [liti "not"; liti "does not"]];
        seq [liti "void"; opt (alt [liti "s"; liti "ed"]); liti " ";
             opt (seq [liti "the"; plus ws]); liti "warranty"] ].

(** The warranty slots of [details]. *)
Record Warranty : Type := {
  hasWarranty : bool;
  warrantyText : option string
}.

Definition noWarranty : Warranty := {| hasWarranty := false; warrantyText := None |}.

Definition found_ (t : string) : Warranty := {| hasWarranty := true; warrantyText := Some t |}.

(** [match[1] ? match[1].trim().substring(0, n) : match[0].trim().substring(0, n)]. *)
Definition capturedText (f : found) (n : nat) : string :=
  match getCap (groups f) 1 with
  | Some (c :: t) => Str.take n (string_of_list_ascii (Str.trimL (c :: t)))
  | _ => Str.take n (string_of_list_ascii (Str.trimL (whole f)))
  end.

(** [for (const pattern of patterns) { const match = text.match(pattern);
    if (match) { ...; break; } }]. *)
Fixpoint firstMatch (patterns : list re) (text : string) : option found :=
  match patterns with
  | [] => None
  | p :: r =>
      match exec p text with
      | Some f => Some f
      | None => firstMatch r text
      end
  end.

(** The page-text tier: the positive patterns run only when the negative
    pattern does not match the lower-cased text. *)
Definition warrantyFromText (text : string) : Warranty :=
  let lower := Str.toLowerCase text in
  if negb (test warrantyNegative lower) then
    match firstMatch warrantyPatterns text with
    | Some f => found_ (capturedText f 50)
    | None => noWarranty
    end
  else noWarranty.

Section Fallback.

(** The text of a value that is not a string ([String(v)]) and
    [JSON.stringify(v)]: how numbers and objects print does not matter
    here. *)
Variable jsString : value -> string.
Variable jsonStringify : value -> string.

Definition toStr (v : value) : string :=
  match v with VStr s => s | _ => jsString v end.

Definition formatSchemaValue (v : value) : string :=
  if negb (truthy v) then ""
  else match v with
       | VStr s => s
       | VNum _ => jsString v
       | _ =>
           match field v "value" with
           | VUndef => jsonStringify v
           | inner =>
               if truthy (field v "unitCode")
               then toStr inner ++ " " ++ toStr (field v "unitCode")
               else toStr inner
           end
       end.

(** [(Array.isArray(t) ? t[0] : t || '').toLowerCase()] for
    [t = item['@type']]. *)
Definition looseType (item : value) : res string :=
  match field item "@type" with
  | VArr l => match first l with VStr s => Ok (Str.toLowerCase s) | _ => TypeError end
  | t => match or t (VStr "") with VStr s => Ok (Str.toLowerCase s) | _ => TypeError end
  end.

Definition warrantyName : re := alt [liti "warranty"; liti "guarantee"].

(** The loop over [additionalProperty]; the flag says that a property
    threw, which ends the work on the block with the slots as they
    are. *)
Fixpoint propsLoop (props : list value) (w : Warranty) : Warranty * bool :=
  match props with
  | [] => (w, false)
  | p :: r =>
      match prop p "name" with
      | TypeError => (w, true)
      | Ok n =>
          match or n (VStr "") with
          | VStr s =>
              let name := Str.toLowerCase s in
              let value := toStr (or (field p "value") (VStr "")) in
              let w' :=
                if negb (hasWarranty w) && test warrantyName name
                then found_ (Str.take 50 value) else w in
              propsLoop r w'
          | _ => (w, true)
          end
      end
  end.

Definition itemStep (w : Warranty) (item : value) : Warranty * bool :=
  if negb (truthy item) then (w, false)
  else
    match looseType item with
    | TypeError => (w, true)
    | Ok type =>
        if String.eqb type "product" || String.eqb type "productgroup" then
          let w1 :=
            if negb (hasWarranty w) && truthy (field item "warranty")
            then found_ (Str.take 50 (formatSchemaValue (field item "warranty")))
            else w in
          match field item "additionalProperty" with
          | VArr props => propsLoop props w1
          | _ => (w1, false)
          end
        else (w, false)
    end.

Fixpoint itemsLoop (items : list value) (w : Warranty) : Warranty :=
  match items with
  | [] => w
  | i :: r =>
      let '(w', thrown) := itemStep w i in
      if thrown then w' else itemsLoop r w'
  end.

(** One script of [extractProductDetailsFromSchema]: everything it does
    is inside [try], so a text that does not parse and a throw alike
    leave the slots as they are at that point. *)
Definition blockStep (w : Warranty) (block : option value) : Warranty :=
  match block with
  | None => w
  | Some data =>
      match prop data "@graph" with
      | TypeError => w
      | Ok g =>
          if truthy g then
            match g with VArr items => itemsLoop items w | _ => w end
          else itemsLoop [data] w
      end
  end.

(** The warranty slots of [extractProductDetails(text)], the JSON-LD
    scripts of the page being [blocks]. *)
Definition extractProductDetails (text : string) (blocks : list (option value)) : Warranty :=
  List.fold_left blockStep blocks (warrantyFromText text).

End Fallback.

End Details.

(* ================================================================== *)
(** * Double-precision arithmetic                                       *)
(* ================================================================== *)

(** A number of the source language is an IEEE 754 binary64 value.  Every
    finite double is a rational, and each arithmetic operation returns
    the double nearest to the exact result, a tie going to the even
    mantissa.  [F64] gives the operations with this rounding, subnormal
    numbers included; a result beyond the largest double (an infinity in
    the source language) reads [NaN] here, as a division by zero does. *)
Module F64.

Import JS.
Local Open Scope Q_scope.

(** [2^e]. *)
Definition pow2 (e : Z) : Q := Qpower 2 e.

(** [floor(log2 q)] for [q > 0]. *)
Definition flog2 (q : Q) : Z :=
  let k := (Z.log2 (Qnum q) - Z.log2 (Z.pos (Qden q)))%Z in
  if Qle_bool (pow2 k) q then k else (k - 1)%Z.

(** The nearest integer, a tie going to the even one. *)
Definition rne (x : Q) : Z :=
  let f := Qfloor x in
  match Qcompare (x - inject_Z f) (1 # 2) with
  | Lt => f
  | Gt => (f + 1)%Z
  | Eq => if Z.even f then f else (f + 1)%Z
  end.

(** The exponent of the last place of a double of magnitude [a > 0]: 53
    bits of mantissa, and no exponent below that of the subnormal
    numbers. *)
Definition expo (a : Q) : Z := Z.max (flog2 a - 52) (-1074).

Definition rndPos (a : Q) : Q :=
  let e := expo a in inject_Z (rne (a / pow2 e)) * pow2 e.

(** The double nearest to [q]. *)
Definition rnd (q : Q) : Q :=
  if Qeq_bool q 0 then 0
  else if Qle_bool 0 q then rndPos q else - rndPos (- q).

(** The result of an operation whose exact value is [q]. *)
Definition mk (q : Q) : num :=
  let r := rnd q in
  if Qle_bool (pow2 1024) r || Qle_bool r (- pow2 1024) then NaN else Num (Qred r).

Definition add (a b : num) : num :=
  match a, b with
  | Num x, Num y => mk (x + y)
  | _, _ => NaN
  end.

Definition mul (a b : num) : num :=
  match a, b with
  | Num x, Num y => mk (x * y)
  | _, _ => NaN
  end.

Definition div (a b : num) : num :=
  match a, b with
  | Num x, Num y => if Qeq_bool y 0 then NaN else mk (x / y)
  | _, _ => NaN
  end.

(** The value of a decimal literal of the source: [0.23] is the double
    nearest to 23/100. *)
Definition lit (a : num) : num :=
  match a with
  | Num x => mk x
  | NaN => NaN
  end.

Definition dec (n d : Z) : num := lit (Weights.dec n d).

End F64.

(* ================================================================== *)
(** * scoring-engine.js in double-precision arithmetic                  *)
(* ================================================================== *)

(** The scoring engine once more, every addition, multiplication and
    division rounded as the source language rounds it, and every decimal
    literal read as the double it denotes.  [Math.round], [Math.min] and
    the comparisons are exact on doubles, and are those of [JS]; the
    records are those of [Scoring]. *)
Module Scoring64.

Import Scoring.
Import JS Val Weights Extraction.
Open Scope string_scope.
Open Scope Z_scope.

(** The arithmetic of the engine is that of doubles. *)
Definition add : num -> num -> num := F64.add.
Definition mul : num -> num -> num := F64.mul.
Definition div : num -> num -> num := F64.div.

(** A weight or multiplier read from a table of [weights.js], as the
    double its literal denotes. *)
Definition weightOf (t : table) (k : string) : num := F64.lit (toNum (get t k)).

(** [rawScore]: it starts at [0] and each factor's points are added to it
    as the factor is pushed. *)
Definition rawScore (fs : list Factor) : num :=
  List.fold_left (fun acc f => add acc (toNum (points f))) fs (ofZ 0).

Definition q (n d : Z) : num := F64.dec n d.

(** [x ? Math.round((x / 100) * w) : 0]. *)
Definition scaled (x w : num) : num :=
  if JS.truthy x then round (mul (div x (ofZ 100)) w) else ofZ 0.

Definition bpoints (b : bool) (w : num) : num := if b then w else ofZ 0.

Definition bstatus (b : bool) : status := if b then pass else fail.

Section Engine.

(** [new ScoringEngine(context)]. *)
Variable context : Weights.context.

Definition multipliers : table := CONTEXT_MULTIPLIERS context.

Definition mult (k : string) : num := weightOf multipliers k.

(** ** [scoreStructuredData] *)

Definition productFieldScore (p : Schema.Product) : num :=
  let pts (b : bool) (n : Z) := if b then ofZ n else ofZ 0 in
  add (add (add (add (add (add
    (pts (truthy (Schema.name p)) 6)
    (pts (truthy (Schema.description p)) 5))
    (pts (truthy (Schema.image p)) 5))
    (pts (Schema.hasOffer p) 5))
    (pts (truthy (Schema.brandName p)) 3))
    (pts (truthy (Schema.gtin p) || truthy (Schema.mpn p) || truthy (Schema.sku p)) 3))
    (pts (Schema.hasRating p) 3).

Definition scoreStructuredData (s : Schema.Schemas) : CategoryScore :=
  let w k := weightOf FW_structuredData k in
  let m k := get FW_structuredData k in
  let productScore :=
    match Schema.product s with
    | Some p => round (mul (div (productFieldScore p) (ofZ 30)) (w "productSchema"))
    | None => ofZ 0
    end in
  let productStatus :=
    match Schema.product s with
    | None => fail
    | Some _ =>
        if ge productScore (mul (w "productSchema") (q 8 10)) then pass
        else if ge productScore (mul (w "productSchema") (q 5 10)) then warning
        else fail
    end in
  let hasOffer := Schema.isSome (Schema.offer s) in
  let hasRating := Schema.isSome (Schema.aggregateRating s) in
  let hasReviews := negb (List.length (Schema.reviews s) =? 0)%nat in
  let hasFaq :=
    match Schema.faq s with
    | Some f => gt (toNumber (Schema.questionCount f)) (ofZ 0)
    | None => false
    end in
  let hasBreadcrumb := Schema.isSome (Schema.breadcrumb s) in
  let hasOrg := Schema.isSome (Schema.organization s) || Schema.isSome (Schema.brand s) in
  let hasImageSchema := negb (List.length (Schema.images s) =? 0)%nat in
  let fs :=
    [ mkFactor "Product Schema" productStatus productScore (m "productSchema") true false;
      mkFactor "Offer Schema" (bstatus hasOffer) (bpoints hasOffer (w "offerSchema"))
               (m "offerSchema") true false;
      mkFactor "AggregateRating Schema" (bstatus hasRating)
               (bpoints hasRating (w "aggregateRating")) (m "aggregateRating") false false;
      mkFactor "Review Schema" (bstatus hasReviews)
               (bpoints hasReviews (w "reviewSchema")) (m "reviewSchema") false false;
      mkFactor "FAQ Schema" (bstatus hasFaq)
               (bpoints hasFaq (w "faqSchema")) (m "faqSchema") false false;
      mkFactor "Breadcrumb Schema" (bstatus hasBreadcrumb)
               (bpoints hasBreadcrumb (w "breadcrumbSchema")) (m "breadcrumbSchema") false false;
      mkFactor "Organization/Brand Schema" (bstatus hasOrg)
               (bpoints hasOrg (w "organizationSchema")) (m "organizationSchema") false false;
      mkFactor "ImageObject Schema" (bstatus hasImageSchema)
               (bpoints hasImageSchema (w "imageSchema")) (m "imageSchema") false false ] in
  {| score := rawScore fs; factors := fs;
     weight := get CATEGORY_WEIGHTS "structuredData";
     categoryName := "Structured Data" |}.

(** ** [scoreProtocolMeta] *)

(** [/\.(jpe?g|png|gif)(\?|$)/]. *)
Definition validExtension : Regex.re :=
  Regex.seq [ Regex.lit ".";
              Regex.Grp 1 (Regex.alt [ Regex.seq [Regex.lit "jp"; Regex.opt (Regex.lit "e");
                                                  Regex.lit "g"];
                                       Regex.lit "png"; Regex.lit "gif" ]);
              Regex.Grp 2 (Regex.alt [Regex.lit "?"; Regex.Eos]) ].

(** The og:image format: status and points. *)
Definition imageFormat (ogImage : option string) (imageVerification : option ImageFormatFact)
  : status * num :=
  let w := weightOf FW_protocolMeta "ogImageFormat" in
  match imageVerification with
  | Some v =>
      if isWebP v then (fail, ofZ 0)
      else if isValidFormat v then (pass, w)
      else (warning, div w (ofZ 2))
  | None =>
      if present_str ogImage then
        let url := Str.toLowerCase (match ogImage with Some u => u | None => "" end) in
        if Str.endsWith url ".webp" || Str.includes url ".webp?" then (fail, ofZ 0)
        else if Regex.test validExtension url then (pass, w)
        else (unknown, ofZ 0)
      else (unknown, ofZ 0)
  end.

(** [present ? (optimal ? w : w * 0.7) : 0] with its status. *)
Definition graded (has optimal : bool) (w : num) : status * num :=
  if has then (if optimal then (pass, w) else (warning, mul w (q 7 10)))
  else (fail, ofZ 0).

Definition scoreProtocolMeta (data : MetaTags) (imageVerification : option ImageFormatFact)
  : CategoryScore :=
  let w k := weightOf FW_protocolMeta k in
  let m k := get FW_protocolMeta k in
  let og := openGraph data in
  let twitter := twitterCards data in
  let hasOgImage := present_str (ogImage og) in
  let fmt := imageFormat (ogImage og) imageVerification in
  let titleLength := len (ogTitle og) in
  let ogT := graded (present_str (ogTitle og))
                    (gt titleLength (ofZ 0) && le titleLength (ofZ 60)) (w "ogTitle") in
  let descLength := len (ogDescription og) in
  let ogD := graded (present_str (ogDescription og))
                    (ge descLength (ofZ 100) && le descLength (ofZ 200)) (w "ogDescription") in
  let isProductType :=
    match ogType og with
    | Some t => String.eqb t "product" || String.eqb t "og:product"
    | None => false
    end in
  let hasTwitterCard := present_str (card twitter) in
  let isLargeImage :=
    match card twitter with
    | Some c => String.eqb c "summary_large_image"
    | None => false
    end in
  let tw := graded hasTwitterCard isLargeImage (w "twitterCard") in
  let hasTwitterImage := present_str (twitterImage twitter) in
  let hasCanonical := present (canonical data) in
  let canonicalIsValid :=
    isTrue (matchesCurrentUrl (canonical data)) || isTrue (isProductCanonical (canonical data)) in
  let can := graded hasCanonical canonicalIsValid (w "canonical") in
  let hasMetaDesc := present_str (standardDescription data) in
  let metaDescLength := len (standardDescription data) in
  let md := graded hasMetaDesc
                   (ge metaDescLength (ofZ 120) && le metaDescLength (ofZ 160))
                   (w "metaDescription") in
  let isBlocked := robotsIsBlocked data in
  let fs :=
    [ mkFactor "og:image Present" (bstatus hasOgImage) (bpoints hasOgImage (w "ogImage"))
               (m "ogImage") true false;
      mkFactor "og:image Format" (fst fmt) (snd fmt) (m "ogImageFormat") true false;
      mkFactor "og:title" (fst ogT) (snd ogT) (m "ogTitle") false false;
      mkFactor "og:description" (fst ogD) (snd ogD) (m "ogDescription") false false;
      mkFactor "og:type = product" (bstatus isProductType)
               (bpoints isProductType (w "ogType")) (m "ogType") false false;
      mkFactor "Twitter Card" (fst tw) (snd tw) (m "twitterCard") false false;
      mkFactor "Twitter Image" (bstatus hasTwitterImage)
               (bpoints hasTwitterImage (w "twitterImage")) (m "twitterImage") false false;
      mkFactor "Canonical URL" (fst can) (snd can) (m "canonical") false false;
      mkFactor "Meta Description" (fst md) (snd md) (m "metaDescription") false false;
      mkFactor "Robots Allows Indexing" (bstatus (negb isBlocked))
               (bpoints (negb isBlocked) (w "robotsAllowsIndex")) (m "robotsAllowsIndex")
               isBlocked false ] in
  {| score := rawScore fs; factors := fs;
     weight := get CATEGORY_WEIGHTS "protocolMeta";
     categoryName := "Protocol & Meta Compliance" |}.

(** ** [scoreContentQuality] *)

(** [n || 0] and [n || 1.0]. *)
Definition orZero (n : num) : num := if JS.truthy n then n else ofZ 0.

Definition orOne (n : num) : num := if JS.truthy n then n else ofZ 1.

(** [count >= hi ? pass : count >= lo ? warning : fail]. *)
Definition byCount (n hi lo : num) : status :=
  if ge n hi then pass else if ge n lo then warning else fail.

(** A contextual factor that is clamped to its maximum:
    [Math.min(w, Math.round(base * multiplier))]. *)
Definition clamped (base mul_ w : num) : num := min w (round (mul base mul_)).

Definition scoreContentQuality (data : ContentQuality) (aiSignals : option AnswerFormat)
  : CategoryScore :=
  let w k := weightOf FW_contentQuality k in
  let m k := get FW_contentQuality k in
  let desc := description data in
  let specs := specifications data in
  let details := productDetails data in
  let wordCount := orZero (wordCount desc) in
  let descScore := scaled (lengthScore desc) (w "descriptionLength") in
  let half := div (w "descriptionQuality") (ofZ 2) in
  let dq0 := ofZ 0 in
  let dq1 :=
    if hasBenefitStatements desc || hasEmotionalLanguage desc
    then add dq0 (mul half (mult "emotionalBenefitCopy")) else dq0 in
  let dq2 :=
    if hasTechnicalTerms desc
    then add dq1 (mul half (mult "technicalSpecifications")) else dq1 in
  let descQualityScore := min (w "descriptionQuality") (round dq2) in
  let specCount := orZero (specCount specs) in
  let specScore0 := scaled (specCountScore specs) (w "specificationCount") in
  let specScore1 := round (mul specScore0 (mult "technicalSpecifications")) in
  let specScore := min (mul (w "specificationCount") (q 15 10)) specScore1 in
  let featureCount := orZero (count (features data)) in
  let faqCount := orZero (count (faq data)) in
  let dim0 := bpoints (hasDimensions details) (w "dimensions") in
  let dimensionsScore :=
    match context with
    | need => round (mul dim0 (q 13 10))
    | _ => dim0
    end in
  let isNeed := match context with need => true | _ => false end in
  let warrantyScore :=
    round (mul (bpoints (hasWarranty details) (w "warrantyInfo")) (mult "warrantyInfo")) in
  let compatScore :=
    round (mul (bpoints (hasCompatibility details) (w "compatibilityInfo"))
               (mult "compatibilityInfo")) in
  let nItems := List.length (specItems specs) in
  let specsWithUnits := List.length (List.filter (fun b => b) (specItems specs)) in
  let specDetailRatio :=
    if (0 <? nItems)%nat
    then div (ofZ (Z.of_nat specsWithUnits)) (ofZ (Z.of_nat nItems)) else ofZ 0 in
  let specDetailScore :=
    if ge specDetailRatio (q 3 10) then w "specificationDetail"
    else if gt specDetailRatio (ofZ 0) then round (mul (w "specificationDetail") (q 5 10))
    else ofZ 0 in
  let specDetailStatus :=
    if ge specDetailRatio (q 3 10) then pass
    else if gt specDetailRatio (ofZ 0) then warning else fail in
  let hasComparison :=
    match aiSignals with Some a => hasComparison a | None => false end in
  let comparisonScore :=
    min (w "comparisonContent")
        (round (mul (bpoints hasComparison (w "comparisonContent"))
                    (orOne (mult "comparisonContent")))) in
  let fs :=
    [ mkFactor "Description Length" (byCount wordCount (ofZ 100) (ofZ 50)) descScore
               (m "descriptionLength") false false;
      mkFactor "Description Quality"
               (if ge descQualityScore (mul (w "descriptionQuality") (q 7 10))
                then pass else warning)
               descQualityScore (m "descriptionQuality") false true;
      mkFactor "Specifications" (byCount specCount (ofZ 5) (ofZ 3))
               (min (w "specificationCount") specScore) (m "specificationCount") false true;
      mkFactor "Features List" (byCount featureCount (ofZ 5) (ofZ 3))
               (scaled (countScore (features data)) (w "featureCount"))
               (m "featureCount") false false;
      mkFactor "FAQ Section"
               (if ge faqCount (ofZ 3) then pass
                else if gt faqCount (ofZ 0) then warning else fail)
               (scaled (countScore (faq data)) (w "faqPresence")) (m "faqPresence") false false;
      mkFactor "Dimensions/Size" (bstatus (hasDimensions details))
               (min (w "dimensions") dimensionsScore) (m "dimensions") false isNeed;
      mkFactor "Materials" (bstatus (hasMaterials details))
               (bpoints (hasMaterials details) (w "materials")) (m "materials") false false;
      mkFactor "Care Instructions" (bstatus (hasCareInstructions details))
               (bpoints (hasCareInstructions details) (w "careInstructions"))
               (m "careInstructions") false false;
      mkFactor "Warranty Information" (bstatus (hasWarranty details))
               (min (w "warrantyInfo") warrantyScore) (m "warrantyInfo") false true;
      mkFactor "Compatibility Information" (bstatus (hasCompatibility details))
               (min (w "compatibilityInfo") compatScore) (m "compatibilityInfo") false true;
      mkFactor "Specification Detail" specDetailStatus specDetailScore
               (m "specificationDetail") false true;
      mkFactor "Comparison Content" (bstatus hasComparison) comparisonScore
               (m "comparisonContent") false true ] in
  {| score := min (ofZ 100) (rawScore fs); factors := fs;
     weight := get CATEGORY_WEIGHTS "contentQuality";
     categoryName := "Content Depth & Quality" |}.

(** ** [scoreContentStructure] *)

Definition scoreContentStructure (data : ContentStructure) (readabilityRaw : option num)
  : CategoryScore :=
  let w k := weightOf FW_contentStructure k in
  let m k := get FW_contentStructure k in
  let h := headings data in
  let h1Score :=
    if hasSingleH1 h then w "h1Presence"
    else if hasH1 h then mul (w "h1Presence") (q 5 10) else ofZ 0 in
  let h1Status :=
    if hasSingleH1 h then pass else if hasH1 h then warning else fail in
  let hierarchyScore :=
    if hierarchyValid h then w "headingHierarchy"
    else mul (w "headingHierarchy") (q 5 10) in
  let primaryHasAlt := match primaryImage data with Some b => b | None => false end in
  let altCov := orZero (altCoverage data) in
  let readability :=
    match readabilityRaw with
    | Some raw =>
        (round (mul (div raw (ofZ 100)) (w "readability")),
         if ge raw (ofZ 60) then pass else if ge raw (ofZ 40) then warning else fail)
    | None => (ofZ 0, fail)
    end in
  let jsPoints :=
    if JS.truthy (jsScore data)
    then round (mul (div (jsScore data) (ofZ 100)) (w "jsDependency"))
    else w "jsDependency" in
  let fs :=
    [ mkFactor "H1 Heading" h1Status h1Score (m "h1Presence") false false;
      mkFactor "Heading Hierarchy" (if hierarchyValid h then pass else warning)
               hierarchyScore (m "headingHierarchy") false false;
      mkFactor "Semantic HTML"
               (if hasMain data then pass else if hasArticle data then warning else fail)
               (scaled (semanticScore data) (w "semanticHTML")) (m "semanticHTML") false false;
      mkFactor "Content-to-Chrome Ratio" (byCount (ratio data) (q 5 10) (q 3 10))
               (scaled (ratioScore data) (w "contentRatio")) (m "contentRatio") false false;
      mkFactor "Table Structure"
               (if hasProperTables data then pass
                else if gt (tableCount data) (ofZ 0) then warning else fail)
               (scaled (tableScore data) (w "tableStructure")) (m "tableStructure") false false;
      mkFactor "List Structure" (bstatus (hasProperLists data))
               (scaled (listScore data) (w "listStructure")) (m "listStructure") false false;
      mkFactor "ARIA Labels" (bstatus (gt (ariaLabels data) (ofZ 0)))
               (bpoints (gt (ariaLabels data) (ofZ 0)) (w "ariaLabels"))
               (m "ariaLabels") false false;
      mkFactor "Primary Image Alt Text" (bstatus primaryHasAlt)
               (bpoints primaryHasAlt (w "primaryImageAlt")) (m "primaryImageAlt") false false;
      mkFactor "Image Alt Coverage" (byCount altCov (q 9 10) (q 5 10))
               (round (mul altCov (w "allImagesAlt"))) (m "allImagesAlt") false false;
      mkFactor "Readability" (snd readability) (fst readability) (m "readability") false false;
      mkFactor "JavaScript Dependency"
               (if String.eqb (dependencyLevel data) "low" then pass
                else if String.eqb (dependencyLevel data) "medium" then warning else fail)
               jsPoints (m "jsDependency") false false ] in
  {| score := min (ofZ 100) (rawScore fs); factors := fs;
     weight := get CATEGORY_WEIGHTS "contentStructure";
     categoryName := "Content Structure & Accessibility" |}.

(** ** [scoreAuthorityTrust] *)

Definition ratingAtLeast (r : option num) (bound : num) : bool :=
  match r with
  | Some n => ge n bound
  | None => ge (ofZ 0) bound      (* [null >= bound] *)
  end.

Definition scoreAuthorityTrust (data : TrustSignals) : CategoryScore :=
  let w k := weightOf FW_authorityTrust k in
  let m k := get FW_authorityTrust k in
  let rv := reviews data in
  let reviewCountScore :=
    round (mul (scaled (reviewCountScore rv) (w "reviewCount")) (mult "reviewCount")) in
  let ratingScore :=
    round (mul (scaled (ratingScore rv) (w "averageRating")) (mult "reviewRating")) in
  let recency :=
    match hasRecentReviews rv with
    | Some true => (w "reviewRecency", pass)
    | Some false => (round (mul (w "reviewRecency") (q 5 10)), warning)
    | None => (ofZ 0, fail)
    end in
  let avgLength := orZero (averageReviewLength rv) in
  let reviewsAnalyzed := orZero (reviewsAnalyzed rv) in
  let depth :=
    if gt reviewsAnalyzed (ofZ 0)
    then (scaled (depthScore rv) (w "reviewDepth"), byCount avgLength (ofZ 100) (ofZ 50))
    else (ofZ 0, fail) in
  let b := brand data in
  let certScore :=
    round (mul (scaled (certScore data) (w "certifications")) (mult "certifications")) in
  let hasAwards := gt (awardCount data) (ofZ 0) in
  let fs :=
    [ mkFactor "Review Count" (byCount (reviewCount rv) (ofZ 50) (ofZ 10))
               (min (mul (w "reviewCount") (q 15 10)) reviewCountScore)
               (m "reviewCount") false true;
      mkFactor "Average Rating"
               (if ratingAtLeast (averageRating rv) (ofZ 4) then pass
                else if ratingAtLeast (averageRating rv) (q 35 10) then warning else fail)
               (min (w "averageRating") ratingScore) (m "averageRating") false true;
      mkFactor "Review Recency" (snd recency) (fst recency) (m "reviewRecency") false false;
      mkFactor "Review Depth" (snd depth) (fst depth) (m "reviewDepth") false false;
      mkFactor "Brand Clarity"
               (if String.eqb (clarity b) "excellent" then pass
                else if String.eqb (clarity b) "good" then warning else fail)
               (scaled (brandScore b) (w "brandClarity")) (m "brandClarity") false false;
      mkFactor "Certifications" (bstatus (gt (certCount data) (ofZ 0)))
               (min (w "certifications") certScore) (m "certifications") false true;
      mkFactor "Awards" (bstatus hasAwards) (bpoints hasAwards (w "awards"))
               (m "awards") false false ] in
  {| score := min (ofZ 100) (rawScore fs); factors := fs;
     weight := get CATEGORY_WEIGHTS "authorityTrust";
     categoryName := "Authority & Trust Signals" |}.

(** ** [scoreAIDiscoverability] and its factors *)

(** What each factor scorer returns: [{ score, factor }]. *)
Definition scored (n : string) (st : status) (sc m : numU) (crit : bool) : numU * Factor :=
  (sc, mkFactor n st sc m crit false).

(** [scoreAICrawlerAccess(robotsData, maxPoints)]. *)
Definition scoreAICrawlerAccess (robotsData : RobotsFact) (maxPoints : numU) : numU * Factor :=
  let mp := toNum maxPoints in
  let '(st, sc) :=
    match accessible robotsData with
    | Some false =>
        if present_str (error robotsData)
        then (warning, Number (mul mp (q 5 10)))
        else (pass, maxPoints)
    | Some true =>
        let blockedCount := Z.of_nat (List.length (blockedCrawlers robotsData)) in
        let allowedCount := Z.of_nat (List.length (allowedCrawlers robotsData)) in
        let totalMajor := blockedCount + allowedCount in
        if blockedCount =? 0 then (pass, maxPoints)
        else if blockedCount <? totalMajor
        then (warning, Number (round (mul mp (div (ofZ allowedCount) (ofZ totalMajor)))))
        else (fail, Number (ofZ 0))
    | None => (unknown, Number (ofZ 0))
    end in
  scored "AI Crawler Access" st sc maxPoints
         (match st with fail => true | _ => false end).

(** One surface against the product name: both lower-cased and trimmed,
    equal or one containing the other. *)
Definition aligned (nameLower : string) (surface : option string) : bool :=
  match surface with
  | Some t =>
      Str.nonEmpty t &&
      (let l := Str.trim (Str.toLowerCase t) in
       String.eqb l nameLower || Str.includes l nameLower || Str.includes nameLower l)
  | None => false
  end.

(** The meta description against the product name: it contains the name,
    or at least [ceil(0.6 * n)] of the name's [n] words longer than two
    characters. *)
Definition alignedMeta (nameLower : string) (metaDesc : option string) : bool :=
  match metaDesc with
  | Some t =>
      Str.nonEmpty t &&
      (let metaLower := Str.toLowerCase t in
       let nameWords :=
         List.filter (fun wd => (2 <? String.length wd)%nat) (Str.splitWs nameLower) in
       let matchedWords := List.filter (fun wd => Str.includes metaLower wd) nameWords in
       Str.includes metaLower nameLower ||
       ge (ofZ (Z.of_nat (List.length matchedWords)))
          (ceil (mul (ofZ (Z.of_nat (List.length nameWords))) (q 6 10))))
  | None => false
  end.

Definition b2z (b : bool) : Z := if b then 1 else 0.

(** The number of surfaces, of the four, the name aligns with. *)
Definition entityMatches (d : ExtractedData) (nameLower : string) : Z :=
  b2z (aligned nameLower (List.hd_error (h1Texts (headings (contentStructure d)))))
  + b2z (aligned nameLower (ogTitle (openGraph (metaTags d))))
  + b2z (alignedMeta nameLower (standardDescription (metaTags d)))
  + b2z (aligned nameLower (pageTitle d)).

Definition entityStatus (matches : Z) : status :=
  if 3 <=? matches then pass else if 2 <=? matches then warning else fail.

(** [scoreEntityConsistency(extractedData, maxPoints)]; [toLowerCase] is
    a method of strings only. *)
Definition scoreEntityConsistency (d : ExtractedData) (maxPoints : numU) : res (numU * Factor) :=
  let productName :=
    match Schema.product (schemas d) with
    | Some p => Schema.name p
    | None => VUndef
    end in
  if negb (truthy productName) then
    Ok (scored "Entity Consistency" fail (Number (ofZ 0)) maxPoints false)
  else
    match productName with
    | VStr n =>
        let nameLower := Str.trim (Str.toLowerCase n) in
        let pointsPerLocation := div (toNum maxPoints) (ofZ 4) in
        let matches := entityMatches d nameLower in
        let sc := round (mul (ofZ matches) pointsPerLocation) in
        Ok (scored "Entity Consistency" (entityStatus matches) (Number sc) maxPoints false)
    | _ => TypeError
    end.

(** [scoreAnswerFormatContent(extractedData, maxPoints)]. *)
Definition scoreAnswerFormatContent (d : ExtractedData) (maxPoints : numU) : numU * Factor :=
  match answerFormat d with
  | None => scored "Answer-Format Content" fail (Number (ofZ 0)) maxPoints false
  | Some a =>
      let signals :=
        b2z (gt (bestForCount a) (ofZ 0)) + b2z (hasComparison a)
        + b2z (hasHowTo a) + b2z (gt (useCaseCount a) (ofZ 0)) in
      let sc := round (mul (div (ofZ signals) (ofZ 4)) (toNum maxPoints)) in
      let st := if 3 <=? signals then pass else if 1 <=? signals then warning else fail in
      scored "Answer-Format Content" st (Number sc) maxPoints false
  end.

(** [scoreProductIdentifiers(extractedData, maxPoints)]. *)
Definition scoreProductIdentifiers (d : ExtractedData) (maxPoints : numU) : numU * Factor :=
  match Schema.product (schemas d) with
  | None => scored "Product Identifiers" fail (Number (ofZ 0)) maxPoints false
  | Some p =>
      let n := b2z (truthy (Schema.gtin p)) + b2z (truthy (Schema.mpn p))
               + b2z (truthy (Schema.sku p)) in
      let sc :=
        if 2 <=? n then maxPoints
        else if n =? 1 then Number (round (mul (toNum maxPoints) (q 5 10)))
        else Number (ofZ 0) in
      let st := if 2 <=? n then pass else if n =? 1 then warning else fail in
      scored "Product Identifiers" st sc maxPoints false
  end.

(** [scoreLlmsTxt(llmsData, maxPoints)]. *)
Definition scoreLlmsTxt (llmsData : LlmsTxtFact) (maxPoints : numU) : numU * Factor :=
  let '(st, sc) :=
    if found llmsData then
      if llmsTxtFound llmsData then (pass, maxPoints)
      else if llmsFullTxtFound llmsData
      then (pass, Number (round (mul (toNum maxPoints) (q 8 10))))
      else (fail, Number (ofZ 0))
    else (fail, Number (ofZ 0)) in
  scored "llms.txt Presence" st sc maxPoints false.

Definition scoreAIDiscoverability (d : ExtractedData) (networkData : option NetworkData)
  : res CategoryScore :=
  let m k := get FW_aiDiscoverability k in
  let robots := match networkData with Some n => robots n | None => noRobots end in
  let llms := match networkData with Some n => llms n | None => noLlms end in
  let crawlerResult := scoreAICrawlerAccess robots (m "aiCrawlerAccess") in
  entityResult <- scoreEntityConsistency d (m "entityConsistency") ;;
  let answerResult := scoreAnswerFormatContent d (m "answerFormatContent") in
  let identResult := scoreProductIdentifiers d (m "productIdentifiers") in
  let llmsResult := scoreLlmsTxt llms (m "llmsTxtPresence") in
  let fs := [ snd crawlerResult; snd entityResult; snd answerResult;
              snd identResult; snd llmsResult ] in
  Ok {| score := min (ofZ 100) (rawScore fs); factors := fs;
        weight := get CATEGORY_WEIGHTS "aiDiscoverability";
        categoryName := "AI Discoverability" |}.

(** ** [calculateScore] *)

(** The weighted sum of [calculateScore], in source order, looking the
    weights up in [CATEGORY_WEIGHTS]. *)
Definition weightedSum (c : CategoryScores) : num :=
  let cw k := weightOf CATEGORY_WEIGHTS k in
  add (add (add (add (add
    (mul (score (structuredData c)) (cw "structuredData"))
    (mul (score (protocolMeta c)) (cw "protocolMeta")))
    (mul (score (Scoring.contentQuality c)) (cw "contentQuality")))
    (mul (score (Scoring.contentStructure c)) (cw "contentStructure")))
    (mul (score (authorityTrust c)) (cw "authorityTrust")))
    (mul (score (aiDiscoverability c)) (cw "aiDiscoverability")).

Definition calculateScore (extractedData : ExtractedData)
    (imageVerification : option ImageFormatFact)
    (aiDiscoverabilityData : option NetworkData) : res ScoreResult :=
  ai <- scoreAIDiscoverability extractedData aiDiscoverabilityData ;;
  let cs := {|
    structuredData := scoreStructuredData (schemas extractedData);
    protocolMeta := scoreProtocolMeta (metaTags extractedData) imageVerification;
    Scoring.contentQuality :=
      scoreContentQuality (Extraction.contentQuality extractedData) (answerFormat extractedData);
    Scoring.contentStructure :=
      scoreContentStructure (Extraction.contentStructure extractedData)
                            (readabilityScore (Extraction.contentQuality extractedData));
    authorityTrust := scoreAuthorityTrust (trustSignals extractedData);
    aiDiscoverability := ai |} in
  let total := round (weightedSum cs) in
  Ok {| totalScore := total;
        Scoring.grade := getGrade total;
        context_ := context;
        categoryScores := cs;
        jsDependent :=
          String.eqb (dependencyLevel (Extraction.contentStructure extractedData)) "high" |}.

End Engine.

End Scoring64.

(* ================================================================== *)
(** * service-worker.js: robots.txt                                     *)
(* ================================================================== *)

Module Worker.

Import JS Val.
Open Scope string_scope.
Open Scope list_scope.

(** [s.split(sep)] for a separator of one character. *)
Fixpoint splitAux (sep : ascii) (l cur : list ascii) : list string :=
  match l with
  | [] => [string_of_list_ascii (rev cur)]
  | c :: r =>
      if Ascii.eqb c sep then string_of_list_ascii (rev cur) :: splitAux sep r []
      else splitAux sep r (c :: cur)
  end.

Definition split (s : string) (sep : ascii) : list string :=
  splitAux sep (list_ascii_of_string s) [].

Fixpoint drop (n : nat) (s : string) : string :=
  match n, s with
  | O, _ => s
  | S n', String _ r => drop n' r
  | S _, EmptyString => EmptyString
  end.

(** [s.replace(pat, rep)] for a pattern that is a non-empty string: the
    first occurrence is replaced. *)
Fixpoint replace (s pat rep : string) : string :=
  if Str.startsWith s pat then (rep ++ drop (String.length pat) s)%string
  else match s with
       | EmptyString => EmptyString
       | String c r => String c (replace r pat rep)
       end.

Definition newline : ascii := ascii_of_nat 10.

(** [MAJOR_AI_CRAWLERS]. *)
Definition MAJOR_AI_CRAWLERS : list string :=
  [ "gptbot"; "chatgpt-user"; "oai-searchbot"; "claudebot"; "claude-web";
    "anthropic-ai"; "perplexitybot"; "google-extended"; "applebot-extended";
    "meta-externalagent"; "bytespider"; "cohere-ai"; "youbot"; "amazonbot" ].

(** ** [parseRobotsTxt] *)

(** The rules of one user agent: [{ disallow: [], allow: [] }]. *)
Record Rules : Type := {
  disallow : list string;
  allow : list string
}.

(** [crawlerRules]: the own properties of the object.  It is an object
    literal, so reading a key it does not own finds what
    [Object.prototype] has under that name; of the names a lower-cased
    text can be, these are [constructor] and [__proto__]. *)
Definition RuleMap : Type := list (string * Rules).

Inductive slot : Type :=
| Own (r : Rules)
| Inherited
| Absent.

Definition inherited (k : string) : bool :=
  String.eqb k "constructor" || String.eqb k "__proto__".

Fixpoint own (m : RuleMap) (k : string) : option Rules :=
  match m with
  | [] => None
  | (k', r) :: t => if String.eqb k k' then Some r else own t k
  end.

Definition lookup (m : RuleMap) (k : string) : slot :=
  match own m k with
  | Some r => Own r
  | None => if inherited k then Inherited else Absent
  end.

(** [crawlerRules[k].disallow.push(path)] and the like: the object under
    [k] is changed in place. *)
Fixpoint update (m : RuleMap) (k : string) (f : Rules -> Rules) : RuleMap :=
  match m with
  | [] => []
  | (k', r) :: t => if String.eqb k k' then (k', f r) :: t else (k', r) :: update t k f
  end.

Definition pushDisallow (path : string) (r : Rules) : Rules :=
  {| disallow := disallow r ++ [path]; allow := allow r |}.

Definition pushAllow (path : string) (r : Rules) : Rules :=
  {| disallow := disallow r; allow := allow r ++ [path] |}.

(** [path === '/' || path === '/*']. *)
Definition wholeSite (path : string) : bool :=
  String.eqb path "/" || String.eqb path "/*".

(** The variables of the loop over the lines. *)
Record State : Type := {
  rules : RuleMap;
  currentAgent : option string;                 (* [null] at first *)
  wildcard : bool                               (* [hasWildcardDisallowAll] *)
}.

Definition start : State := {| rules := []; currentAgent := None; wildcard := false |}.

(** One turn of the loop; a [TypeError] is thrown by [.push] on the
    [disallow] or [allow] of an inherited value, which has none. *)
Definition lineStep (st : State) (line : string) : res State :=
  let trimmed := Str.toLowerCase (Str.trim line) in
  if Str.startsWith trimmed "#" || String.eqb trimmed "" then Ok st
  else if Str.startsWith trimmed "user-agent:" then
    let agent := Str.trim (replace trimmed "user-agent:" "") in
    Ok {| rules := match lookup (rules st) agent with
                   | Absent => rules st ++ [(agent, {| disallow := []; allow := [] |})]
                   | _ => rules st
                   end;
          currentAgent := Some agent;
          wildcard := wildcard st |}
  else
    match currentAgent st with
    | Some agent =>
        if Str.nonEmpty agent then
          if Str.startsWith trimmed "disallow:" then
            let path := Str.trim (replace trimmed "disallow:" "") in
            match lookup (rules st) agent with
            | Own _ =>
                Ok {| rules := update (rules st) agent (pushDisallow path);
                      currentAgent := currentAgent st;
                      wildcard := wildcard st || (String.eqb agent "*" && wholeSite path) |}
            | _ => TypeError
            end
          else if Str.startsWith trimmed "allow:" then
            let path := Str.trim (replace trimmed "allow:" "") in
            match lookup (rules st) agent with
            | Own _ =>
                Ok {| rules := update (rules st) agent (pushAllow path);
                      currentAgent := currentAgent st;
                      wildcard := wildcard st |}
            | _ => TypeError
            end
          else Ok st
        else Ok st
    | None => Ok st
    end.

(** Whether the second loop pushes the crawler to [blockedCrawlers]. *)
Definition blocks (m : RuleMap) (wild : bool) (crawler : string) : res bool :=
  match lookup m (Str.toLowerCase crawler) with
  | Own r => Ok (existsb wholeSite (disallow r) && negb (existsb wholeSite (allow r)))
  | Inherited => TypeError
  | Absent => Ok wild
  end.

(** The second loop: each crawler goes to one of the two lists. *)
Fixpoint sortCrawlers (m : RuleMap) (wild : bool) (crawlers : list string)
  : res (list string * list string) :=
  match crawlers with
  | [] => Ok ([], [])
  | c :: r =>
      b <- blocks m wild c ;;
      rest <- sortCrawlers m wild r ;;
      Ok (if b then (c :: fst rest, snd rest) else (fst rest, c :: snd rest))
  end.

(** What [parseRobotsTxt] returns ([accessible] is [true]). *)
Record Parsed : Type := {
  crawlerRules : RuleMap;
  blockedCrawlers : list string;
  allowedCrawlers : list string;
  hasWildcardDisallowAll : bool
}.

Definition parseLines (lines : list string) : res State := foldM lineStep lines start.

Definition parseRobotsTxt (content : string) : res Parsed :=
  st <- parseLines (split content newline) ;;
  lists <- sortCrawlers (rules st) (wildcard st) MAJOR_AI_CRAWLERS ;;
  Ok {| crawlerRules := rules st;
        blockedCrawlers := fst lists;
        allowedCrawlers := snd lists;
        hasWildcardDisallowAll := wildcard st |}.

(** ** [fetchRobotsTxt] *)

(** What the network gives [fetchRobotsTxt]: no usable [baseUrl]; a
    rejection ([new URL], [fetch] or [response.text()] throws) with its
    message; a response that is not [ok]; or the text of the file. *)
Inductive Fetched : Type :=
| NoBaseUrl
| Rejected (message : string)
| NotOk
| Content (content : string).

(** The fact [fetchRobotsTxt] resolves to.  The parser runs inside the
    [try]: when it throws, the [catch] reports the message of the
    [TypeError], which is [thrown]. *)
Definition fetchRobotsTxt (thrown : string) (o : Fetched) : Extraction.RobotsFact :=
  let failed (m : string) :=
    {| Extraction.accessible := Some false; Extraction.error := Some m;
       Extraction.blockedCrawlers := []; Extraction.allowedCrawlers := [] |} in
  match o with
  | NoBaseUrl => failed "Invalid or missing baseUrl"
  | Rejected m => failed m
  | NotOk =>
      {| Extraction.accessible := Some false; Extraction.error := None;
         Extraction.blockedCrawlers := [];
         Extraction.allowedCrawlers := MAJOR_AI_CRAWLERS |}
  | Content c =>
      match parseRobotsTxt c with
      | Ok p =>
          {| Extraction.accessible := Some true; Extraction.error := None;
             Extraction.blockedCrawlers := blockedCrawlers p;
             Extraction.allowedCrawlers := allowedCrawlers p |}
      | TypeError => failed thrown
      end
  end.

End Worker.

(* ================================================================== *)
(** * Properties                                                       *)
(* ================================================================== *)

(** The innermost case distinction of the goal is split. *)
Ltac split_case :=
  match goal with
  | |- context [match ?x with _ => _ end] =>
      lazymatch x with
      | context [match _ with _ => _ end] => fail
      | _ => destruct x
      end
  end.

(* ================================================================== *)
(** * Facts about numbers                                               *)
(* ================================================================== *)

Module JSFacts.

Import JS.
Local Open Scope Q_scope.

Lemma roundQ_comp (x y : Q) : x == y -> roundQ x = roundQ y.
Proof. intros H. unfold roundQ. apply Qfloor_comp. now rewrite H. Qed.

Lemma roundQ_red (x : Q) : roundQ (Qred x) = roundQ x.
Proof. apply roundQ_comp, Qred_correct. Qed.

(** [Math.round] is the integer [z] with [z - 1/2 <= x < z + 1/2]. *)
Lemma roundQ_spec (x : Q) :
  inject_Z (roundQ x) - (1 # 2) <= x /\ x < inject_Z (roundQ x) + (1 # 2).
Proof.
  unfold roundQ.
  pose proof (Qfloor_le (x + (1 # 2))) as H1.
  pose proof (Qlt_floor (x + (1 # 2))) as H2.
  rewrite inject_Z_plus in H2. change (inject_Z 1) with 1 in H2.
  split; lra.
Qed.

Lemma roundQ_Z (z : Z) : roundQ (inject_Z z) = z.
Proof.
  unfold roundQ.
  assert (H : (z <= Qfloor (inject_Z z + (1 # 2)) < z + 1)%Z).
  { split.
    - rewrite <- (Qfloor_Z z) at 1. apply Qfloor_resp_le. lra.
    - apply Z.lt_succ_r. unfold Z.succ.
      pose proof (Qfloor_le (inject_Z z + (1 # 2))) as H1.
      assert (H2 : inject_Z (Qfloor (inject_Z z + (1 # 2))) < inject_Z (z + 1)).
      { rewrite inject_Z_plus. change (inject_Z 1) with 1. lra. }
      rewrite <- Zlt_Qlt in H2. lia. }
  lia.
Qed.

Lemma roundQ_nonneg (x : Q) : 0 <= x -> (0 <= roundQ x)%Z.
Proof.
  intros H. unfold roundQ. change 0%Z with (Qfloor 0).
  apply Qfloor_resp_le. lra.
Qed.

Lemma roundQ_le (x : Q) (z : Z) : x <= inject_Z z -> (roundQ x <= z)%Z.
Proof.
  intros H. rewrite <- (roundQ_Z z). unfold roundQ.
  apply Qfloor_resp_le. lra.
Qed.

Lemma roundQ_mono (x y : Q) : x <= y -> (roundQ x <= roundQ y)%Z.
Proof. intros H. unfold roundQ. apply Qfloor_resp_le. lra. Qed.

Lemma Qeq_bool_false (x y : Q) : Qeq_bool x y = false -> ~ x == y.
Proof. intros H E. apply Qeq_bool_iff in E. congruence. Qed.

Lemma Qle_bool_false (x y : Q) : Qle_bool x y = false -> y < x.
Proof.
  intros H. apply Qnot_le_lt. intros E. apply Qle_bool_iff in E. congruence.
Qed.


(** [Math.round(x * y)] and [Math.round(x * (y / z))] on numbers. *)
Lemma round_mul (x y : Q) : round (mul (Num x) (Num y)) = ofZ (roundQ (x * y)).
Proof. unfold mul, mk, round. now rewrite roundQ_red. Qed.


Lemma round_mk_mul (x y : Q) : round (mul (mk x) (Num y)) = ofZ (roundQ (x * y)).
Proof.
  unfold mul, mk, round. rewrite roundQ_red. f_equal. apply roundQ_comp.
  now rewrite Qred_correct.
Qed.

Lemma Qceiling_le_Z (x : Q) (z : Z) : (Qceiling x <= z)%Z <-> x <= inject_Z z.
Proof.
  split; intros H.
  - apply Qle_trans with (inject_Z (Qceiling x)); [apply Qle_ceiling|].
    now rewrite <- Zle_Qle.
  - rewrite <- (Qceiling_Z z). now apply Qceiling_resp_le.
Qed.

Lemma inject_Z_nonzero (z : Z) : (z <> 0)%Z -> ~ inject_Z z == 0.
Proof. intros H E. apply (inject_Z_injective z 0) in E. contradiction. Qed.

End JSFacts.


Module StrFacts.
Import Str.
Open Scope string_scope.

Lemma startsWith_spec (s p : string) :
  startsWith s p = true <-> exists post, s = p ++ post.
Proof.
  revert s. induction p as [|a p IH]; intros s; cbn.
  - split; [intros _; now exists s|intros _; now destruct s].
  - destruct s as [|b s]; cbn.
    + split; [discriminate|intros [post H]; discriminate].
    + rewrite andb_true_iff, IH. split.
      * intros [E [post ->]]. apply Ascii.eqb_eq in E. subst. now exists post.
      * intros [post H]. injection H as -> ->. split; [apply Ascii.eqb_refl|now exists post].
Qed.

Lemma includes_spec (s p : string) :
  includes s p = true <-> exists pre post, s = pre ++ p ++ post.
Proof.
  induction s as [|c s IH]; cbn [includes]; rewrite orb_true_iff, startsWith_spec.
  - split.
    + intros [[post H]|H]; [|discriminate]. exists "", post. exact H.
    + intros (pre & post & H). left. destruct pre; cbn in H; [now exists post|discriminate].
  - rewrite IH. split.
    + intros [[post H]|(pre & post & H)].
      * exists "", post. exact H.
      * exists (String c pre), post. cbn. now rewrite H.
    + intros (pre & post & H). destruct pre as [|d pre]; cbn in H.
      * left. now exists post.
      * right. injection H as -> ->. now exists pre, post.
Qed.

Lemma endsWith_spec (s p : string) :
  endsWith s p = true <-> exists pre, s = pre ++ p.
Proof.
  induction s as [|c s IH]; cbn [endsWith]; rewrite orb_true_iff, String.eqb_eq.
  - split.
    + intros [H|H]; [|discriminate]. now exists "".
    + intros (pre & H). left. destruct pre; cbn in H; [exact H|discriminate].
  - rewrite IH. split.
    + intros [H|(pre & H)].
      * now exists "".
      * exists (String c pre). cbn. now rewrite H.
    + intros (pre & H). destruct pre as [|d pre]; cbn in H.
      * now left.
      * right. injection H as -> ->. now exists pre.
Qed.

End StrFacts.

Module RegexFacts.
Import Regex Scoring.
Open Scope char_scope.
Open Scope list_scope.

(** The text starts with a dot and one of the four extensions, and then
    ends or goes on with a question mark. *)
Definition extensionHere (l : list ascii) : Prop :=
  exists ext rest,
    l = "." :: ext ++ rest /\
    (ext = ["j"; "p"; "g"] \/ ext = ["j"; "p"; "e"; "g"] \/
     ext = ["p"; "n"; "g"] \/ ext = ["g"; "i"; "f"]) /\
    (rest = [] \/ exists q, rest = "?" :: q).

Lemma ltb_S (n : nat) : (n <? S n)%nat = true.
Proof. apply Nat.ltb_lt. lia. Qed.

Local Ltac split_char H :=
  match type of H with
  | context [Ascii.eqb ?a ?x] => destruct (Ascii.eqb_spec a x); [subst|]
  end.

Local Ltac split_list H :=
  match type of H with
  | context [match ?s with [] => _ | _ :: _ => _ end] => is_var s; destruct s
  end.

Local Ltac try_ext e :=
  exists e; eexists; split; [cbn [app]; reflexivity|];
  split; [tauto|first [left; reflexivity | right; eexists; reflexivity]].

Local Ltac solve_ext :=
  unfold extensionHere;
  first [ solve [try_ext ["j"; "p"; "g"]] | solve [try_ext ["j"; "p"; "e"; "g"]]
        | solve [try_ext ["p"; "n"; "g"]] | solve [try_ext ["g"; "i"; "f"]] ].

Lemma matchAt_validExtension (l : list ascii) :
  (exists x, matchAt validExtension l = Some x) <-> extensionHere l.
Proof.
  split.
  - intros [x H]. unfold matchAt, validExtension in H.
    Opaque Ascii.eqb Nat.ltb.
    cbn in H.
    repeat (first [rewrite ltb_S in H | split_list H | split_char H];
            cbn in H; try discriminate).
    all: solve_ext.
    Transparent Ascii.eqb.
  - intros (ext & rest & -> & Hext & Hrest). unfold matchAt, validExtension.
    destruct Hext as [->|[->|[->| ->]]]; destruct Hrest as [->|[q ->]];
      cbn; rewrite ?ltb_S; eexists; reflexivity.
Qed.
Transparent Nat.ltb.

(** A search succeeds exactly when the pattern matches at the head of
    some suffix. *)
Lemma search_some (r : re) (l : list ascii) (idx : nat) :
  (exists f, search r l idx = Some f) <->
  (exists pre suf, l = pre ++ suf /\ exists x, matchAt r suf = Some x).
Proof.
  revert idx. induction l as [|c l IH]; intros idx; cbn [search].
  - destruct (matchAt r []) as [[rest cs]|] eqn:E.
    + split; [intros _|intros _; eexists; reflexivity].
      exists [], []. split; [reflexivity|]. rewrite E. eexists; reflexivity.
    + split; [intros [f H]; discriminate|].
      intros (pre & suf & H & x & Hx).
      symmetry in H. apply app_eq_nil in H. destruct H as [-> ->]. congruence.
  - destruct (matchAt r (c :: l)) as [[rest cs]|] eqn:E.
    + split; [intros _|intros _; eexists; reflexivity].
      exists [], (c :: l). split; [reflexivity|]. rewrite E. eexists; reflexivity.
    + rewrite IH. split.
      * intros (pre & suf & -> & Hx). exists (c :: pre), suf. auto.
      * intros (pre & suf & H & x & Hx). destruct pre as [|d pre]; cbn in H.
        -- subst suf. congruence.
        -- injection H as -> ->. exists pre, suf. split; [reflexivity|now exists x].
Qed.

Lemma test_spec (r : re) (s : string) :
  test r s = true <->
  (exists pre suf, list_ascii_of_string s = pre ++ suf /\ exists x, matchAt r suf = Some x).
Proof.
  unfold test, exec. rewrite <- (search_some r (list_ascii_of_string s) 0).
  destruct (search r (list_ascii_of_string s) 0) as [f|].
  - split; [intros _; now exists f|reflexivity].
  - split; [discriminate|intros [f H]; discriminate].
Qed.

Lemma list_ascii_app (a b : string) :
  list_ascii_of_string (a ++ b) = list_ascii_of_string a ++ list_ascii_of_string b.
Proof. induction a as [|c a IH]; cbn; [reflexivity|now rewrite IH]. Qed.

Lemma string_of_app (a b : list ascii) :
  string_of_list_ascii (a ++ b) = (string_of_list_ascii a ++ string_of_list_ascii b)%string.
Proof. induction a as [|c a IH]; cbn; [reflexivity|now rewrite IH]. Qed.

(** The text has, somewhere, a dot and one of the four extensions that
    ends the text or stands before a question mark. *)
Definition hasValidExtension (url : string) : Prop :=
  exists pre ext rest : string,
    url = (pre ++ "." ++ ext ++ rest)%string /\
    (ext = "jpg" \/ ext = "jpeg" \/ ext = "png" \/ ext = "gif")%string /\
    (rest = ""%string \/ exists q, rest = String "?" q).

Lemma test_validExtension (url : string) :
  test validExtension url = true <-> hasValidExtension url.
Proof.
  rewrite test_spec. split.
  - intros (pre & suf & H & Hx). apply matchAt_validExtension in Hx.
    destruct Hx as (ext & rest & -> & Hext & Hrest).
    exists (string_of_list_ascii pre), (string_of_list_ascii ext), (string_of_list_ascii rest).
    split; [|split].
    + rewrite <- (string_of_list_ascii_of_string url), H.
      rewrite string_of_app. cbn. now rewrite string_of_app.
    + destruct Hext as [->|[->|[->| ->]]]; cbn; auto.
    + destruct Hrest as [->|[q ->]]; cbn; [now left|right; eexists; reflexivity].
  - intros (pre & ext & rest & -> & Hext & Hrest).
    exists (list_ascii_of_string pre), (list_ascii_of_string ("." ++ ext ++ rest)%string).
    split; [apply list_ascii_app|]. apply matchAt_validExtension.
    exists (list_ascii_of_string ext), (list_ascii_of_string rest). split; [|split].
    + cbn. now rewrite list_ascii_app.
    + destruct Hext as [->|[->|[->| ->]]]; cbn; auto.
    + destruct Hrest as [->|[q ->]]; cbn; [now left|right; eexists; reflexivity].
Qed.

End RegexFacts.

(* ================================================================== *)
(** * Example pages                                                     *)
(* ================================================================== *)

Module Pages.

Import JS Val Extraction.
Open Scope string_scope.

(** What the extractors return for an empty document. *)
Definition emptyMeta : MetaTags :=
  {| openGraph := {| ogTitle := None; ogDescription := None;
                     ogImage := None; ogType := None |};
     twitterCards := {| card := None; twitterImage := None |};
     standardDescription := None;
     canonical := {| present := false; matchesCurrentUrl := None;
                     isProductCanonical := None |};
     robotsIsBlocked := false |}.

Definition emptyQuality : ContentQuality :=
  {| description := {| wordCount := ofZ 0; lengthScore := ofZ 0;
                       hasBenefitStatements := false; hasEmotionalLanguage := false;
                       hasTechnicalTerms := false |};
     specifications := {| specCount := ofZ 0; specCountScore := ofZ 0; specItems := [] |};
     features := {| count := ofZ 0; countScore := ofZ 0 |};
     faq := {| count := ofZ 0; countScore := ofZ 0 |};
     productDetails := {| hasDimensions := false; hasMaterials := false;
                          hasCareInstructions := false; hasWarranty := false;
                          hasCompatibility := false |};
     readabilityScore := Some (ofZ 60) |}.

Definition emptyStructure : ContentStructure :=
  {| headings := {| h1Count := ofZ 0; h1Texts := []; hasH1 := false; hasSingleH1 := false;
                    hierarchyIssues := ["Missing H1"]; hierarchyValid := false |};
     semanticScore := ofZ 0; hasMain := false; hasArticle := false;
     ratio := ofZ 0; ratioScore := ofZ 0;
     tableCount := ofZ 0; hasProperTables := false; tableScore := ofZ 0;
     hasProperLists := false; listScore := ofZ 25;
     ariaLabels := ofZ 0; primaryImage := None; altCoverage := ofZ 1;
     totalCount := ofZ 0; jsScore := ofZ 100; dependencyLevel := "low" |}.

Definition noReviews : Reviews :=
  {| reviewCount := ofZ 0; averageRating := None; hasReviews := false;
     hasRecentReviews := None; averageReviewLength := ofZ 0; reviewsAnalyzed := ofZ 0;
     reviewCountScore := ofZ 0; ratingScore := ofZ 0; depthScore := ofZ 25 |}.

Definition emptyTrust : TrustSignals :=
  {| reviews := noReviews;
     brand := {| brandName := None; inH1 := false; inTitle := false;
                 clarity := "missing"; brandScore := ofZ 0 |};
     certFound := false; certCount := ofZ 0; certScore := ofZ 0; awardCount := ofZ 0 |}.

Definition emptyPage : ExtractedData :=
  {| schemas := Schema.empty; metaTags := emptyMeta; contentQuality := emptyQuality;
     contentStructure := emptyStructure; trustSignals := emptyTrust;
     answerFormat := None; pageTitle := Some "" |}.

Definition withSchemas (d : ExtractedData) (s : Schema.Schemas) : ExtractedData :=
  {| schemas := s; metaTags := metaTags d; contentQuality := contentQuality d;
     contentStructure := contentStructure d; trustSignals := trustSignals d;
     answerFormat := answerFormat d; pageTitle := pageTitle d |}.

Definition withTitle (d : ExtractedData) (t : string) : ExtractedData :=
  {| schemas := schemas d; metaTags := metaTags d; contentQuality := contentQuality d;
     contentStructure := contentStructure d; trustSignals := trustSignals d;
     answerFormat := answerFormat d; pageTitle := Some t |}.

Definition withReviews (d : ExtractedData) (r : Reviews) : ExtractedData :=
  {| schemas := schemas d; metaTags := metaTags d; contentQuality := contentQuality d;
     contentStructure := contentStructure d;
     trustSignals := {| reviews := r; brand := brand (trustSignals d);
                        certFound := certFound (trustSignals d);
                        certCount := certCount (trustSignals d);
                        certScore := certScore (trustSignals d);
                        awardCount := awardCount (trustSignals d) |};
     answerFormat := answerFormat d; pageTitle := pageTitle d |}.

Definition withFaq (d : ExtractedData) (f : Counted) : ExtractedData :=
  {| schemas := schemas d; metaTags := metaTags d;
     contentQuality := {| description := description (contentQuality d);
                          specifications := specifications (contentQuality d);
                          features := features (contentQuality d);
                          faq := f;
                          productDetails := productDetails (contentQuality d);
                          readabilityScore := readabilityScore (contentQuality d) |};
     contentStructure := contentStructure d; trustSignals := trustSignals d;
     answerFormat := answerFormat d; pageTitle := pageTitle d |}.

(** The schema set of a page whose only JSON-LD block is a Product named
    [n]. *)
Definition productNamed (n : string) : value :=
  VObj [ ("@context", VStr "https://schema.org"); ("@type", VStr "Product");
         ("name", VStr n) ].

Definition schemasOf (blocks : list (option value)) : Schema.Schemas :=
  match Resolver.extractStructuredData blocks [] with
  | Ok s => s
  | TypeError => Schema.empty
  end.

(** A page with the Product "Widget" in JSON-LD and the title
    "Widget | Shop". *)
Definition widgetPage : ExtractedData :=
  withTitle (withSchemas emptyPage (schemasOf [Some (productNamed "Widget")]))
            "Widget | Shop".

(** The result of scoring a page on its own (no image check, no network
    facts); when the engine throws there is none, which the empty result
    stands for. *)
Definition noCategory : Scoring.CategoryScore :=
  {| Scoring.score := NaN; Scoring.factors := []; Scoring.weight := Undefined;
     Scoring.categoryName := "" |}.

Definition noResult (c : Weights.context) : Scoring.ScoreResult :=
  {| Scoring.totalScore := NaN; Scoring.grade := Weights.F; Scoring.context_ := c;
     Scoring.categoryScores :=
       {| Scoring.structuredData := noCategory; Scoring.protocolMeta := noCategory;
          Scoring.contentQuality := noCategory; Scoring.contentStructure := noCategory;
          Scoring.authorityTrust := noCategory; Scoring.aiDiscoverability := noCategory |};
     Scoring.jsDependent := false |}.

Definition scoreOf (c : Weights.context) (d : ExtractedData) : Scoring.ScoreResult :=
  match Scoring.calculateScore c d None None with
  | Ok r => r
  | TypeError => noResult c
  end.

End Pages.

(* ================================================================== *)
(** * Properties of the structured-data resolver                        *)
(* ================================================================== *)

Module ResolverSpec.

Import JS Val Schema Resolver.

(** ** What the slots hold after a pass *)

(** The product a JSON-LD entity contributes, if it is a Product or a
    ProductGroup. *)
Definition productEntity (item : value) : option Product :=
  match typeOf item with
  | Ok (Some t) => if isProductType t then Some (productOf item t) else None
  | _ => None
  end.

(** The rating a JSON-LD entity contributes: that of a Product or
    ProductGroup with a truthy [aggregateRating]. *)
Definition ratingEntity (item : value) : option AggregateRating :=
  match typeOf item with
  | Ok (Some t) =>
      if isProductType t && truthy (field item "aggregateRating")
      then Some (ratingOf (field item "aggregateRating")) else None
  | _ => None
  end.

(** The product a microdata item contributes. *)
Definition mdProductEntity (m : md) : option Product :=
  match m with
  | MdScope t _ =>
      if Str.nonEmpty t && isProductType (mdType t)
      then Some (mdProductOf (toValue m) (mdType t)) else None
  | MdStr _ => None
  end.

(** The last contribution of a list, [d] when there is none. *)
Definition lastSome {A B : Type} (f : A -> option B) (l : list A) (d : option B) : option B :=
  List.fold_left (fun acc a => match f a with Some b => Some b | None => acc end) l d.

(** The first contribution of a list. *)
Fixpoint firstSome {A B : Type} (f : A -> option B) (l : list A) : option B :=
  match l with
  | [] => None
  | a :: r => match f a with Some b => Some b | None => firstSome f r end
  end.

(** The entities of the blocks that parsed, in document order. *)
Definition blockEntities (b : option value) : list value :=
  match b with
  | Some data => match itemsOf data with Ok l => l | TypeError => [] end
  | None => []
  end.

Definition allEntities (blocks : list (option value)) : list value :=
  List.flat_map blockEntities blocks.

Lemma lastSome_app {A B : Type} (f : A -> option B) (l1 l2 : list A) (d : option B) :
  lastSome f (l1 ++ l2) d = lastSome f l2 (lastSome f l1 d).
Proof. unfold lastSome. apply fold_left_app. Qed.

(** One JSON-LD entity: the product slot takes the entity's product, the
    rating slot its rating, and otherwise both stay. *)
Lemma categorizeItem_slots (s s' : Schemas) (item : value) :
  categorizeItem s item = Ok s' ->
  product s' = match productEntity item with Some p => Some p | None => product s end /\
  aggregateRating s' =
    match ratingEntity item with Some r => Some r | None => aggregateRating s end.
Proof.
  unfold categorizeItem, productEntity, ratingEntity.
  destruct (typeOf item) as [[t|]|]; cbn [bind]; try discriminate.
  2:{ intros H; injection H as <-. auto. }
  destruct (isProductType t) eqn:Ht; cbn [andb].
  - cbv zeta.
    match goal with
    | |- context [if truthy ?o then (os <- mapM mkOffer ?l ;; _) else _] =>
        destruct (truthy o); [destruct (mapM mkOffer l); cbn [bind]|cbn [bind]]
    end; try discriminate.
    all: intros H; injection H as <-.
    all: destruct (truthy (field item "aggregateRating")).
    all: repeat match goal with
         | |- context [if ?b then _ else _] => destruct b
         | |- context [match nestedOrg ?v with _ => _ end] => destruct (nestedOrg v)
         end; cbn; auto.
  - unfold isProductType in Ht.
    repeat match goal with
    | |- context [if ?b then _ else _] => destruct b
    end; try discriminate.
    all: repeat match goal with
         | |- context [match ?v with VArr _ => _ | _ => _ end] => destruct v; try discriminate
         | |- context [bind ?m _] => destruct m; cbn [bind]; try discriminate
         end.
    all: intros H; injection H as <-; cbn; auto.
Qed.

Lemma foldM_categorizeItem_slots (items : list value) (s s' : Schemas) :
  foldM categorizeItem items s = Ok s' ->
  product s' = lastSome productEntity items (product s) /\
  aggregateRating s' = lastSome ratingEntity items (aggregateRating s).
Proof.
  revert s. induction items as [|i items IH]; intros s; cbn [foldM].
  - intros H; injection H as <-. auto.
  - destruct (categorizeItem s i) as [s1|] eqn:H1; cbn [bind]; [|discriminate].
    intros H. destruct (IH _ H) as [Hp Hr].
    destruct (@categorizeItem_slots _ _ _ H1) as [Hp1 Hr1].
    unfold lastSome in *. cbn [fold_left]. rewrite <- Hp1, <- Hr1. auto.
Qed.

Lemma foldM_categorizeBlock_slots (blocks : list (option value)) (s s' : Schemas) :
  foldM categorizeBlock blocks s = Ok s' ->
  product s' = lastSome productEntity (allEntities blocks) (product s) /\
  aggregateRating s' = lastSome ratingEntity (allEntities blocks) (aggregateRating s).
Proof.
  revert s. induction blocks as [|b blocks IH]; intros s; cbn [foldM].
  - intros H; injection H as <-. auto.
  - destruct (categorizeBlock s b) as [s1|] eqn:H1; cbn [bind]; [|discriminate].
    intros H. destruct (IH _ H) as [Hp Hr].
    unfold allEntities. cbn [flat_map]. rewrite !lastSome_app.
    fold (allEntities blocks). rewrite Hp, Hr.
    destruct b as [data|]; cbn [categorizeBlock blockEntities] in *.
    + unfold categorizeSchemas in H1.
      destruct (itemsOf data) as [l|]; cbn [bind] in H1; [|discriminate].
      destruct (@foldM_categorizeItem_slots _ _ _ H1) as [-> ->]. auto.
    + injection H1 as <-. auto.
Qed.

(** Microdata never replaces a product or a rating that is there. *)
Lemma categorizeMicrodataItem_keeps_product (s : Schemas) (m : md) (p : Product) :
  product s = Some p -> product (categorizeMicrodataItem s m) = Some p.
Proof.
  intros Hp. unfold categorizeMicrodataItem.
  destruct m as [t | t props]; [exact Hp|].
  destruct (negb (Str.nonEmpty t)); [exact Hp|].
  rewrite Hp. cbn [isSome].
  repeat match goal with
  | |- context [if ?b then _ else _] => destruct b
  end; cbn; auto.
Qed.

Lemma categorizeMicrodataItem_keeps_rating (s : Schemas) (m : md) (r : AggregateRating) :
  aggregateRating s = Some r -> aggregateRating (categorizeMicrodataItem s m) = Some r.
Proof.
  intros Hr. unfold categorizeMicrodataItem.
  destruct m as [t | t props]; [exact Hr|].
  destruct (negb (Str.nonEmpty t)); [exact Hr|].
  cbv zeta.
  repeat match goal with
  | |- context [if ?b then _ else _] =>
      lazymatch b with
      | context [aggregateRating] => fail
      | _ => destruct b
      end
  end; cbn [aggregateRating setProduct setOffer setReviews setFaq setBreadcrumb
            setOrganization setBrand setImages];
  rewrite ?Hr; cbn [isSome negb]; rewrite ?andb_false_r.
  all: repeat match goal with
  | |- context [if ?b then _ else _] => destruct b
  end; cbn; auto.
Qed.

(** With no product yet, a microdata item fills the slot exactly when it
    is a Product or a ProductGroup. *)
Lemma categorizeMicrodataItem_fills_product (s : Schemas) (m : md) :
  product s = None -> product (categorizeMicrodataItem s m) = mdProductEntity m.
Proof.
  intros Hp. unfold categorizeMicrodataItem, mdProductEntity.
  destruct m as [t | t props]; [exact Hp|].
  destruct (Str.nonEmpty t); cbn [negb andb]; [|exact Hp].
  cbv zeta. rewrite Hp. cbn [isSome].
  destruct (isProductType (mdType t)) eqn:Ht.
  - repeat match goal with
    | |- context [if ?b then _ else _] => destruct b
    end; cbn; auto.
  - repeat match goal with
    | |- context [if ?b then _ else _] => destruct b
    end; cbn; auto.
Qed.

Lemma categorizeMicrodataSchemas_keeps (items : list md) (s : Schemas) :
  (forall p, product s = Some p ->
             product (categorizeMicrodataSchemas items s) = Some p) /\
  (forall r, aggregateRating s = Some r ->
             aggregateRating (categorizeMicrodataSchemas items s) = Some r).
Proof.
  unfold categorizeMicrodataSchemas. revert s.
  induction items as [|m items IH]; intros s; cbn [fold_left]; [auto|].
  destruct (IH (categorizeMicrodataItem s m)) as [IHp IHr]. split; intros x Hx.
  - apply IHp. now apply categorizeMicrodataItem_keeps_product.
  - apply IHr. now apply categorizeMicrodataItem_keeps_rating.
Qed.

Lemma categorizeMicrodataSchemas_product (items : list md) (s : Schemas) :
  product (categorizeMicrodataSchemas items s) =
  match product s with Some p => Some p | None => firstSome mdProductEntity items end.
Proof.
  revert s. induction items as [|m items IH]; intros s.
  - cbn. now destruct (product s).
  - destruct (product s) as [p|] eqn:Hp.
    + now apply categorizeMicrodataSchemas_keeps.
    + unfold categorizeMicrodataSchemas in *. cbn [fold_left firstSome].
      rewrite IH, (@categorizeMicrodataItem_fills_product _ m Hp). reflexivity.
Qed.

(** ** The scenarios of the specification *)

Definition ratingRef : value := VObj [("@id", VStr "#r")].

Definition ratingNode : value :=
  VObj [ ("@type", VStr "AggregateRating"); ("@id", VStr "#r");
         ("ratingValue", VNum (Num (9 # 2))); ("reviewCount", VNum (ofZ 12)) ].

(** A ProductGroup whose rating is a reference to a sibling node of the
    same graph. *)
Definition referencedRatingBlock : value :=
  VObj [ ("@context", VStr "https://schema.org");
         ("@graph", VArr [
            VObj [ ("@type", VStr "ProductGroup"); ("name", VStr "Mug");
                   ("aggregateRating", ratingRef) ];
            ratingNode ]) ].

(** C3, on the code: the resolver keeps no index of [@id]s.  The rating
    slot is read from the reference object itself, which has no
    [ratingValue], so the resolved [ratingValue] is [NaN] and not the
    sibling node's 4.5; this is so for every reference. *)
Theorem C3_id_reference_is_not_resolved :
  (exists s r,
     extractStructuredData [Some referencedRatingBlock] [] = Ok s /\
     aggregateRating s = Some r /\
     ratingValue r = VNum NaN /\
     field ratingNode "ratingValue" = VNum (Num (9 # 2))) /\
  (forall i : string, ratingValue (ratingOf (VObj [("@id", VStr i)])) = VNum NaN) /\
  ratingEntity ratingNode = None.
Proof.
  split; [|split; reflexivity].
  eexists. eexists. split; [vm_compute; reflexivity|].
  split; [reflexivity|]. split; reflexivity.
Qed.

Definition variant (props : list (string * value)) : value :=
  VObj (("@type", VStr "Product") :: props).

(** A ProductGroup with three variants, the third alone with a GTIN. *)
Definition threeVariants : value :=
  VObj [ ("@type", VStr "ProductGroup"); ("name", VStr "Mug");
         ("productGroupID", VStr "MUG");
         ("hasVariant", VArr [
            variant [("sku", VStr "MUG-S")];
            variant [("sku", VStr "MUG-M")];
            variant [("sku", VStr "MUG-L"); ("gtin", VStr "012345678905")] ]) ].

(** C4, on the code: the GTIN of the product slot is read from the
    entity's own [gtin], [gtin13], [gtin14], [gtin12] and [gtin8] only;
    [hasVariant] is not searched, so the third variant's GTIN is not
    found and [product.gtin] is [undefined]. *)
Theorem C4_variant_gtin_is_not_read :
  (exists s p,
     extractStructuredData [Some threeVariants] [] = Ok s /\
     product s = Some p /\
     gtin p = VUndef /\ mpn p = VUndef /\ sku p = VStr "MUG" /\ isProductGroup p = true) /\
  (forall (item : value) (type : string),
     gtin (productOf item type) =
       or (or (or (or (field item "gtin") (field item "gtin13")) (field item "gtin14"))
              (field item "gtin12")) (field item "gtin8") /\
     mpn (productOf item type) = field item "mpn").
Proof.
  split; [|intros; split; reflexivity].
  eexists. eexists. split; [vm_compute; reflexivity|].
  split; [reflexivity|]. repeat split; reflexivity.
Qed.

(** C5, counterexample: of two JSON-LD blocks that each hold a Product,
    the first-found one does not win; the product slot ends with the
    later one. *)
Lemma C5_later_jsonld_product_replaces :
  exists s p,
    extractStructuredData [Some (Pages.productNamed "First"); Some (Pages.productNamed "Second")] []
      = Ok s /\
    product s = Some p /\
    name p = VStr "Second" /\
    option_map name (firstSome productEntity
                       (allEntities [Some (Pages.productNamed "First");
                                     Some (Pages.productNamed "Second")]))
      = Some (VStr "First").
Proof.
  eexists. eexists. split; [vm_compute; reflexivity|].
  split; [reflexivity|]. split; reflexivity.
Qed.

(** C5 (amended): after a pass that returns, the set holds at most one
    product and at most one rating (each slot is one optional value);
    among the JSON-LD entities the last Product or ProductGroup in
    document order is the one kept, a later match replacing an earlier
    one, and likewise the last one that carries an [aggregateRating];
    microdata fills the product slot only when JSON-LD found no product,
    with its first Product item, and never replaces a rating found in
    JSON-LD. *)
Theorem C5_slots_after_extraction
    (blocks : list (option value)) (microdata : list md) (s : Schemas) :
  extractStructuredData blocks microdata = Ok s ->
  product s =
    match lastSome productEntity (allEntities blocks) None with
    | Some p => Some p
    | None => firstSome mdProductEntity microdata
    end /\
  (forall r, lastSome ratingEntity (allEntities blocks) None = Some r ->
             aggregateRating s = Some r).
Proof.
  unfold extractStructuredData.
  destruct (foldM categorizeBlock blocks Schema.empty) as [s1|] eqn:H1;
    cbn [bind]; [|discriminate].
  intros H; injection H as <-.
  destruct (@foldM_categorizeBlock_slots _ _ _ H1) as [Hp Hr].
  cbn [product aggregateRating Schema.empty] in Hp, Hr.
  split.
  - rewrite categorizeMicrodataSchemas_product, Hp. reflexivity.
  - intros r Hl. apply categorizeMicrodataSchemas_keeps. now rewrite Hr.
Qed.

Definition mdProduct (n : string) : md :=
  MdScope "https://schema.org/Product" [("name", MdStr n)].

Definition twoBlocks : list (option value) :=
  [Some (Pages.productNamed "First"); None; Some (Pages.productNamed "Second")].

Definition twoBlocksResult : Schemas :=
  Eval vm_compute in
    match extractStructuredData twoBlocks [mdProduct "Third"] with
    | Ok s => s
    | TypeError => Schema.empty
    end.

Lemma C5_slots_after_extraction_witness :
  product twoBlocksResult =
    match lastSome productEntity (allEntities twoBlocks) None with
    | Some p => Some p
    | None => firstSome mdProductEntity [mdProduct "Third"]
    end /\
  (forall r, lastSome ratingEntity (allEntities twoBlocks) None = Some r ->
             aggregateRating twoBlocksResult = Some r).
Proof.
  apply (@C5_slots_after_extraction twoBlocks [mdProduct "Third"] twoBlocksResult).
  vm_compute. reflexivity.
Defined.

End ResolverSpec.

Module ScoringSpec.

Import JS Weights Extraction Scoring JSFacts StrFacts RegexFacts Pages.
Open Scope string_scope.
Open Scope Z_scope.

(** ** Entity Consistency *)

(** [a] contains [b]. *)
Definition contains (a b : string) : Prop := exists pre post, a = pre ++ b ++ post.

Lemma eqb_contains (a b : string) : String.eqb a b = true -> contains a b.
Proof.
  intros H. apply String.eqb_eq in H. subst. exists "", "". cbn.
  induction b as [|c b IH]; cbn; [reflexivity|now rewrite <- IH].
Qed.

(** A surface aligns with the name when it is not empty and, both
    lower-cased and trimmed, one contains the other. *)
Lemma aligned_spec (nameLower t : string) :
  aligned nameLower (Some t) = true <->
  t <> "" /\
  (contains (Str.trim (Str.toLowerCase t)) nameLower \/
   contains nameLower (Str.trim (Str.toLowerCase t))).
Proof.
  unfold aligned, Str.nonEmpty, contains.
  destruct (String.eqb_spec t "") as [->|Hne]; cbn [negb andb].
  - split; [discriminate|intros [H _]; now contradiction H].
  - rewrite !orb_true_iff, !includes_spec. split.
    + intros [[H|H]|H]; (split; [exact Hne|]); auto. left. now apply eqb_contains.
    + intros [_ [H|H]]; auto.
Qed.

(** The words of the name longer than two characters, and those of them
    the lower-cased meta description contains. *)
Definition nameWords (nameLower : string) : list string :=
  List.filter (fun wd => (2 <? String.length wd)%nat) (Str.splitWs nameLower).

Definition matchedWords (nameLower metaLower : string) : list string :=
  List.filter (fun wd => Str.includes metaLower wd) (nameWords nameLower).

(** The meta description aligns when it is not empty and, lower-cased,
    contains the name or at least 60% of its words. *)
Lemma alignedMeta_spec (nameLower t : string) :
  alignedMeta nameLower (Some t) = true <->
  t <> "" /\
  (contains (Str.toLowerCase t) nameLower \/
   6 * Z.of_nat (List.length (nameWords nameLower))
     <= 10 * Z.of_nat (List.length (matchedWords nameLower (Str.toLowerCase t)))).
Proof.
  unfold alignedMeta, Str.nonEmpty, contains.
  fold (nameWords nameLower). fold (matchedWords nameLower (Str.toLowerCase t)).
  destruct (String.eqb_spec t "") as [->|Hne]; cbn [negb andb].
  - split; [discriminate|intros [H _]; now contradiction H].
  - rewrite orb_true_iff, includes_spec.
    set (n := Z.of_nat (List.length (nameWords nameLower))).
    set (k := Z.of_nat (List.length (matchedWords nameLower (Str.toLowerCase t)))).
    assert (Hge : ge (ofZ k) (ceil (mul (ofZ n) (q 6 10))) = true <-> 6 * n <= 10 * k).
    { unfold ge, ceil, mul, mk, ofZ, q, Weights.dec. rewrite Qle_bool_iff.
      change (Qceiling (Qred ((n # 1) * (6 # Z.to_pos 10))) # 1)%Q
        with (inject_Z (Qceiling (Qred ((n # 1) * (6 # 10))))).
      change (k # 1)%Q with (inject_Z k).
      rewrite <- Zle_Qle, Qceiling_le_Z, Qred_correct.
      unfold Qle, Qmult, inject_Z. cbn [Qnum Qden].
      change (Z.pos (1 * 10)) with 10. lia. }
    rewrite Hge. split; [intros H; split; [exact Hne|exact H]|intros [_ H]; exact H].
Qed.






(** ** The total score *)

(** C2, on the code: [FACTOR_WEIGHTS.aiDiscoverability] has no
    [entityConsistency], [answerFormatContent] or [productIdentifiers];
    the engine reads them all the same.  For a page whose Product schema
    has a name, the weight of Entity Consistency is [undefined], its
    points, the score of the AI Discoverability category and the total
    score are [NaN], and the grade is F: the total is not an integer
    between 0 and 100. *)
Theorem C2_total_is_NaN_for_a_named_product :
  get FW_aiDiscoverability "entityConsistency" = Undefined /\
  get FW_aiDiscoverability "answerFormatContent" = Undefined /\
  get FW_aiDiscoverability "productIdentifiers" = Undefined /\
  exists r,
    calculateScore hybrid widgetPage None None = Ok r /\
    score (aiDiscoverability (categoryScores r)) = NaN /\
    totalScore r = NaN /\
    grade r = F /\
    is_int_between 0 100 (totalScore r) = false.
Proof.
  repeat (split; [reflexivity|]).
  eexists. split; [vm_compute; reflexivity|]. repeat split; reflexivity.
Qed.

(** The factor of a list with a given name. *)
Definition factorNamed (n : string) (fs : list Factor) : option Factor :=
  List.find (fun f => String.eqb (name f) n) fs.

(** The URL names WebP: it ends in [.webp] or contains [.webp?]. *)
Definition namesWebP (u : string) : Prop :=
  (exists pre, u = pre ++ ".webp") \/ (exists pre post, u = pre ++ ".webp?" ++ post).

Lemma namesWebP_spec (u : string) :
  Str.endsWith u ".webp" || Str.includes u ".webp?" = true <-> namesWebP u.
Proof.
  unfold namesWebP. now rewrite orb_true_iff, endsWith_spec, includes_spec.
Qed.

(** C10: with no image fact and a declared og:image, the og:image Format
    factor is decided by the lower-cased URL alone, the cases taken in
    this order: a URL that ends in [.webp] or contains [.webp?] fails
    with 0 points; otherwise one with [.jpg], [.jpeg], [.png] or [.gif]
    before the end or a question mark passes with the full 15 points;
    any other is [unknown] with 0 points. *)
Theorem C10_og_image_format_from_url (data : MetaTags) (url : string) :
  ogImage (openGraph data) = Some url ->
  url <> "" ->
  let u := Str.toLowerCase url in
  exists f,
    factorNamed "og:image Format" (factors (scoreProtocolMeta data None)) = Some f /\
    maxPoints f = get FW_protocolMeta "ogImageFormat" /\
    maxPoints f = Number (ofZ 15) /\
    (namesWebP u -> fstatus f = fail /\ points f = Number (ofZ 0)) /\
    (~ namesWebP u -> hasValidExtension u ->
       fstatus f = pass /\ points f = maxPoints f) /\
    (~ namesWebP u -> ~ hasValidExtension u ->
       fstatus f = unknown /\ points f = Number (ofZ 0)).
Proof.
  intros Hog Hne u.
  eexists. split; [reflexivity|]. cbn [maxPoints points fstatus mkFactor].
  split; [reflexivity|]. split; [reflexivity|].
  unfold imageFormat. rewrite Hog. unfold present_str, Str.nonEmpty.
  destruct (String.eqb_spec url ""); [contradiction|]. cbn [negb]. fold u.
  rewrite <- namesWebP_spec, <- test_validExtension.
  destruct (Str.endsWith u ".webp" || Str.includes u ".webp?");
    [|destruct (Regex.test validExtension u)]; cbn [fst snd].
  - split; [auto|]. split; intros Hn; exfalso; now apply Hn.
  - split; [discriminate|]. split; [auto|]. intros _ Hn. exfalso. now apply Hn.
  - split; [discriminate|]. split; [discriminate|auto].
Qed.

Definition metaWithImage (url : string) : MetaTags :=
  {| openGraph := {| ogTitle := None; ogDescription := None;
                     ogImage := Some url; ogType := None |};
     twitterCards := {| card := None; twitterImage := None |};
     standardDescription := None;
     canonical := {| present := false; matchesCurrentUrl := None;
                     isProductCanonical := None |};
     robotsIsBlocked := false |}.

Lemma C10_og_image_format_from_url_witness :
  exists f,
    factorNamed "og:image Format"
      (factors (scoreProtocolMeta (metaWithImage "https://cdn.example.com/Mug.JPG?v=2") None))
      = Some f /\
    fstatus f = pass /\ points f = Number (ofZ 15).
Proof.
  destruct (@C10_og_image_format_from_url
              (metaWithImage "https://cdn.example.com/Mug.JPG?v=2")
              "https://cdn.example.com/Mug.JPG?v=2" eq_refl)
    as (f & Hf & _ & Hm & _ & Hpass & _); [discriminate|].
  exists f. split; [exact Hf|]. rewrite <- Hm. apply Hpass.
  - rewrite <- namesWebP_spec. vm_compute. discriminate.
  - rewrite <- test_validExtension. vm_compute. reflexivity.
Defined.

End ScoringSpec.

(* ================================================================== *)
(** * The total score and the grade *)
(* ================================================================== *)

Module TotalSpec.

Import JS Weights Extraction Scoring JSFacts Pages.
Local Open Scope Q_scope.

(** The sum of the numbers of a table, added in the order written. *)
Definition weightSum (t : table) : num :=
  fold_left (fun acc kv => add acc (snd kv)) t (ofZ 0).

(** The six category weights add up to 1. *)
Lemma category_weights_sum_to_one :
  List.map fst CATEGORY_WEIGHTS
    = ["structuredData"; "protocolMeta"; "contentQuality"; "contentStructure";
       "authorityTrust"; "aiDiscoverability"]%string /\
  weightSum CATEGORY_WEIGHTS = ofZ 1.
Proof. split; reflexivity. Qed.

(** [getGrade]: A from 90, B from 80, C from 70, D from 60, else F; a
    total that is not a number is graded F. *)
Lemma getGrade_spec (v : Q) :
  getGrade NaN = F /\
  (getGrade (Num v) = A <-> 90 <= v) /\
  (getGrade (Num v) = B <-> 80 <= v /\ v < 90) /\
  (getGrade (Num v) = C <-> 70 <= v /\ v < 80) /\
  (getGrade (Num v) = D <-> 60 <= v /\ v < 70) /\
  (getGrade (Num v) = F <-> v < 60).
Proof.
  split; [reflexivity|]. unfold getGrade, ge, ofZ.
  destruct (Qle_bool (90 # 1) v) eqn:E90;
    [apply Qle_bool_iff in E90|apply Qle_bool_false in E90];
  (destruct (Qle_bool (80 # 1) v) eqn:E80;
    [apply Qle_bool_iff in E80|apply Qle_bool_false in E80]);
  (destruct (Qle_bool (70 # 1) v) eqn:E70;
    [apply Qle_bool_iff in E70|apply Qle_bool_false in E70]);
  (destruct (Qle_bool (60 # 1) v) eqn:E60;
    [apply Qle_bool_iff in E60|apply Qle_bool_false in E60]).
  all: repeat split; try discriminate; try reflexivity; intros; try lra.
Qed.


End TotalSpec.

(* ================================================================== *)
(** * recommendation-engine.js: the FAQ recommendations *)
(* ================================================================== *)

Module RecsSpec.

Import JS Weights Extraction Recs Pages.
Open Scope string_scope.
Open Scope list_scope.

(** The FAQ-related recommendations among what the checks push. *)
Definition faqPushed (l : list (option Recommendation)) : nat := faqCount (nonNull l).

Lemma faqCount_app (a b : list Recommendation) :
  faqCount (a ++ b) = (faqCount a + faqCount b)%nat.
Proof. unfold faqCount. now rewrite filter_app, length_app. Qed.

Lemma faqCount_cons (r : Recommendation) (l : list Recommendation) :
  faqCount (r :: l) = ((if faqRelated r then 1 else 0) + faqCount l)%nat.
Proof. unfold faqCount. cbn [filter]. now destruct (faqRelated r). Qed.

Lemma faqCount_insert (r : Recommendation) (l : list Recommendation) :
  faqCount (insert r l) = faqCount (r :: l).
Proof.
  induction l as [|x t IH]; [reflexivity|].
  cbn [insert]. destruct (0 <? compare r x)%Z; [|reflexivity].
  rewrite !faqCount_cons in *. rewrite IH. lia.
Qed.

(** Sorting moves recommendations, it neither drops nor adds one. *)
Lemma faqCount_sort (l : list Recommendation) : faqCount (sort l) = faqCount l.
Proof.
  induction l as [|x t IH]; [reflexivity|].
  cbn [sort]. rewrite faqCount_insert, !faqCount_cons. now rewrite IH.
Qed.

Lemma nonNull_app (a b : list (option Recommendation)) :
  nonNull (a ++ b) = nonNull a ++ nonNull b.
Proof.
  induction a as [|[r|] t IH]; cbn [nonNull app]; [reflexivity| |assumption].
  now rewrite IH.
Qed.

Lemma faqPushed_app (a b : list (option Recommendation)) :
  faqPushed (a ++ b) = (faqPushed a + faqPushed b)%nat.
Proof. unfold faqPushed. now rewrite nonNull_app, faqCount_app. Qed.

Ltac pieces := unfold when; rewrite ?faqPushed_app; repeat split_case; reflexivity.

Lemma faqPushed_protocolMeta (d : ExtractedData) (iv : option ImageFormatFact) :
  faqPushed (checkProtocolMetaIssues d iv) = 0%nat.
Proof. unfold checkProtocolMetaIssues. pieces. Qed.

Lemma faqPushed_contentStructure (d : ExtractedData) :
  faqPushed (checkContentStructureIssues d) = 0%nat.
Proof. unfold checkContentStructureIssues. pieces. Qed.

Lemma faqPushed_authorityTrust (sr : Scoring.ScoreResult) (d : ExtractedData) :
  faqPushed (checkAuthorityTrustIssues sr d) = 0%nat.
Proof. unfold checkAuthorityTrustIssues. pieces. Qed.

Lemma faqPushed_aiIssuesOf (f : Scoring.Factor) : faqPushed (aiIssuesOf f) = 0%nat.
Proof. unfold aiIssuesOf. pieces. Qed.

Lemma faqPushed_aiDiscoverability (sr : Scoring.ScoreResult) :
  faqPushed (checkAIDiscoverabilityIssues sr) = 0%nat.
Proof.
  unfold checkAIDiscoverabilityIssues.
  induction (Scoring.factors _) as [|f t IH]; [reflexivity|].
  cbn [flat_map]. now rewrite faqPushed_app, faqPushed_aiIssuesOf, IH.
Qed.

(** What each of the two FAQ checks pushes. *)
Definition schemaCheck (d : ExtractedData) : nat :=
  let hasFaqSchema := Schema.isSome (Schema.faq (schemas d)) in
  let faqCount := count (faq (contentQuality d)) in
  if negb hasFaqSchema && (gt faqCount (ofZ 0) || JS.eqb faqCount (ofZ 0)) then 1 else 0.

Definition contentCheck (d : ExtractedData) : nat :=
  let faqCount := count (faq (contentQuality d)) in
  if gt faqCount (ofZ 0) && lt faqCount (ofZ 3) then 1 else 0.

Lemma faqPushed_structuredData (d : ExtractedData) :
  faqPushed (checkStructuredDataIssues d) = schemaCheck d.
Proof.
  unfold checkStructuredDataIssues, schemaCheck, when. cbv zeta.
  destruct (Schema.isSome (Schema.faq (schemas d)));
    destruct (gt (count (faq (contentQuality d))) (ofZ 0));
    destruct (JS.eqb (count (faq (contentQuality d))) (ofZ 0));
    cbn [negb andb orb]; rewrite ?faqPushed_app; repeat split_case; reflexivity.
Qed.

Lemma faqPushed_contentQuality (sr : Scoring.ScoreResult) (d : ExtractedData) :
  faqPushed (checkContentQualityIssues sr d) = contentCheck d.
Proof.
  unfold checkContentQualityIssues, contentCheck, when. cbv zeta.
  destruct (gt (count (faq (contentQuality d))) (ofZ 0));
    destruct (lt (count (faq (contentQuality d))) (ofZ 3));
    cbn [negb andb orb]; rewrite ?faqPushed_app; repeat split_case; reflexivity.
Qed.

Lemma faqCount_generateRecommendations (sr : Scoring.ScoreResult) (d : ExtractedData)
    (iv : option ImageFormatFact) :
  faqCount (generateRecommendations sr d iv) = (schemaCheck d + contentCheck d)%nat.
Proof.
  unfold generateRecommendations, prioritizeRecommendations.
  rewrite faqCount_sort. fold (faqPushed (checkProtocolMetaIssues d iv ++
    checkStructuredDataIssues d ++ checkContentQualityIssues sr d ++
    checkContentStructureIssues d ++ checkAuthorityTrustIssues sr d ++
    checkAIDiscoverabilityIssues sr)).
  rewrite !faqPushed_app, faqPushed_protocolMeta, faqPushed_structuredData,
    faqPushed_contentQuality, faqPushed_contentStructure, faqPushed_authorityTrust,
    faqPushed_aiDiscoverability.
  lia.
Qed.

(** A page with one question in its FAQ section and no FAQ schema. *)
Definition oneQuestionPage : ExtractedData :=
  withFaq emptyPage {| count := ofZ 1; countScore := ofZ 17 |}.

(** C9, as stated, fails: with one question on the page and no FAQ schema
    both FAQ checks fire, and the list has two FAQ-related
    recommendations. *)
Lemma C9_two_faq_recommendations :
  Schema.faq (schemas oneQuestionPage) = None /\
  count (faq (contentQuality oneQuestionPage)) = ofZ 1 /\
  List.map id (List.filter faqRelated
                 (generateRecommendations (scoreOf hybrid oneQuestionPage)
                                          oneQuestionPage None))
    = ["faq-schema-missing"; "faq-content-missing"] /\
  faqCount (generateRecommendations (scoreOf hybrid oneQuestionPage) oneQuestionPage None)
    = 2%nat.
Proof. repeat split; vm_compute; reflexivity. Qed.

(** C9, amended.  The list of recommendations has the FAQ-related
    recommendations of two checks: the schema check pushes one when there
    is no FAQ schema and the FAQ count is a number that is not negative,
    the content check one when the count is above 0 and below 3.  So
    there are at most two; exactly one when the count is 0 and there is no
    FAQ schema; none or one when there is a FAQ schema or the count is 3
    or more; and two when there is no FAQ schema and the count is 1 or
    2. *)
Theorem C9_faq_recommendations (sr : Scoring.ScoreResult) (d : ExtractedData)
    (iv : option ImageFormatFact) :
  let n := faqCount (generateRecommendations sr d iv) in
  let c := count (faq (contentQuality d)) in
  let noSchema := negb (Schema.isSome (Schema.faq (schemas d))) in
  n = (schemaCheck d + contentCheck d)%nat /\
  (n <= 2)%nat /\
  (noSchema = true -> c = ofZ 0 -> n = 1%nat) /\
  (noSchema = false -> (n <= 1)%nat) /\
  (lt c (ofZ 3) = false -> (n <= 1)%nat) /\
  (noSchema = true -> gt c (ofZ 0) = true -> lt c (ofZ 3) = true -> n = 2%nat).
Proof.
  cbv zeta. rewrite faqCount_generateRecommendations.
  unfold schemaCheck, contentCheck.
  split; [reflexivity|]. repeat split.
  - repeat split_case; lia.
  - intros -> ->. reflexivity.
  - intros ->. cbn [andb]. split_case; lia.
  - intros ->. rewrite andb_false_r. split_case; lia.
  - intros -> -> ->. reflexivity.
Qed.

End RecsSpec.

(* ================================================================== *)
(** * content-script.js: the warranty guard *)
(* ================================================================== *)

Module DetailsSpec.

Import Val Regex Details RegexFacts.
Open Scope string_scope.
Open Scope list_scope.

(** The first positive pattern, [N unit warranty]. *)
Definition periodPattern : re := List.hd Eps warrantyPatterns.

Definition phrase : string := "12-month warranty on parts".

(** Where the text has the phrase, the first positive pattern matches:
    it reads "12-month warranty" and leaves the rest. *)
Lemma matchAt_phrase (post : list ascii) :
  matchAt periodPattern (list_ascii_of_string phrase ++ post)
  = Some (list_ascii_of_string " on parts" ++ post,
          [(1%nat, list_ascii_of_string "12-month warranty")]).
Proof.
  unfold matchAt, periodPattern, phrase.
  with_strategy opaque [Nat.ltb Nat.sub firstn] lazy.
  fold (@List.length ascii post).
  rewrite !ltb_S.
  match goal with
  | |- context [Nat.sub ?a ?b] => replace (Nat.sub a b) with 17%nat by lia
  end.
  reflexivity.
Qed.


Lemma toLowerCase_app (a b : string) :
  Str.toLowerCase (a ++ b) = (Str.toLowerCase a ++ Str.toLowerCase b)%string.
Proof. induction a as [|c a IH]; cbn; [reflexivity|now rewrite IH]. Qed.

(** A pattern that matches at the head of what follows [pre] is found by
    a search of the whole text. *)
Lemma test_inside (r : re) (pre s : string) (post : list ascii) (x : list ascii * caps) :
  matchAt r (list_ascii_of_string s ++ post) = Some x ->
  forall rest, list_ascii_of_string rest = post ->
  test r (pre ++ s ++ rest)%string = true.
Proof.
  intros H rest <-. apply test_spec.
  exists (list_ascii_of_string pre), (list_ascii_of_string (s ++ rest)%string).
  split; [apply list_ascii_app|]. rewrite list_ascii_app. now exists x.
Qed.

Lemma matchAt_no_warranty (post : list ascii) :
  matchAt warrantyNegative (list_ascii_of_string "no warranty" ++ post) = Some (post, []).
Proof. reflexivity. Qed.

Lemma ltb_len (n k : nat) : (n <? S k + n)%nat = true.
Proof. apply Nat.ltb_lt. lia. Qed.

Lemma matchAt_void_the_warranty (post : list ascii) :
  matchAt warrantyNegative (list_ascii_of_string "void the warranty" ++ post)
  = Some (post, []).
Proof.
  unfold matchAt, warrantyNegative.
  with_strategy opaque [Nat.ltb] lazy.
  fold (@List.length ascii post).
  repeat match goal with
  | |- context [Nat.ltb ?a ?b] =>
      replace (Nat.ltb a b) with true by (symmetry; apply Nat.ltb_lt; lia)
  end.
  reflexivity.
Qed.

(** The first pattern that matches decides; the first of the patterns is
    [periodPattern]. *)
Lemma firstMatch_period (text : string) (f : found) :
  exec periodPattern text = Some f -> firstMatch warrantyPatterns text = Some f.
Proof.
  intros H. change warrantyPatterns with (periodPattern :: List.tl warrantyPatterns).
  cbn [firstMatch]. now rewrite H.
Qed.

Lemma exec_phrase (pre post : string) :
  exists f, exec periodPattern (pre ++ phrase ++ post)%string = Some f.
Proof.
  unfold exec. apply search_some.
  exists (list_ascii_of_string pre), (list_ascii_of_string (phrase ++ post)%string).
  split; [apply list_ascii_app|]. rewrite list_ascii_app.
  eexists. apply matchAt_phrase.
Qed.

Section Kept.

Variable jsString jsonStringify : value -> string.

(** Once the warranty is found, the JSON-LD scripts leave it as it
    is. *)
Lemma propsLoop_kept (props : list value) (w : Warranty) :
  hasWarranty w = true -> fst (propsLoop jsString props w) = w.
Proof.
  intros H. induction props as [|p r IH]; [reflexivity|].
  cbn [propsLoop]. destruct (prop p "name") as [n|]; [|reflexivity].
  destruct (or n (VStr "")); try reflexivity.
  rewrite H. cbn [negb andb]. exact IH.
Qed.

Lemma itemStep_kept (w : Warranty) (item : value) :
  hasWarranty w = true -> fst (itemStep jsString jsonStringify w item) = w.
Proof.
  intros H. unfold itemStep.
  destruct (negb (truthy item)); [reflexivity|].
  destruct (looseType item) as [type|]; [|reflexivity].
  destruct (_ || _); [|reflexivity].
  rewrite H. cbn [negb andb].
  destruct (field item "additionalProperty"); try reflexivity.
  now apply propsLoop_kept.
Qed.

Lemma itemsLoop_kept (items : list value) (w : Warranty) :
  hasWarranty w = true -> itemsLoop jsString jsonStringify items w = w.
Proof.
  intros H. induction items as [|i r IH]; [reflexivity|].
  cbn [itemsLoop].
  generalize (@itemStep_kept w i H).
  destruct (itemStep jsString jsonStringify w i) as [w' thrown]. cbn [fst].
  intros ->. now destruct thrown.
Qed.

Lemma blockStep_kept (w : Warranty) (block : option value) :
  hasWarranty w = true -> blockStep jsString jsonStringify w block = w.
Proof.
  intros H. unfold blockStep. destruct block as [data|]; [|reflexivity].
  destruct (prop data "@graph") as [g|]; [|reflexivity].
  destruct (truthy g).
  - destruct g; try reflexivity. now apply itemsLoop_kept.
  - now apply itemsLoop_kept.
Qed.

Lemma blocks_kept (blocks : list (option value)) (w : Warranty) :
  hasWarranty w = true -> fold_left (blockStep jsString jsonStringify) blocks w = w.
Proof.
  intros H. induction blocks as [|b r IH]; [reflexivity|].
  cbn [fold_left]. now rewrite blockStep_kept.
Qed.

End Kept.

(** The first positive pattern starts with a digit: it matches at no
    position that does not hold one. *)
Lemma plus_fails (R : Type) (p : ascii -> bool) (b : re) (i : nat) (c : ascii)
    (s : list ascii) (cs : caps) (k : list ascii -> caps -> option R) :
  p c = false -> m (Grp i (Seq (plus (Chr p)) b)) (c :: s) cs k = None.
Proof. intros H. cbn [m plus Nat.add List.length]. now rewrite H. Qed.

Lemma matchAt_period_no_digit (c : ascii) (s : list ascii) :
  Str.isDigit c = false -> matchAt periodPattern (c :: s) = None.
Proof.
  intros H. unfold matchAt.
  change periodPattern
    with (Grp 1 (Seq (plus digit)
                     (seq [star (wsOr "-");
                           alt [liti "year"; liti "month"; liti "day"; liti "yr"; liti "mo"];
                           star (wsOr "-"); opt (seq [liti "limited"; plus ws]);
                           warrantyOrGuarantee]))).
  now apply plus_fails.
Qed.

(** The text has no digit. *)
Definition noDigit (s : string) : bool :=
  forallb (fun c => negb (Str.isDigit c)) (list_ascii_of_string s).

Lemma search_period_skip (pre s : list ascii) (idx : nat) :
  forallb (fun c => negb (Str.isDigit c)) pre = true ->
  search periodPattern (pre ++ s) idx = search periodPattern s (List.length pre + idx).
Proof.
  revert idx. induction pre as [|c pre IH]; intros idx H; [reflexivity|].
  cbn [forallb] in H. apply andb_prop in H. destruct H as [Hc Hp].
  apply negb_true_iff in Hc.
  change ((c :: pre) ++ s) with (c :: (pre ++ s)). cbn [search].
  rewrite (@matchAt_period_no_digit c (pre ++ s) Hc), (IH _ Hp). f_equal.
  cbn [List.length]. lia.
Qed.

Lemma length_list_ascii (s : string) :
  List.length (list_ascii_of_string s) = String.length s.
Proof. induction s as [|c s IH]; cbn; congruence. Qed.

(** A search finds the leftmost match: where the pattern matches after
    [pre], the match found starts in [pre] or right after it. *)
Lemma search_leftmost (r : re) (pre s : list ascii) (idx : nat)
    (x : list ascii * caps) :
  matchAt r s = Some x ->
  exists f, search r (pre ++ s) idx = Some f /\ (index f <= idx + List.length pre)%nat.
Proof.
  intros Hx. revert idx. induction pre as [|c pre IH]; intros idx.
  - cbn [app]. destruct s as [|c s]; cbn [search]; rewrite Hx; destruct x as [rest cs];
      eexists; (split; [reflexivity|]); cbn [index List.length]; lia.
  - change ((c :: pre) ++ s) with (c :: (pre ++ s)). cbn [search].
    destruct (matchAt r (c :: pre ++ s)) as [[rest cs]|].
    + eexists. split; [reflexivity|]. cbn [index]. lia.
    + destruct (IH (S idx)) as (f & Hf & Hi). exists f. split; [exact Hf|].
      cbn [List.length]. lia.
Qed.

(** With no digit before the phrase, the first pattern's match is the
    one in the phrase. *)
Lemma exec_phrase_first (pre post : string) :
  noDigit pre = true ->
  exists f, exec periodPattern (pre ++ phrase ++ post)%string = Some f /\
            index f = String.length pre /\
            capturedText f 50 = "12-month warranty"%string.
Proof.
  intros H. unfold exec. rewrite !list_ascii_app. unfold noDigit in H.
  rewrite (@search_period_skip _ _ 0%nat H).
  set (p := list_ascii_of_string post).
  assert (E : search periodPattern (list_ascii_of_string phrase ++ p)
                     (List.length (list_ascii_of_string pre) + 0)
              = Some {| index := List.length (list_ascii_of_string pre) + 0;
                        whole := firstn (List.length (list_ascii_of_string phrase ++ p)
                                         - List.length (list_ascii_of_string " on parts" ++ p))
                                        (list_ascii_of_string phrase ++ p);
                        groups := [(1%nat, list_ascii_of_string "12-month warranty")] |}).
  { change (list_ascii_of_string phrase ++ p)
      with ("1"%char :: (list_ascii_of_string "2-month warranty on parts" ++ p)) at 1.
    cbn [search].
    change ("1"%char :: (list_ascii_of_string "2-month warranty on parts" ++ p))
      with (list_ascii_of_string phrase ++ p).
    now rewrite matchAt_phrase. }
  rewrite E. eexists. split; [reflexivity|]. split.
  - cbn [index]. rewrite Nat.add_0_r. apply length_list_ascii.
  - vm_compute. reflexivity.
Qed.

Lemma exec_phrase_leftmost (pre post : string) :
  exists f, exec periodPattern (pre ++ phrase ++ post)%string = Some f /\
            (index f <= String.length pre)%nat.
Proof.
  unfold exec. rewrite !list_ascii_app.
  destruct (@search_leftmost periodPattern (list_ascii_of_string pre)
              (list_ascii_of_string phrase ++ list_ascii_of_string post) 0%nat _
              (matchAt_phrase (list_ascii_of_string post))) as (f & Hf & Hi).
  exists f. split; [exact Hf|]. now rewrite length_list_ascii in Hi.
Qed.

(** A text in which a guarantee of five years comes before the
    phrase. *)
Definition lidText : string := "5 year guarantee on the lid. 12-month warranty on parts".

(** C8, as stated, fails: the text below contains "12-month warranty on
    parts" and no negative phrase, the page has no scripts, and the
    warranty text is "5 year guarantee", which does not contain
    "12-month warranty". *)
Lemma C8_an_earlier_period_gives_the_text :
  lidText = ("5 year guarantee on the lid. " ++ phrase ++ "")%string /\
  test warrantyNegative (Str.toLowerCase lidText) = false /\
  (forall jsString jsonStringify : value -> string,
     extractProductDetails jsString jsonStringify lidText []
     = {| hasWarranty := true; warrantyText := Some "5 year guarantee"%string |}) /\
  Str.includes "5 year guarantee" "12-month warranty" = false.
Proof.
  split; [reflexivity|]. split; [vm_compute; reflexivity|].
  split; [intros; vm_compute; reflexivity|vm_compute; reflexivity].
Qed.

(** C8, amended.  When the negative pattern matches the lower-cased page
    text the positive patterns are not run: the text tier finds no
    warranty, and what [extractProductDetails] returns is what the JSON-LD
    scripts alone give.  The negative pattern matches every text that
    contains "no warranty" or "void the warranty".  The text "This product
    has no warranty", on a page without scripts, gives
    [hasWarranty = false].  A text that contains "12-month warranty on
    parts" and that the negative pattern does not match gives
    [hasWarranty = true], whatever the scripts, and the warranty text is
    that of the leftmost match of the first pattern, which starts at or
    before the phrase; it is "12-month warranty" when no digit comes
    before the phrase, and so when the phrase is the whole text. *)
Theorem C8_warranty_negative_guard (jsString jsonStringify : value -> string) :
  (forall text blocks,
     test warrantyNegative (Str.toLowerCase text) = true ->
     warrantyFromText text = noWarranty /\
     extractProductDetails jsString jsonStringify text blocks
     = fold_left (blockStep jsString jsonStringify) blocks noWarranty) /\
  (forall pre post,
     test warrantyNegative (Str.toLowerCase (pre ++ "no warranty" ++ post)%string) = true /\
     test warrantyNegative (Str.toLowerCase (pre ++ "void the warranty" ++ post)%string) = true) /\
  extractProductDetails jsString jsonStringify "This product has no warranty" [] = noWarranty /\
  (forall pre post blocks,
     test warrantyNegative (Str.toLowerCase (pre ++ phrase ++ post)%string) = false ->
     hasWarranty (extractProductDetails jsString jsonStringify (pre ++ phrase ++ post)%string
                                        blocks) = true /\
     exists f,
       exec periodPattern (pre ++ phrase ++ post)%string = Some f /\
       (index f <= String.length pre)%nat /\
       warrantyText (extractProductDetails jsString jsonStringify
                       (pre ++ phrase ++ post)%string blocks)
       = Some (capturedText f 50)) /\
  (forall pre post blocks,
     noDigit pre = true ->
     test warrantyNegative (Str.toLowerCase (pre ++ phrase ++ post)%string) = false ->
     extractProductDetails jsString jsonStringify (pre ++ phrase ++ post)%string blocks
     = {| hasWarranty := true; warrantyText := Some "12-month warranty"%string |}) /\
  extractProductDetails jsString jsonStringify phrase []
  = {| hasWarranty := true; warrantyText := Some "12-month warranty"%string |}.
Proof.
  split; [|split; [|split; [|split; [|split]]]].
  - intros text blocks H.
    assert (E : warrantyFromText text = noWarranty)
      by (unfold warrantyFromText; now rewrite H).
    split; [exact E|]. unfold extractProductDetails. now rewrite E.
  - intros pre post. rewrite !toLowerCase_app. split.
    + eapply test_inside; [apply matchAt_no_warranty|reflexivity].
    + eapply test_inside; [apply matchAt_void_the_warranty|reflexivity].
  - vm_compute. reflexivity.
  - intros pre post blocks H. unfold extractProductDetails, warrantyFromText.
    rewrite H. cbn [negb].
    destruct (exec_phrase_leftmost pre post) as (f & Hf & Hi).
    rewrite (firstMatch_period _ Hf).
    rewrite blocks_kept by reflexivity.
    split; [reflexivity|]. exists f. repeat split; assumption.
  - intros pre post blocks Hd H. unfold extractProductDetails, warrantyFromText.
    rewrite H. cbn [negb].
    destruct (@exec_phrase_first pre post Hd) as (f & Hf & _ & Hc).
    rewrite (firstMatch_period _ Hf).
    rewrite blocks_kept by reflexivity.
    unfold found_. now rewrite Hc.
  - vm_compute. reflexivity.
Qed.

(** The phrase after a sentence without digits, on a page whose only
    script declares another warranty. *)
Definition coveredText : string := "Covered: 12-month warranty on parts. Ships free.".

Definition warrantyScript : value :=
  VObj [ ("@type", VStr "Product"); ("warranty", VStr "2 years") ].

Lemma C8_warranty_negative_guard_witness :
  noDigit "Covered: " = true /\
  test warrantyNegative (Str.toLowerCase coveredText) = false /\
  extractProductDetails (fun _ => ""%string) (fun _ => ""%string) coveredText
                        [Some warrantyScript]
  = {| hasWarranty := true; warrantyText := Some "12-month warranty"%string |}.
Proof.
  assert (Hd : noDigit "Covered: " = true) by (vm_compute; reflexivity).
  assert (Hn : test warrantyNegative (Str.toLowerCase coveredText) = false)
    by (vm_compute; reflexivity).
  split; [exact Hd|]. split; [exact Hn|].
  destruct (C8_warranty_negative_guard (fun _ => ""%string) (fun _ => ""%string))
    as (_ & _ & _ & _ & H & _).
  exact (@H "Covered: "%string ". Ships free."%string [Some warrantyScript] Hd Hn).
Defined.

End DetailsSpec.

(* ================================================================== *)
(** * Facts about the rounding of doubles                               *)
(* ================================================================== *)

Module F64Facts.

Import JS F64 JSFacts.
Local Open Scope Q_scope.

Lemma pow2_pos (e : Z) : 0 < pow2 e.
Proof. apply Qpower_0_lt. reflexivity. Qed.

Lemma pow2_add (a b : Z) : pow2 (a + b) == pow2 a * pow2 b.
Proof. apply Qpower_plus. discriminate. Qed.

Lemma pow2_Z (n : Z) : (0 <= n)%Z -> pow2 n == inject_Z (2 ^ n).
Proof. intros H. unfold pow2. now rewrite (Zpower_Qpower 2 n H). Qed.

Lemma pow2_mono (a b : Z) : (a <= b)%Z -> pow2 a <= pow2 b.
Proof. intros H. apply Qpower_le_compat_l; [exact H|discriminate]. Qed.

Lemma pow2_neg (n : Z) : (0 <= n)%Z -> pow2 (- n) * inject_Z (2 ^ n) == 1.
Proof.
  intros H. rewrite <- (pow2_Z H), <- pow2_add.
  replace (- n + n)%Z with 0%Z by lia. reflexivity.
Qed.

(** [flog2] does not overshoot. *)
Lemma flog2_lower (x : Q) : 0 < x -> pow2 (flog2 x) <= x.
Proof.
  intros Hx. unfold flog2.
  set (k := (Z.log2 (Qnum x) - Z.log2 (Z.pos (Qden x)))%Z).
  destruct (Qle_bool (pow2 k) x) eqn:E; [now apply Qle_bool_iff|].
  destruct x as [n d]. cbn [Qnum Qden] in *.
  assert (Hn : (0 < n)%Z) by (unfold Qlt in Hx; cbn in Hx; lia).
  destruct (Z.log2_spec n Hn) as [Hn1 _].
  destruct (Z.log2_spec (Z.pos d) (Pos2Z.is_pos d)) as [_ Hd2].
  assert (H0 : (0 <= Z.log2 n)%Z) by apply Z.log2_nonneg.
  assert (H1 : (0 <= Z.succ (Z.log2 (Z.pos d)))%Z) by (generalize (Z.log2_nonneg (Z.pos d)); lia).
  replace (k - 1)%Z with (Z.log2 n + - Z.succ (Z.log2 (Z.pos d)))%Z by (unfold k; lia).
  rewrite pow2_add, (pow2_Z H0).
  set (A := (2 ^ Z.log2 n)%Z) in *. set (D := (2 ^ Z.succ (Z.log2 (Z.pos d)))%Z) in *.
  assert (HD : (0 < D)%Z) by (unfold D; apply Z.pow_pos_nonneg; lia).
  generalize (pow2_neg H1). fold D. intros Hinv.
  assert (Hp : 0 < pow2 (- Z.succ (Z.log2 (Z.pos d)))) by apply pow2_pos.
  set (P := pow2 (- Z.succ (Z.log2 (Z.pos d)))) in *.
  (* P = 1/D, A <= n, d < D *)
  assert (HDq : 0 < inject_Z D) by (change 0 with (inject_Z 0); now rewrite <- Zlt_Qlt).
  assert (HP : P == / inject_Z D).
  { apply (Qmult_inj_r _ _ (inject_Z D)); [lra|].
    rewrite Hinv. field. lra. }
  rewrite HP. rewrite (Qmake_Qdiv n d).
  unfold Qdiv.
  assert (0 < inject_Z (Z.pos d)) by reflexivity.
  apply Qle_trans with (inject_Z n * / inject_Z D).
  - apply Qmult_le_compat_r; [now rewrite <- Zle_Qle|].
    apply Qlt_le_weak, Qinv_lt_0_compat. exact HDq.
  - rewrite !(Qmult_comm (inject_Z n)).
    apply Qmult_le_compat_r; [|change 0 with (inject_Z 0); rewrite <- Zle_Qle; lia].
    apply Qle_shift_inv_l; [assumption|].
    rewrite Qmult_comm. apply Qle_shift_div_r; [assumption|].
    rewrite Qmult_1_l. rewrite <- Zle_Qle. lia.
Qed.

(** [rne] is between the floor and the next integer. *)
Lemma rne_cases (y : Q) : rne y = Qfloor y \/ (rne y = (Qfloor y + 1)%Z /\ (1 # 2) <= y - inject_Z (Qfloor y)).
Proof.
  unfold rne. destruct (Qcompare_spec (y - inject_Z (Qfloor y)) (1 # 2)) as [H|H|H].
  - destruct (Z.even (Qfloor y)); [now left|right]. split; [reflexivity|]. rewrite H. apply Qle_refl.
  - now left.
  - right. split; [reflexivity|]. now apply Qlt_le_weak.
Qed.

Lemma rne_le (y : Q) (t : Z) : y <= inject_Z t -> (rne y <= t)%Z.
Proof.
  intros H. generalize (Qfloor_le y) (Qfloor_resp_le _ _ H). rewrite Qfloor_Z. intros Hf Hft.
  destruct (rne_cases y) as [->|[-> Hr]]; [exact Hft|].
  destruct (Z.eq_dec (Qfloor y) t) as [E|]; [|lia].
  exfalso. rewrite E in Hr. lra.
Qed.

Lemma rne_nonneg (y : Q) : 0 <= y -> (0 <= rne y)%Z.
Proof.
  intros H. assert (0 <= Qfloor y)%Z by (change 0%Z with (Qfloor 0); now apply Qfloor_resp_le).
  destruct (rne_cases y) as [->|[-> _]]; lia.
Qed.

Lemma rne_Z (t : Z) : rne (inject_Z t) = t.
Proof.
  unfold rne. rewrite Qfloor_Z.
  destruct (Qcompare_spec (inject_Z t - inject_Z t) (1 # 2)) as [H|H|H]; [lra|reflexivity|lra].
Qed.

(** A bound or value that is a double for sure: [n / 2^k] with a
    mantissa [n] of at most 53 bits. *)
Definition fits (b : Q) : Prop :=
  exists n k : Z,
    (0 <= n < 2 ^ 53)%Z /\ (0 <= k <= 1074)%Z /\ b == inject_Z n / inject_Z (2 ^ k).

(** The last place of a number under such a bound is a divisor of the
    bound. *)
Lemma expo_le (x : Q) (n k : Z) :
  0 < x -> (0 <= n < 2 ^ 53)%Z -> (0 <= k <= 1074)%Z ->
  x <= inject_Z n / inject_Z (2 ^ k) -> (expo x <= - k)%Z.
Proof.
  intros Hx Hn Hk Hb. unfold expo.
  apply Z.max_lub; [|lia].
  destruct (Z_le_gt_dec (flog2 x - 52) (- k)) as [|Hgt]; [assumption|exfalso].
  assert (Hl : (53 - k <= flog2 x)%Z) by lia.
  generalize (flog2_lower Hx) (pow2_mono Hl). intros H1 H2.
  assert (HK : 0 < inject_Z (2 ^ k)).
  { change 0 with (inject_Z 0). rewrite <- Zlt_Qlt. apply Z.pow_pos_nonneg; lia. }
  assert (H3 : pow2 (53 - k) * inject_Z (2 ^ k) == inject_Z (2 ^ 53)).
  { replace (53 - k)%Z with (53 + - k)%Z by lia.
    rewrite pow2_add, <- Qmult_assoc, (pow2_neg (proj1 Hk)), Qmult_1_r.
    now rewrite (pow2_Z (n := 53)). }
  assert (H4 : x * inject_Z (2 ^ k) <= inject_Z n).
  { apply Qle_trans with (inject_Z n / inject_Z (2 ^ k) * inject_Z (2 ^ k)).
    - apply Qmult_le_compat_r; [assumption|lra].
    - apply Qle_lteq. right. field. lra. }
  assert (H5 : pow2 (53 - k) * inject_Z (2 ^ k) <= x * inject_Z (2 ^ k)).
  { apply Qmult_le_compat_r; [lra|lra]. }
  rewrite H3 in H5. assert (H6 : inject_Z (2 ^ 53) <= inject_Z n) by lra.
  rewrite <- Zle_Qle in H6. lia.
Qed.

(** Under such a bound, the bound is a whole number of last places. *)
Lemma bound_in_last_places (e n k : Z) :
  (e <= - k)%Z -> (0 <= k)%Z ->
  inject_Z n / inject_Z (2 ^ k) == inject_Z (n * 2 ^ (- k - e)) * pow2 e.
Proof.
  intros He Hk.
  assert (HK : 0 < inject_Z (2 ^ k)).
  { change 0 with (inject_Z 0). rewrite <- Zlt_Qlt. apply Z.pow_pos_nonneg; lia. }
  assert (Hp : pow2 e * inject_Z (2 ^ (- k - e)) * inject_Z (2 ^ k) == 1).
  { rewrite <- Qmult_assoc, <- inject_Z_mult, <- Z.pow_add_r by lia.
    replace (- k - e + k)%Z with (- e)%Z by lia.
    replace e with (- - e)%Z at 1 by lia. apply pow2_neg. lia. }
  rewrite inject_Z_mult.
  apply (Qmult_inj_r _ _ (inject_Z (2 ^ k))); [lra|].
  transitivity (inject_Z n); [field; lra|].
  transitivity (inject_Z n * (pow2 e * inject_Z (2 ^ (- k - e)) * inject_Z (2 ^ k))).
  - rewrite Hp. ring.
  - ring.
Qed.

Lemma rndPos_nonneg (a : Q) : 0 <= a -> 0 <= rndPos a.
Proof.
  intros Ha. unfold rndPos. generalize (pow2_pos (expo a)). intros Hp.
  apply Qmult_le_0_compat; [|lra].
  change 0 with (inject_Z 0). rewrite <- Zle_Qle. apply rne_nonneg.
  apply Qle_shift_div_l; [assumption|]. lra.
Qed.

Lemma rndPos_le (x b : Q) : 0 < x -> x <= b -> fits b -> rndPos x <= b.
Proof.
  intros Hx Hb (n & k & Hn & Hk & E). rewrite E in Hb |- *.
  generalize (expo_le Hx Hn Hk Hb). intros He.
  rewrite (bound_in_last_places n He (proj1 Hk)) in Hb |- *.
  unfold rndPos. generalize (pow2_pos (expo x)). intros Hp.
  apply Qmult_le_compat_r; [|lra].
  rewrite <- Zle_Qle. apply rne_le.
  apply Qle_shift_div_r; [assumption|exact Hb].
Qed.

Lemma rne_comp (x y : Q) : x == y -> rne x = rne y.
Proof.
  intros H. unfold rne. rewrite (Qfloor_comp _ _ H).
  assert (E : x - inject_Z (Qfloor y) == y - inject_Z (Qfloor y)) by now rewrite H.
  now rewrite (Qcompare_comp _ _ E _ _ (Qeq_refl (1 # 2))).
Qed.

(** A double is not moved. *)
Lemma rndPos_exact (b : Q) : 0 < b -> fits b -> rndPos b == b.
Proof.
  intros Hb0 (n & k & Hn & Hk & E).
  assert (Hb : b <= inject_Z n / inject_Z (2 ^ k)) by (rewrite E; apply Qle_refl).
  generalize (expo_le Hb0 Hn Hk Hb). intros He.
  unfold rndPos. set (e := expo b) in *. generalize (pow2_pos e). intros Hp.
  generalize (bound_in_last_places n He (proj1 Hk)). intros Hl.
  assert (Hq : b / pow2 e == inject_Z (n * 2 ^ (- k - e))).
  { rewrite E, Hl. field. lra. }
  rewrite (rne_comp Hq), rne_Z. rewrite <- Hl. symmetry. exact E.
Qed.

Lemma fits_nonneg (b : Q) : fits b -> 0 <= b.
Proof.
  intros (n & k & Hn & Hk & ->).
  apply Qle_shift_div_l.
  - change 0 with (inject_Z 0). rewrite <- Zlt_Qlt. apply Z.pow_pos_nonneg; lia.
  - rewrite Qmult_0_l. change 0 with (inject_Z 0). rewrite <- Zle_Qle. lia.
Qed.

Lemma rnd_nonneg (x : Q) : 0 <= x -> 0 <= rnd x.
Proof.
  intros H. unfold rnd. destruct (Qeq_bool x 0); [apply Qle_refl|].
  destruct (Qle_bool 0 x) eqn:E; [now apply rndPos_nonneg|].
  apply Qle_bool_iff in H. congruence.
Qed.

(** Rounding does not cross a double. *)
Lemma rnd_le (x b : Q) : x <= b -> fits b -> rnd x <= b.
Proof.
  intros H Hb. generalize (fits_nonneg Hb). intros Hb0. unfold rnd.
  destruct (Qeq_bool x 0) eqn:E0; [exact Hb0|]. apply Qeq_bool_neq in E0.
  destruct (Qle_bool 0 x) eqn:E.
  - apply Qle_bool_iff in E. apply rndPos_le; auto.
    destruct (Qlt_le_dec 0 x) as [|Hle]; [assumption|]. exfalso. apply E0. lra.
  - apply Qle_bool_false in E.
    assert (0 <= rndPos (- x)) by (apply rndPos_nonneg; lra). lra.
Qed.

Lemma rnd_exact (b : Q) : fits b -> rnd b == b.
Proof.
  intros Hb. generalize (fits_nonneg Hb). intros Hb0. unfold rnd.
  destruct (Qeq_bool b 0) eqn:E0; [apply Qeq_bool_iff in E0; now rewrite E0|].
  apply Qeq_bool_neq in E0.
  assert (E : Qle_bool 0 b = true) by now apply Qle_bool_iff.
  rewrite E. apply rndPos_exact; [|assumption].
  destruct (Qlt_le_dec 0 b) as [|Hle]; [assumption|]. exfalso. apply E0. lra.
Qed.


Lemma fits_lt (b : Q) : fits b -> b < inject_Z (2 ^ 53).
Proof.
  intros (n & k & Hn & Hk & ->).
  assert (HK : 0 < inject_Z (2 ^ k)).
  { change 0 with (inject_Z 0). rewrite <- Zlt_Qlt. apply Z.pow_pos_nonneg; lia. }
  apply Qlt_shift_div_r; [assumption|].
  rewrite <- inject_Z_mult, <- Zlt_Qlt.
  assert (0 < 2 ^ k)%Z by (apply Z.pow_pos_nonneg; lia).
  nia.
Qed.

Lemma fits_Z (z : Z) : (0 <= z < 2 ^ 53)%Z -> fits (inject_Z z).
Proof.
  intros H. exists z, 0%Z. repeat split; try lia.
  change (inject_Z (2 ^ 0)) with 1. field.
Qed.

(** The result of an operation whose exact value is not negative and is
    under a double: it is a number between the two. *)
Lemma mk_bounds (x b : Q) :
  0 <= x -> x <= b -> fits b -> exists v, mk x = Num v /\ 0 <= v /\ v <= b.
Proof.
  intros H0 Hb Hf. unfold mk.
  generalize (rnd_nonneg H0) (rnd_le Hb Hf) (fits_lt Hf). intros Hr0 Hrb Hlt.
  assert (Hbig : inject_Z (2 ^ 53) < pow2 1024).
  { rewrite (pow2_Z (n := 1024)) by lia. rewrite <- Zlt_Qlt. reflexivity. }
  assert (Hp : 0 < pow2 1024) by apply pow2_pos.
  destruct (Qle_bool (pow2 1024) (rnd x)) eqn:E1; [apply Qle_bool_iff in E1; lra|].
  destruct (Qle_bool (rnd x) (- pow2 1024)) eqn:E2; [apply Qle_bool_iff in E2; lra|].
  cbn [orb]. exists (Qred (rnd x)). split; [reflexivity|].
  rewrite Qred_correct. split; assumption.
Qed.

(** The result of an operation whose exact value is a double. *)
Lemma mk_exact (b : Q) : fits b -> mk b = Num (Qred b).
Proof.
  intros Hf. generalize (rnd_exact Hf). intros E.
  destruct (@mk_bounds b b (fits_nonneg Hf) (Qle_refl b) Hf) as (v & Hv & _).
  unfold mk in *.
  destruct (Qle_bool (pow2 1024) (rnd b) || Qle_bool (rnd b) (- pow2 1024));
    [discriminate|].
  f_equal. now apply Qred_complete.
Qed.

(** The least multiple of [2^-20] that is not under [x]: a bound that is
    a double when [x] is at most [2^32]. *)
Definition up (x : Q) : Q := inject_Z (Qceiling (x * inject_Z (2 ^ 20))) / inject_Z (2 ^ 20).

Lemma up_ge (x : Q) : x <= up x.
Proof.
  unfold up. apply Qle_shift_div_l; [reflexivity|]. apply Qle_ceiling.
Qed.

Lemma up_fits (x : Q) : 0 <= x -> x <= inject_Z (2 ^ 32) -> fits (up x).
Proof.
  intros H0 H1. exists (Qceiling (x * inject_Z (2 ^ 20))), 20%Z.
  split; [|split; [lia|reflexivity]].
  split.
  - change 0%Z with (Qceiling 0). apply Qceiling_resp_le.
    apply Qmult_le_0_compat; [assumption|discriminate].
  - apply Z.le_lt_trans with (2 ^ 52)%Z; [|reflexivity].
    rewrite <- (Qceiling_Z (2 ^ 52)). apply Qceiling_resp_le.
    change (inject_Z (2 ^ 52)) with (inject_Z (2 ^ 32) * inject_Z (2 ^ 20)).
    apply Qmult_le_compat_r; [assumption|discriminate].
Qed.

Lemma mk_up (x : Q) :
  0 <= x -> x <= inject_Z (2 ^ 32) -> exists v, mk x = Num v /\ 0 <= v /\ v <= up x.
Proof.
  intros H0 H1. apply mk_bounds; [assumption|apply up_ge|now apply up_fits].
Qed.

(** *** The rounding error *)

Lemma rne_err (y : Q) :
  inject_Z (rne y) - y <= 1 # 2 /\ y - inject_Z (rne y) <= 1 # 2.
Proof.
  generalize (Qfloor_le y) (Qlt_floor y). rewrite inject_Z_plus.
  change (inject_Z 1) with 1. intros H0 H1. unfold rne.
  destruct (Qcompare_spec (y - inject_Z (Qfloor y)) (1 # 2)) as [H|H|H].
  - destruct (Z.even (Qfloor y)); [|rewrite inject_Z_plus; change (inject_Z 1) with 1];
      split; lra.
  - split; lra.
  - rewrite inject_Z_plus. change (inject_Z 1) with 1. split; lra.
Qed.

(** A positive number is rounded to within half a unit of its last
    place. *)
Lemma rndPos_err (x : Q) (e : Z) :
  0 < x -> (expo x <= e)%Z ->
  rndPos x - x <= pow2 e * (1 # 2) /\ x - rndPos x <= pow2 e * (1 # 2).
Proof.
  intros Hx He. unfold rndPos.
  generalize (pow2_pos (expo x)) (pow2_mono He). set (P := pow2 (expo x)). intros HP HPe.
  destruct (rne_err (x / P)) as [H1 H2]. set (r := inject_Z (rne (x / P))) in *.
  assert (E : x == x / P * P) by (field; lra).
  set (z := x / P) in *.
  assert (Ha : (r - z) * P <= (1 # 2) * P) by (apply Qmult_le_compat_r; lra).
  assert (Hb : (z - r) * P <= (1 # 2) * P) by (apply Qmult_le_compat_r; lra).
  split; nra.
Qed.

(** The result of an operation whose exact value [x] is from 0 to
    [n / 2^k], with [n] under [2^53]: a number in that range, within
    [2^-k / 2] of [x]. *)
Lemma mk_err (x : Q) (n k : Z) :
  0 <= x -> (0 <= n < 2 ^ 53)%Z -> (0 <= k <= 1074)%Z ->
  x <= inject_Z n / inject_Z (2 ^ k) ->
  exists v, mk x = Num v /\ 0 <= v /\ v <= inject_Z n / inject_Z (2 ^ k) /\
            v - x <= pow2 (- k) * (1 # 2) /\ x - v <= pow2 (- k) * (1 # 2).
Proof.
  intros H0 Hn Hk Hb.
  assert (Hf : fits (inject_Z n / inject_Z (2 ^ k))) by (exists n, k; repeat split; try lia).
  generalize (rnd_nonneg H0) (rnd_le Hb Hf) (fits_lt Hf). intros Hr0 Hrb Hlt.
  assert (Hbig : inject_Z (2 ^ 53) < pow2 1024).
  { rewrite (pow2_Z (n := 1024)) by lia. rewrite <- Zlt_Qlt. reflexivity. }
  generalize (pow2_pos 1024) (pow2_pos (- k)). intros Hp Hpk.
  unfold mk.
  destruct (Qle_bool (pow2 1024) (rnd x)) eqn:E1; [apply Qle_bool_iff in E1; lra|].
  destruct (Qle_bool (rnd x) (- pow2 1024)) eqn:E2; [apply Qle_bool_iff in E2; lra|].
  cbn [orb]. exists (Qred (rnd x)). split; [reflexivity|].
  rewrite Qred_correct. split; [assumption|]. split; [assumption|].
  unfold rnd. destruct (Qeq_bool x 0) eqn:Ez.
  - apply Qeq_bool_iff in Ez. split; lra.
  - apply Qeq_bool_neq in Ez.
    assert (Hx : 0 < x).
    { destruct (Qlt_le_dec 0 x) as [|Hle]; [assumption|]. exfalso. apply Ez. lra. }
    assert (E : Qle_bool 0 x = true) by now apply Qle_bool_iff.
    rewrite E. apply rndPos_err; [assumption|]. now apply (expo_le Hx Hn Hk).
Qed.

End F64Facts.

(* ================================================================== *)
(** * The rounding against the library's binary64                       *)
(* ================================================================== *)

(** [SpecFloat] holds the standard library's specification of the
    IEEE 754 operations, in the format [prec = 53], [emax = 1024] of a
    double.  On the products, quotients and sums of a grid of numbers,
    the operands of the claims among them, [F64] and that specification
    give the same double. *)
Module F64Check.

Import JS.
Local Open Scope Q_scope.

Definition prec : Z := 53.
Definition emax : Z := 1024.

(** The integer [z] as a double. *)
Definition ofInt (z : Z) : SpecFloat.spec_float :=
  SpecFloat.binary_normalize prec emax z 0 false.

(** The rational a finite double is. *)
Definition toQ (f : SpecFloat.spec_float) : option Q :=
  match f with
  | SpecFloat.S754_zero _ => Some 0
  | SpecFloat.S754_finite s m e =>
      Some ((if s then - (1) else 1) * inject_Z (Z.pos m) * F64.pow2 e)
  | _ => None
  end.

Definition same (f : SpecFloat.spec_float) (x : num) : bool :=
  match toQ f, x with
  | Some a, Num b => Qeq_bool a b
  | _, _ => false
  end.

Definition sdiv := SpecFloat.SFdiv prec emax.
Definition smul := SpecFloat.SFmul prec emax.
Definition sadd := SpecFloat.SFadd prec emax.

Definition numerators : list Z :=
  [0; 1; 2; 3; 5; 7; 12; 13; 23; 35; 45; 47; 58; 85; 99; 100; 12345; 99999989]%Z.

Definition denominators : list Z :=
  [1; 3; 4; 7; 10; 14; 23; 30; 47; 70; 100; 997; 1000003]%Z.

Definition factors : list Z := [3; 8; 10; 25; 35; 45; 100]%Z.

Definition pairs : list (Z * Z) :=
  flat_map (fun a => List.map (fun b => (a, b)) denominators) numerators.

(** [a / b]. *)
Definition checkDiv : bool :=
  forallb (fun ab => same (sdiv (ofInt (fst ab)) (ofInt (snd ab)))
                          (F64.div (ofZ (fst ab)) (ofZ (snd ab)))) pairs.

(** [c * (a / b)] and [(a / b) * c]. *)
Definition checkMul : bool :=
  forallb (fun ab =>
    forallb (fun c =>
      same (smul (ofInt c) (sdiv (ofInt (fst ab)) (ofInt (snd ab))))
           (F64.mul (ofZ c) (F64.div (ofZ (fst ab)) (ofZ (snd ab)))) &&
      same (smul (sdiv (ofInt (fst ab)) (ofInt (snd ab))) (ofInt c))
           (F64.mul (F64.div (ofZ (fst ab)) (ofZ (snd ab))) (ofZ c))) factors) pairs.

(** [c / 100 + a / b], the decimal [c / 100] read as a double. *)
Definition checkAdd : bool :=
  forallb (fun ab =>
    forallb (fun c =>
      same (sadd (sdiv (ofInt c) (ofInt 100)) (sdiv (ofInt (fst ab)) (ofInt (snd ab))))
           (F64.add (F64.dec c 100) (F64.div (ofZ (fst ab)) (ofZ (snd ab))))) factors) pairs.

(** Subnormal results: [(a / b) * 2^-1070]. *)
Definition tiny : SpecFloat.spec_float := SpecFloat.S754_finite false (2 ^ 52) (- (1122)).

Definition checkTiny : bool :=
  forallb (fun ab =>
    same (smul (sdiv (ofInt (fst ab)) (ofInt (snd ab))) tiny)
         (F64.mul (F64.div (ofZ (fst ab)) (ofZ (snd ab))) (Num (F64.pow2 (- (1070)))))) pairs.

Lemma rounding_agrees_with_binary64 :
  checkDiv = true /\ checkMul = true /\ checkAdd = true /\ checkTiny = true.
Proof. repeat split; vm_compute; reflexivity. Qed.

End F64Check.

(* ================================================================== *)
(** * The bound on the points of a factor                               *)
(* ================================================================== *)

Module ScoringBounds.

Import JS Weights Extraction Scoring Scoring64 JSFacts F64Facts Pages.
Local Open Scope Q_scope.

(** [x] is a number between [lo] and [hi]. *)
Definition numIn (lo hi : Q) (x : num) : Prop :=
  exists v : Q, x = Num v /\ lo <= v /\ v <= hi.

(** A sub-score of the extractors: a number from 0 to 100, or [NaN]
    (which the engine reads as absent). *)
Definition subscore (x : num) : Prop :=
  match x with
  | Num v => 0 <= v /\ v <= 100
  | NaN => True
  end.

Definition fraction (x : num) : Prop :=
  match x with
  | Num v => 0 <= v /\ v <= 1
  | NaN => True
  end.

Lemma inj_nonneg (w : Z) : (0 <= w)%Z -> 0 <= inject_Z w.
Proof. intros H. rewrite Zle_Qle in H. exact H. Qed.

Lemma numIn_weaken (lo hi hi' : Q) (x : num) : numIn lo hi x -> hi <= hi' -> numIn lo hi' x.
Proof. intros (v & -> & H0 & H1) H. exists v. repeat split; auto. lra. Qed.

Lemma numIn_Num (v : Q) : 0 <= v -> numIn 0 v (Num v).
Proof. intros H. exists v. repeat split; [assumption|apply Qle_refl]. Qed.

Lemma numIn_mk (x b : Q) : 0 <= x -> x <= b -> fits b -> numIn 0 b (F64.mk x).
Proof. intros H0 H1 Hf. exact (mk_bounds H0 H1 Hf). Qed.

(** The product of two numbers under bounds, rounded as a double is, is
    under any double the product of the bounds is under. *)
Lemma numIn_mul_le (b h1 h2 : Q) (x y : num) :
  numIn 0 h1 x -> numIn 0 h2 y -> h1 * h2 <= b -> fits b -> numIn 0 b (mul x y).
Proof.
  intros (u & -> & Hu0 & Hu1) (v & -> & Hv0 & Hv1) Hb Hf. apply numIn_mk; [| |assumption].
  - now apply Qmult_le_0_compat.
  - apply Qle_trans with (h1 * h2); [|assumption].
    apply Qle_trans with (u * h2).
    + rewrite !(Qmult_comm u). apply Qmult_le_compat_r; auto.
    + apply Qmult_le_compat_r; auto. lra.
Qed.

Lemma numIn_mul (h1 h2 : Q) (x y : num) :
  numIn 0 h1 x -> numIn 0 h2 y -> h1 * h2 <= inject_Z (2 ^ 32) ->
  numIn 0 (up (h1 * h2)) (mul x y).
Proof.
  intros Hx Hy H. apply (numIn_mul_le Hx Hy); [apply up_ge|].
  apply up_fits; [|assumption].
  destruct Hx as (u & _ & Hu0 & Hu1), Hy as (v & _ & Hv0 & Hv1).
  apply Qmult_le_0_compat; lra.
Qed.

Lemma numIn_add_le (b h1 h2 : Q) (x y : num) :
  numIn 0 h1 x -> numIn 0 h2 y -> h1 + h2 <= b -> fits b -> numIn 0 b (add x y).
Proof.
  intros (u & -> & Hu0 & Hu1) (v & -> & Hv0 & Hv1) Hb Hf. apply numIn_mk; [| |assumption]; lra.
Qed.

Lemma numIn_add (h1 h2 : Q) (x y : num) :
  numIn 0 h1 x -> numIn 0 h2 y -> h1 + h2 <= inject_Z (2 ^ 32) ->
  numIn 0 (up (h1 + h2)) (add x y).
Proof.
  intros Hx Hy H. apply (numIn_add_le Hx Hy); [apply up_ge|].
  apply up_fits; [|assumption].
  destruct Hx as (u & _ & Hu0 & Hu1), Hy as (v & _ & Hv0 & Hv1). lra.
Qed.

Lemma numIn_div_le (b h d : Q) (x : num) :
  numIn 0 h x -> 0 < d -> h / d <= b -> fits b -> numIn 0 b (div x (Num d)).
Proof.
  intros (u & -> & Hu0 & Hu1) Hd Hb Hf. unfold div, F64.div.
  destruct (Qeq_bool d 0) eqn:E; [apply Qeq_bool_iff in E; lra|].
  apply numIn_mk; [| |assumption].
  - apply Qle_shift_div_l; [assumption|lra].
  - apply Qle_trans with (h / d); [|assumption].
    unfold Qdiv. apply Qmult_le_compat_r; [assumption|].
    apply Qlt_le_weak, Qinv_lt_0_compat. assumption.
Qed.

Lemma numIn_div (h d : Q) (x : num) :
  numIn 0 h x -> 0 < d -> h / d <= inject_Z (2 ^ 32) -> numIn 0 (up (h / d)) (div x (Num d)).
Proof.
  intros Hx Hd H. apply (numIn_div_le Hx Hd); [apply up_ge|].
  apply up_fits; [|assumption].
  destruct Hx as (u & _ & Hu0 & Hu1).
  apply Qle_shift_div_l; [assumption|lra].
Qed.

(** [Math.round] of a number under a bound is under the rounded
    bound. *)
Lemma numIn_round (h : Q) (x : num) :
  numIn 0 h x -> numIn 0 (inject_Z (roundQ h)) (round x).
Proof.
  intros (a & -> & H0 & H1). exists (inject_Z (roundQ a)). split; [reflexivity|]. split.
  - apply inj_nonneg. now apply roundQ_nonneg.
  - rewrite <- Zle_Qle. now apply roundQ_mono.
Qed.

(** [Math.min(w, y)] of a number [y] that is not negative is between 0
    and [w]. *)
Lemma numIn_min_cap (w h : Q) (y : num) :
  0 <= w -> numIn 0 h y -> numIn 0 w (min (Num w) y).
Proof.
  intros Hw (b & -> & Hb & _). unfold min.
  destruct (Qle_bool w b) eqn:E.
  - exists (Qred w). split; [reflexivity|]. rewrite Qred_correct. split; [assumption|apply Qle_refl].
  - apply Qle_bool_false in E.
    exists (Qred b). split; [reflexivity|]. rewrite Qred_correct. split; lra.
Qed.

Lemma numIn_min_r (hx h : Q) (x y : num) :
  numIn 0 hx x -> numIn 0 h y -> numIn 0 h (min x y).
Proof.
  intros (a & -> & Ha & _) (b & -> & Hb0 & Hb1). unfold min.
  destruct (Qle_bool a b) eqn:E.
  - apply Qle_bool_iff in E.
    exists (Qred a). split; [reflexivity|]. rewrite Qred_correct. split; lra.
  - exists (Qred b). split; [reflexivity|]. rewrite Qred_correct. split; lra.
Qed.

Lemma fits_1 : fits 1.
Proof. apply (@fits_Z 1). split; [lia|reflexivity]. Qed.

(** A percentage of a weight: [(v / 100) * w], before it is rounded to
    an integer, is between 0 and the weight [w]. *)
Lemma numIn_percent (v : Q) (w : Z) :
  0 <= v -> v <= 100 -> (0 <= w < 2 ^ 53)%Z ->
  numIn 0 (inject_Z w) (mul (div (Num v) (ofZ 100)) (Num (w # 1))).
Proof.
  intros H0 H1 Hw.
  apply numIn_mul_le with (h1 := 1) (h2 := inject_Z w).
  - apply numIn_div_le with (h := 100).
    + exists v. repeat split; assumption.
    + reflexivity.
    + discriminate.
    + apply fits_1.
  - apply numIn_Num. apply inj_nonneg. lia.
  - rewrite Qmult_1_l. apply Qle_refl.
  - now apply fits_Z.
Qed.

(** [x ? Math.round((x / 100) * w) : 0] of a sub-score is between 0 and
    the integer [w]. *)
Lemma numIn_scaled (x : num) (w : Z) :
  subscore x -> (0 <= w < 2 ^ 53)%Z -> numIn 0 (inject_Z w) (scaled x (Num (w # 1))).
Proof.
  intros Hx Hw. unfold scaled.
  assert (Hz : numIn 0 (inject_Z w) (ofZ 0)).
  { exists 0. repeat split; [apply Qle_refl|]. apply inj_nonneg. lia. }
  destruct x as [|v]; cbn [JS.truthy]; [exact Hz|].
  destruct Hx as [H0 H1].
  destruct (negb (Qeq_bool v 0)); [|exact Hz].
  generalize (numIn_round (numIn_percent H0 H1 Hw)). now rewrite roundQ_Z.
Qed.

Lemma numIn_orZero (x : num) : fraction x -> numIn 0 1 (orZero x).
Proof.
  intros Hx. unfold orZero.
  assert (Hz : numIn 0 1 (ofZ 0)) by (exists 0; repeat split; discriminate).
  destruct x as [|v]; cbn [JS.truthy]; [exact Hz|].
  destruct (negb (Qeq_bool v 0)); [|exact Hz].
  destruct Hx. now exists v.
Qed.

(** The share of allowed crawlers. *)
Lemma numIn_share (a t : Z) :
  (0 <= a)%Z -> (a <= t)%Z -> (0 < t)%Z -> numIn 0 1 (div (ofZ a) (ofZ t)).
Proof.
  intros H0 H1 Ht. unfold ofZ.
  assert (0 < inject_Z t) by (change 0 with (inject_Z 0); now rewrite <- Zlt_Qlt).
  unfold div, F64.div. fold (inject_Z t). fold (inject_Z a).
  destruct (Qeq_bool (inject_Z t) 0) eqn:E; [apply Qeq_bool_iff in E; lra|].
  apply numIn_mk; [| |apply fits_1].
  - apply Qle_shift_div_l; [assumption|]. rewrite Qmult_0_l.
    rewrite Zle_Qle in H0. exact H0.
  - apply Qle_shift_div_r; [assumption|]. rewrite Qmult_1_l.
    rewrite Zle_Qle in H1. exact H1.
Qed.


(** *** The bound on a factor *)

(** How far a factor's points may exceed its maximum: the contextual
    Review Count factor is capped at [1.5] times its weight only, and with
    the [want] multiplier [1.4] it reaches [1.4] times it. *)
Definition cap (c : context) (n : string) : Q :=
  match c with
  | want => if String.eqb n "Review Count" then 7 # 5 else 1
  | _ => 1
  end.

(** A factor with a configured maximum has points between [0] and
    [cap * maxPoints]. *)
Definition bounded (c : context) (f : Factor) : Prop :=
  match maxPoints f with
  | Undefined => True
  | Number m =>
      exists p mq : Q,
        points f = Number (Num p) /\ m = Num mq /\ 0 <= p /\ p <= cap c (name f) * mq
  end.

(** What the extractors deliver: every sub-score is a percentage or
    absent, the alt coverage is a fraction or absent, and the readability
    score, when the page has text, is a percentage. *)
Record wellFormed (d : ExtractedData) : Prop := {
  wf_length : subscore (lengthScore (description (Extraction.contentQuality d)));
  wf_spec : subscore (specCountScore (specifications (Extraction.contentQuality d)));
  wf_feature : subscore (countScore (features (Extraction.contentQuality d)));
  wf_faq : subscore (countScore (faq (Extraction.contentQuality d)));
  wf_readability :
    match readabilityScore (Extraction.contentQuality d) with
    | Some (Num v) => 0 <= v /\ v <= 100
    | Some NaN => False
    | None => True
    end;
  wf_semantic : subscore (semanticScore (Extraction.contentStructure d));
  wf_ratio : subscore (ratioScore (Extraction.contentStructure d));
  wf_table : subscore (tableScore (Extraction.contentStructure d));
  wf_list : subscore (listScore (Extraction.contentStructure d));
  wf_alt : fraction (altCoverage (Extraction.contentStructure d));
  wf_js : subscore (jsScore (Extraction.contentStructure d));
  wf_reviewCount : subscore (reviewCountScore (reviews (trustSignals d)));
  wf_rating : subscore (ratingScore (reviews (trustSignals d)));
  wf_depth : subscore (depthScore (reviews (trustSignals d)));
  wf_brand : subscore (brandScore (brand (trustSignals d)));
  wf_cert : subscore (certScore (trustSignals d))
}.

Lemma bounded_mk (c : context) (n : string) (st : status) (p : num) (mq : Q)
    (crit cx : bool) :
  numIn 0 (cap c n * mq) p ->
  bounded c (mkFactor n st (Number p) (Number (Num mq)) crit cx).
Proof.
  intros (v & -> & H0 & H1). unfold bounded. cbn [maxPoints points name mkFactor].
  exists v, mq. auto.
Qed.

Ltac qle := apply Qle_bool_imp_le; vm_compute; reflexivity.

Ltac small := split; [lia | reflexivity].

(** A closed numeric expression is evaluated. *)
Ltac conc :=
  lazymatch goal with
  | |- numIn _ _ ?e =>
      let v := eval vm_compute in e in
      lazymatch v with
      | Num ?x => exists x; split; [vm_compute; reflexivity|split; qle]
      end
  end.

(** A bound of a numeric expression is built from the bounds of its
    parts. *)
Ltac bnd :=
  lazymatch goal with
  | |- numIn 0 _ (scaled _ _) => eapply numIn_scaled; [assumption | small]
  | |- numIn 0 _ (orZero _) => apply numIn_orZero; assumption
  | |- numIn 0 _ (round _) => eapply numIn_round; bnd
  | |- numIn 0 _ (mul (div (Num _) (ofZ 100)) (Num _)) =>
      eapply numIn_percent; [assumption | assumption | small]
  | |- numIn 0 _ (mul _ _) => eapply numIn_mul; [bnd | bnd | qle]
  | |- numIn 0 _ (add _ _) => eapply numIn_add; [bnd | bnd | qle]
  | |- numIn 0 _ (div _ _) => eapply numIn_div; [bnd | reflexivity | qle]
  | |- numIn 0 _ (min (Num _) _) => eapply numIn_min_cap; [qle | bnd]
  | |- numIn 0 _ (min _ _) => eapply numIn_min_r; [bnd | bnd]
  | |- numIn 0 _ _ => first [eassumption | eapply numIn_Num; qle]
  end.

Ltac rng := eapply numIn_weaken; [bnd | qle].

(** The weights, the multipliers and the decimal literals are looked
    up. *)
Ltac weights :=
  unfold mult, multipliers;
  repeat match goal with
  | |- context [weightOf ?t ?k] =>
      let v := eval vm_compute in (weightOf t k) in change (weightOf t k) with v
  | |- context [get ?t ?k] =>
      let v := eval vm_compute in (get t k) in change (get t k) with v
  | |- context [q ?n ?d] =>
      let v := eval vm_compute in (q n d) in change (q n d) with v
  end;
  cbn [toNum].

Ltac factor := apply bounded_mk; first [solve [rng] | conc].

Lemma bounded_structuredData (c : context) (s : Schema.Schemas) :
  Forall (bounded c) (factors (scoreStructuredData s)).
Proof.
  unfold scoreStructuredData, productFieldScore, bpoints. cbn [factors]. weights.
  destruct c.
  all: repeat apply Forall_cons; try apply Forall_nil;
    repeat split_case; cbn [fst snd]; try factor.
Qed.

Lemma bounded_protocolMeta (c : context) (data : MetaTags) (iv : option ImageFormatFact) :
  Forall (bounded c) (factors (scoreProtocolMeta data iv)).
Proof.
  unfold scoreProtocolMeta, imageFormat, graded, bpoints. cbn [factors]. weights.
  destruct c.
  all: repeat apply Forall_cons; try apply Forall_nil;
    repeat split_case; cbn [fst snd]; try factor.
Qed.

Lemma bounded_contentQuality (c : context) (d : ExtractedData) :
  wellFormed d ->
  Forall (bounded c)
         (factors (scoreContentQuality c (Extraction.contentQuality d) (answerFormat d))).
Proof.
  intros [].
  unfold scoreContentQuality, bpoints, orOne. cbn [factors].
  destruct c; weights.
  all: repeat apply Forall_cons; try apply Forall_nil;
    repeat split_case; cbn [fst snd]; try factor.
Qed.

Lemma bounded_jsPoints (x : num) (w : Z) :
  subscore x -> (0 <= w < 2 ^ 53)%Z ->
  numIn 0 (inject_Z w) (if JS.truthy x then round (mul (div x (ofZ 100)) (Num (w # 1)))
                        else Num (w # 1)).
Proof.
  intros Hx Hw. destruct (JS.truthy x) eqn:E.
  - generalize (numIn_scaled x Hx Hw). unfold scaled. now rewrite E.
  - apply numIn_Num. apply inj_nonneg. lia.
Qed.

Lemma bounded_contentStructure (c : context) (d : ExtractedData) :
  wellFormed d ->
  Forall (bounded c)
         (factors (scoreContentStructure (Extraction.contentStructure d)
                     (readabilityScore (Extraction.contentQuality d)))).
Proof.
  intros [].
  unfold scoreContentStructure, bpoints. cbn [factors]. weights.
  destruct (readabilityScore (Extraction.contentQuality d)) as [[|v]|];
    [contradiction| |]; cbn [fst snd].
  all: try match goal with H : _ /\ _ |- _ => destruct H end.
  all: destruct c.
  all: repeat apply Forall_cons; try apply Forall_nil;
    try (apply bounded_mk; eapply numIn_weaken;
         [apply bounded_jsPoints; [assumption|small]|qle]);
    repeat split_case; cbn [fst snd]; try factor.
Qed.

Lemma bounded_authorityTrust (c : context) (d : ExtractedData) :
  wellFormed d ->
  Forall (bounded c) (factors (scoreAuthorityTrust c (trustSignals d))).
Proof.
  intros [].
  unfold scoreAuthorityTrust, bpoints. cbn [factors].
  destruct c; weights.
  all: repeat apply Forall_cons; try apply Forall_nil;
    repeat split_case; cbn [fst snd]; try factor.
Qed.

Lemma bounded_crawler (c : context) (r : RobotsFact) :
  bounded c (snd (scoreAICrawlerAccess r (Number (Num (35 # 1))))).
Proof.
  unfold scoreAICrawlerAccess, scored. weights.
  destruct (accessible r) as [[|]|].
  - set (b := Z.of_nat (List.length (blockedCrawlers r))).
    set (a := Z.of_nat (List.length (allowedCrawlers r))).
    assert (Ha : (0 <= a)%Z) by apply Nat2Z.is_nonneg.
    assert (Hb : (0 <= b)%Z) by apply Nat2Z.is_nonneg.
    destruct (b =? 0)%Z eqn:E0; [destruct c; cbn [snd]; factor|].
    apply Z.eqb_neq in E0.
    destruct (b <? b + a)%Z; cbn [snd]; [|destruct c; factor].
    apply bounded_mk. eapply numIn_weaken.
    + apply numIn_round. eapply numIn_mul.
      * apply numIn_Num. qle.
      * apply numIn_share; lia.
      * qle.
    + destruct c; qle.
  - destruct (present_str (error r)); cbn [snd]; destruct c; factor.
  - cbn [snd]. destruct c; factor.
Qed.

Lemma entity_maxPoints (d : ExtractedData) (m : numU) (r : numU * Factor) :
  scoreEntityConsistency d m = Ok r -> maxPoints (snd r) = m.
Proof.
  unfold scoreEntityConsistency, scored.
  destruct (negb _); [intros [= <-]; reflexivity|].
  destruct (match Schema.product (schemas d) with Some p => Schema.name p | None => _ end);
    try discriminate.
  intros [= <-]. reflexivity.
Qed.

Lemma bounded_aiDiscoverability (c : context) (d : ExtractedData)
    (nd : option NetworkData) (cat : CategoryScore) :
  scoreAIDiscoverability d nd = Ok cat -> Forall (bounded c) (factors cat).
Proof.
  unfold scoreAIDiscoverability. weights.
  destruct (scoreEntityConsistency d Undefined) as [e|] eqn:E; [|discriminate].
  cbn [bind]. intros [= <-]. cbn [factors].
  repeat apply Forall_cons; try apply Forall_nil.
  - apply bounded_crawler.
  - unfold bounded. now rewrite (entity_maxPoints _ _ E).
  - unfold scoreAnswerFormatContent, scored, bounded.
    now destruct (answerFormat d).
  - unfold scoreProductIdentifiers, scored, bounded.
    now destruct (Schema.product (schemas d)).
  - unfold scoreLlmsTxt, scored. weights.
    repeat split_case; cbn [snd]; destruct c; factor.
Qed.

Lemma Ok_inj (A : Type) (a b : A) : Ok a = Ok b -> a = b.
Proof. now intros [= ->]. Qed.

(** A page whose only content is a review section of two hundred
    reviews, for which the extractor's count score is 100. *)
Definition manyReviews : Reviews :=
  {| reviewCount := ofZ 200; averageRating := None; hasReviews := true;
     hasRecentReviews := None; averageReviewLength := ofZ 0; reviewsAnalyzed := ofZ 0;
     reviewCountScore := ofZ 100; ratingScore := ofZ 0; depthScore := ofZ 25 |}.

Definition reviewedPage : ExtractedData := withReviews emptyPage manyReviews.

Definition reviewCountFactor : Factor :=
  mkFactor "Review Count" pass (Number (ofZ 35)) (Number (ofZ 25)) false true.

(** The result of scoring a page on its own, in double arithmetic. *)
Definition resultOf (c : context) (d : ExtractedData) : ScoreResult :=
  match calculateScore c d None None with
  | Ok r => r
  | TypeError => noResult c
  end.

Definition factorsOf (c : context) (d : ExtractedData) : list Factor :=
  match calculateScore c d None None with
  | Ok r => List.concat (List.map factors (categories (categoryScores r)))
  | TypeError => []
  end.

(** C6, as stated, fails: under the [want] context the Review Count
    factor of a page with two hundred reviews has 35 points of a maximum
    of 25. *)
Lemma C6_review_count_exceeds_its_maximum :
  In reviewCountFactor (factorsOf want reviewedPage) /\
  points reviewCountFactor = Number (ofZ 35) /\
  maxPoints reviewCountFactor = Number (ofZ 25) /\
  JS.le (ofZ 35) (ofZ 25) = false.
Proof.
  split; [|repeat split; reflexivity].
  vm_compute. tauto.
Qed.

(** C6, amended.  For a well-formed extraction, every factor of every
    category that has a configured maximum has points that are a number
    between 0 and its maximum, except Review Count under the [want]
    context, whose points stay between 0 and 1.4 times its maximum.  The
    engine's arithmetic is that of doubles. *)
Theorem C6_factor_points_within_bounds (c : context) (d : ExtractedData)
    (iv : option ImageFormatFact) (nd : option NetworkData) (r : ScoreResult) :
  wellFormed d ->
  calculateScore c d iv nd = Ok r ->
  forall cat f, In cat (categories (categoryScores r)) -> In f (factors cat) ->
                bounded c f.
Proof.
  intros Hwf. unfold calculateScore.
  destruct (scoreAIDiscoverability d nd) as [ai|] eqn:E; [|discriminate].
  cbn [bind]. intros H cat f Hcat Hf. apply Ok_inj in H. subst r.
  cbn [categoryScores categories structuredData protocolMeta Scoring.contentQuality
       Scoring.contentStructure authorityTrust aiDiscoverability] in Hcat.
  assert (H : Forall (bounded c) (factors cat)).
  { cbn [In] in Hcat.
    destruct Hcat as [<-|[<-|[<-|[<-|[<-|[<-|[]]]]]]].
    - apply bounded_structuredData.
    - apply bounded_protocolMeta.
    - now apply bounded_contentQuality.
    - now apply bounded_contentStructure.
    - now apply bounded_authorityTrust.
    - now apply (bounded_aiDiscoverability c d nd). }
  rewrite Forall_forall in H. now apply H.
Qed.

Lemma wellFormed_reviewedPage : wellFormed reviewedPage.
Proof. constructor; vm_compute; try tauto; split; discriminate. Qed.

Definition reviewedResult : ScoreResult := resultOf want reviewedPage.

Lemma C6_factor_points_within_bounds_witness :
  wellFormed reviewedPage /\
  calculateScore want reviewedPage None None = Ok reviewedResult /\
  bounded want reviewCountFactor.
Proof.
  split; [exact wellFormed_reviewedPage|].
  assert (E : calculateScore want reviewedPage None None = Ok reviewedResult)
    by (vm_compute; reflexivity).
  split; [exact E|].
  apply (@C6_factor_points_within_bounds want reviewedPage None None reviewedResult
           wellFormed_reviewedPage E
           (authorityTrust (categoryScores reviewedResult)) reviewCountFactor).
  - vm_compute. tauto.
  - vm_compute. tauto.
Defined.

End ScoringBounds.

(* ================================================================== *)
(** * AI Crawler Access                                                 *)
(* ================================================================== *)

Module CrawlerSpec.

Import JS Weights Extraction Scoring Scoring64 JSFacts F64Facts.
Open Scope string_scope.
Open Scope Z_scope.

(** [isNum v x]: the value [v] is the number [x]. *)
Definition isNum (v : numU) (x : Q) : Prop :=
  exists p : Q, v = Number (Num p) /\ (p == x)%Q.

(** The factor a scorer returns. *)
Definition crawlerFactor (r : RobotsFact) (maxPoints : Z) : Factor :=
  snd (scoreAICrawlerAccess r (Number (ofZ maxPoints))).


(** The exact share [maxPoints * a / t] of the points. *)
Definition share (maxPoints a t : Z) : Q :=
  (inject_Z maxPoints * (inject_Z a / inject_Z t))%Q.

(** The exact share lies half way between two integers. *)
Definition tie (maxPoints a t : Z) : Prop :=
  (2 * maxPoints * a + t) mod (2 * t) = 0.

(** What the engine computes for the share: the quotient and the product
    are rounded to doubles, and the result to an integer. *)
Definition sharePoints (maxPoints a t : Z) : num :=
  round (mul (ofZ maxPoints) (div (ofZ a) (ofZ t))).

Lemma Qfloor_unique (x : Q) (p : Z) :
  (inject_Z p <= x)%Q -> (x < inject_Z p + 1)%Q -> Qfloor x = p.
Proof.
  intros H0 H1. generalize (Qfloor_le x) (Qlt_floor x).
  rewrite inject_Z_plus. change (inject_Z 1) with 1%Q. intros F0 F1.
  assert (A : (inject_Z p < inject_Z (Qfloor x + 1))%Q)
    by (rewrite inject_Z_plus; change (inject_Z 1) with 1%Q; lra).
  assert (B : (inject_Z (Qfloor x) < inject_Z (p + 1))%Q)
    by (rewrite inject_Z_plus; change (inject_Z 1) with 1%Q; lra).
  rewrite <- Zlt_Qlt in A, B. lia.
Qed.

Lemma nearest_strict (p N t : Z) :
  0 < t -> 2 * N - t <= 2 * p * t -> (2 * N + t) mod (2 * t) <> 0 ->
  2 * N + t < 2 * p * t + 2 * t.
Proof.
  intros Ht H Hm. destruct (Z.eq_dec (2 * p * t) (2 * N - t)) as [E|E]; [|lia].
  exfalso. apply Hm. replace (2 * N + t) with ((p + 1) * (2 * t)) by lia.
  apply Z.mod_mul. lia.
Qed.

(** The points for a share of the crawlers: an integer from 0 to
    [maxPoints], within one half of the exact share, and the exact share
    rounded unless that lies half way between two integers. *)
Lemma sharePoints_spec (mp a t : Z) :
  0 <= mp <= 2 ^ 20 -> 0 <= a <= t -> 0 < t <= 2 ^ 30 ->
  exists p : Z,
    sharePoints mp a t = ofZ p /\
    0 <= p <= mp /\
    (share mp a t - (1 # 2) <= inject_Z p)%Q /\
    (inject_Z p <= share mp a t + (1 # 2))%Q /\
    (~ tie mp a t -> p = roundQ (share mp a t)).
Proof.
  intros Hmp Ha Ht. unfold sharePoints, share, tie.
  set (M := inject_Z mp). set (A := inject_Z a). set (T := inject_Z t).
  assert (HM0 : (0 <= M)%Q) by (unfold M; rewrite Zle_Qle in Hmp; apply Hmp).
  assert (HM1 : (M <= inject_Z (2 ^ 20))%Q)
    by (unfold M; destruct Hmp as [_ H]; rewrite Zle_Qle in H; exact H).
  assert (HA0 : (0 <= A)%Q) by (unfold A; rewrite Zle_Qle in Ha; apply Ha).
  assert (HAT : (A <= T)%Q)
    by (unfold A, T; destruct Ha as [_ H]; rewrite Zle_Qle in H; exact H).
  assert (HT0 : (0 < T)%Q)
    by (unfold T; destruct Ht as [H _]; rewrite Zlt_Qlt in H; exact H).
  assert (HT1 : (T <= inject_Z (2 ^ 30))%Q)
    by (unfold T; destruct Ht as [_ H]; rewrite Zle_Qle in H; exact H).
  assert (Hy0 : (0 <= A / T)%Q) by (apply Qle_shift_div_l; lra).
  assert (Hy1 : (A / T <= 1)%Q) by (apply Qle_shift_div_r; lra).
  (* the quotient *)
  assert (E52 : (inject_Z (2 ^ 52) / inject_Z (2 ^ 52) == 1)%Q) by reflexivity.
  destruct (@mk_err (A / T) (2 ^ 52) 52) as (y & Ey & Hy0' & Hy1' & Hye1 & Hye2);
    [assumption|split; [lia|reflexivity]|lia|rewrite E52; assumption|].
  rewrite E52 in Hy1'.
  assert (P52 : (F64.pow2 (- (52)) * (1 # 2) == 1 # 2 ^ 53)%Q) by reflexivity.
  rewrite P52 in Hye1, Hye2.
  assert (Ediv : div (ofZ a) (ofZ t) = Num y).
  { unfold div, F64.div, ofZ. fold (inject_Z t) (inject_Z a). fold A T.
    destruct (Qeq_bool T 0) eqn:E; [apply Qeq_bool_iff in E; lra|exact Ey]. }
  (* the product *)
  assert (Hx0 : (0 <= M * y)%Q) by now apply Qmult_le_0_compat.
  assert (Hx1 : (M * y <= M)%Q).
  { rewrite <- (Qmult_1_r M) at 2. rewrite !(Qmult_comm M).
    apply Qmult_le_compat_r; assumption. }
  assert (E32 : (inject_Z (2 ^ 52) / inject_Z (2 ^ 32) == inject_Z (2 ^ 20))%Q) by reflexivity.
  destruct (@mk_err (M * y) (2 ^ 52) 32) as (x & Ex & Hx0' & Hx1' & Hxe1 & Hxe2);
    [assumption|split; [lia|reflexivity]|lia|rewrite E32; lra|].
  assert (P32 : (F64.pow2 (- (32)) * (1 # 2) == 1 # 2 ^ 33)%Q) by reflexivity.
  rewrite P32 in Hxe1, Hxe2.
  assert (Emul : mul (ofZ mp) (Num y) = Num x) by exact Ex.
  rewrite Ediv, Emul. cbn [round].
  (* the error of the product *)
  assert (Hd1 : (M * (y - A / T) <= inject_Z (2 ^ 20) * (1 # 2 ^ 53))%Q).
  { apply Qle_trans with (M * (1 # 2 ^ 53))%Q.
    - rewrite !(Qmult_comm M). apply Qmult_le_compat_r; lra.
    - apply Qmult_le_compat_r; [assumption|discriminate]. }
  assert (Hd2 : (M * (A / T - y) <= inject_Z (2 ^ 20) * (1 # 2 ^ 53))%Q).
  { apply Qle_trans with (M * (1 # 2 ^ 53))%Q.
    - rewrite !(Qmult_comm M). apply Qmult_le_compat_r; lra.
    - apply Qmult_le_compat_r; [assumption|discriminate]. }
  assert (E20 : (inject_Z (2 ^ 20) * (1 # 2 ^ 53) == 1 # 2 ^ 33)%Q) by reflexivity.
  rewrite E20 in Hd1, Hd2.
  set (X := (M * (A / T))%Q) in *.
  assert (He1 : (x - X <= 1 # 2 ^ 32)%Q).
  { setoid_replace (x - X)%Q with ((x - M * y) + M * (y - A / T))%Q by (unfold X; ring).
    setoid_replace (1 # 2 ^ 32)%Q with ((1 # 2 ^ 33) + (1 # 2 ^ 33))%Q by reflexivity.
    apply Qplus_le_compat; assumption. }
  assert (He2 : (X - x <= 1 # 2 ^ 32)%Q).
  { setoid_replace (X - x)%Q with ((M * y - x) + M * (A / T - y))%Q by (unfold X; ring).
    setoid_replace (1 # 2 ^ 32)%Q with ((1 # 2 ^ 33) + (1 # 2 ^ 33))%Q by reflexivity.
    apply Qplus_le_compat; assumption. }
  (* the rounding to an integer *)
  set (p := roundQ x). exists p.
  generalize (Qfloor_le (x + (1 # 2))) (Qlt_floor (x + (1 # 2))).
  fold (roundQ x). fold p. rewrite inject_Z_plus. change (inject_Z 1) with 1%Q.
  set (P := inject_Z p). intros Hp0 Hp1.
  assert (EX : (X * T == M * A)%Q) by (unfold X; field; lra).
  assert (HdT : ((1 # 2 ^ 32) * T <= 1 # 4)%Q).
  { apply Qle_trans with ((1 # 2 ^ 32) * inject_Z (2 ^ 30))%Q; [|discriminate].
    rewrite !(Qmult_comm (1 # 2 ^ 32)). apply Qmult_le_compat_r; [assumption|discriminate]. }
  assert (U : (P * T <= M * A + T * (1 # 2) + (1 # 4))%Q).
  { apply Qle_trans with ((X + (1 # 2 ^ 32) + (1 # 2)) * T)%Q.
    - apply Qmult_le_compat_r; lra.
    - setoid_replace ((X + (1 # 2 ^ 32) + (1 # 2)) * T)%Q
        with (X * T + (1 # 2 ^ 32) * T + T * (1 # 2))%Q by ring.
      rewrite EX. lra. }
  assert (L : (M * A - T * (1 # 2) - (1 # 4) - T <= P * T - T)%Q).
  { apply Qle_trans with ((X - (1 # 2 ^ 32) - (1 # 2) - 1) * T)%Q.
    - setoid_replace ((X - (1 # 2 ^ 32) - (1 # 2) - 1) * T)%Q
        with (X * T - (1 # 2 ^ 32) * T - T * (1 # 2) - T)%Q by ring.
      rewrite EX. lra.
    - setoid_replace (P * T - T)%Q with ((P - 1) * T)%Q by ring.
      apply Qmult_le_compat_r; lra. }
  assert (UZ : 2 * p * t <= 2 * mp * a + t).
  { apply Z.lt_succ_r. rewrite Zlt_Qlt. unfold Z.succ.
    rewrite !inject_Z_plus, !inject_Z_mult. fold P T M A.
    change (inject_Z 2) with 2%Q. change (inject_Z 1) with 1%Q. lra. }
  assert (LZ : 2 * mp * a - t <= 2 * p * t).
  { apply Z.lt_succ_r, Z.lt_sub_lt_add_r. rewrite Zlt_Qlt. unfold Z.succ.
    rewrite !inject_Z_plus, !inject_Z_mult. fold P T M A.
    change (inject_Z 2) with 2%Q. change (inject_Z 1) with 1%Q. lra. }
  assert (UQ : (P <= X + (1 # 2))%Q).
  { apply (Qmult_le_r _ _ T HT0).
    setoid_replace ((X + (1 # 2)) * T)%Q with (X * T + T * (1 # 2))%Q by ring.
    rewrite EX. rewrite Zle_Qle in UZ.
    rewrite !inject_Z_plus, !inject_Z_mult in UZ. fold P T M A in UZ.
    change (inject_Z 2) with 2%Q in UZ. lra. }
  assert (LQ : (X - (1 # 2) <= P)%Q).
  { apply (Qmult_le_r _ _ T HT0).
    setoid_replace ((X - (1 # 2)) * T)%Q with (X * T - T * (1 # 2))%Q by ring.
    rewrite EX. apply Z.le_sub_le_add_r in LZ. rewrite Zle_Qle in LZ.
    rewrite !inject_Z_plus, !inject_Z_mult in LZ. fold P T M A in LZ.
    change (inject_Z 2) with 2%Q in LZ. lra. }
  split; [reflexivity|]. split; [|split; [exact LQ|split; [exact UQ|]]].
  - assert (X0 : (0 <= X)%Q) by (unfold X; now apply Qmult_le_0_compat).
    assert (X1 : (X <= M)%Q).
    { unfold X. rewrite <- (Qmult_1_r M) at 2. rewrite !(Qmult_comm M).
      apply Qmult_le_compat_r; assumption. }
    split.
    + apply Z.lt_pred_le. rewrite Zlt_Qlt. fold P. change (inject_Z (Z.pred 0)) with (- (1))%Q. lra.
    + apply Z.lt_succ_r. rewrite Zlt_Qlt. unfold Z.succ. rewrite inject_Z_plus.
      fold P M. change (inject_Z 1) with 1%Q. lra.
  - intros Hn. symmetry. apply Qfloor_unique; fold P.
    + lra.
    + generalize (@nearest_strict p (mp * a) t (proj1 Ht)). intros S.
      assert (SZ : 2 * (mp * a) + t < 2 * p * t + 2 * t).
      { apply S; [lia|]. replace (2 * (mp * a)) with (2 * mp * a) by ring. exact Hn. }
      rewrite Zlt_Qlt in SZ. rewrite !inject_Z_plus, !inject_Z_mult in SZ.
      fold P T M A in SZ. change (inject_Z 2) with 2%Q in SZ.
      apply (Qmult_lt_r _ _ T HT0).
      setoid_replace ((X + (1 # 2)) * T)%Q with (X * T + T * (1 # 2))%Q by ring.
      rewrite EX. lra.
Qed.


Lemma share_all (mp a : Z) :
  0 <= mp <= 2 ^ 20 -> 0 < a <= 2 ^ 30 -> sharePoints mp a a = ofZ mp.
Proof.
  intros Hmp Ha.
  destruct (@sharePoints_spec mp a a Hmp) as (p & -> & _ & _ & _ & H); [lia|lia|].
  rewrite H.
  - f_equal. rewrite <- (roundQ_Z mp) at 2. apply roundQ_comp. unfold share. field.
    apply inject_Z_nonzero. lia.
  - unfold tie. replace (2 * mp * a + a) with (a + mp * (2 * a)) by ring.
    rewrite Z.mod_add by lia. rewrite Z.mod_small; lia.
Qed.

Lemma share_none (mp t : Z) :
  0 <= mp <= 2 ^ 20 -> 0 < t <= 2 ^ 30 -> sharePoints mp 0 t = ofZ 0.
Proof.
  intros Hmp Ht.
  destruct (@sharePoints_spec mp 0 t Hmp) as (p & -> & _ & _ & _ & H); [lia|lia|].
  rewrite H.
  - f_equal. transitivity (roundQ 0%Q); [|reflexivity]. apply roundQ_comp.
    unfold share, Qdiv. change (inject_Z 0) with 0%Q. ring.
  - unfold tie. rewrite Z.mul_0_r, Z.add_0_l. rewrite Z.mod_small; lia.
Qed.

(** With the configured 35 points and the fourteen monitored crawlers
    the doubles give the exact share, rounded. *)
Lemma share_35_14 (a : Z) :
  0 <= a <= 14 -> sharePoints 35 a 14 = ofZ (roundQ (share 35 a 14)).
Proof.
  intros H.
  assert (E : a = 0 \/ a = 1 \/ a = 2 \/ a = 3 \/ a = 4 \/ a = 5 \/ a = 6 \/ a = 7 \/
              a = 8 \/ a = 9 \/ a = 10 \/ a = 11 \/ a = 12 \/ a = 13 \/ a = 14) by lia.
  repeat destruct E as [->|E]; try subst a; vm_compute; reflexivity.
Qed.

(** At a tie the doubles may fall under the half: seven of ten crawlers
    allowed with 45 points give 31, and forty-seven of seventy with 35
    points give 23, where the exact shares 31.5 and 23.5 round to 32 and
    24. *)
Lemma sharePoints_at_a_tie :
  (tie 45 7 10 /\ sharePoints 45 7 10 = ofZ 31 /\ roundQ (share 45 7 10) = 32) /\
  (tie 35 47 70 /\ sharePoints 35 47 70 = ofZ 23 /\ roundQ (share 35 47 70) = 24).
Proof. repeat split; vm_compute; reflexivity. Qed.

(** Half of the points is a double. *)
Lemma half_points (mp : Z) :
  0 <= mp <= 2 ^ 20 -> isNum (Number (mul (ofZ mp) (q 5 10))) (inject_Z mp / 2).
Proof.
  intros Hmp. change (q 5 10) with (Num (1 # 2)).
  unfold mul, F64.mul, ofZ. fold (inject_Z mp).
  assert (Hf : fits (inject_Z mp * (1 # 2))).
  { exists mp, 1. split; [split; [lia|]|split; [lia|]].
    - apply Z.le_lt_trans with (2 ^ 20); [lia|reflexivity].
    - change (inject_Z (2 ^ 1)) with 2%Q. field. }
  rewrite (mk_exact Hf). exists (Qred (inject_Z mp * (1 # 2))). split; [reflexivity|].
  rewrite Qred_correct. field.
Qed.

(** The accessible case: the points are the engine's share, whichever
    branch gives them, and the status follows the number of blocked
    crawlers. *)
Lemma accessible_points (r : RobotsFact) (maxPoints : Z) :
  0 <= maxPoints <= 2 ^ 20 ->
  let f := crawlerFactor r maxPoints in
  let b := Z.of_nat (List.length (blockedCrawlers r)) in
  let a := Z.of_nat (List.length (allowedCrawlers r)) in
  accessible r = Some true -> 0 < a + b <= 2 ^ 30 ->
  points f = Number (sharePoints maxPoints a (a + b)) /\
  (fstatus f = fail <-> a = 0) /\
  (fstatus f = pass <-> b = 0).
Proof.
  intros Hmp f b a.
  assert (Ha : 0 <= a) by apply Nat2Z.is_nonneg.
  assert (Hb : 0 <= b) by apply Nat2Z.is_nonneg.
  subst f. unfold crawlerFactor, scoreAICrawlerAccess. intros -> Hpos. fold b a.
  destruct (b =? 0) eqn:Hb0.
  - apply Z.eqb_eq in Hb0. cbn [snd scored mkFactor points fstatus].
    rewrite Hb0, Z.add_0_r in *. rewrite share_all by lia.
    split; [reflexivity|]. split; split; try discriminate; try reflexivity; lia.
  - apply Z.eqb_neq in Hb0.
    destruct (b <? b + a) eqn:Hlt.
    + apply Z.ltb_lt in Hlt. cbn [snd scored mkFactor points fstatus toNum].
      rewrite (Z.add_comm b a). split; [reflexivity|].
      split; split; try discriminate; lia.
    + apply Z.ltb_ge in Hlt. assert (a = 0) as Ea by lia.
      cbn [snd scored mkFactor points fstatus].
      rewrite Ea in *. rewrite share_none by lia.
      split; [reflexivity|]. split; split; try discriminate; try reflexivity; lia.
Qed.


Definition partlyBlocked : RobotsFact :=
  {| accessible := Some true; error := None;
     blockedCrawlers := ["GPTBot"; "CCBot"];
     allowedCrawlers := ["ChatGPT-User"; "OAI-SearchBot"; "ClaudeBot"; "Claude-Web";
                         "anthropic-ai"; "PerplexityBot"; "Google-Extended";
                         "Amazonbot"; "Applebot-Extended"; "Meta-ExternalAgent";
                         "Bytespider"; "cohere-ai"] |}.


End CrawlerSpec.

(* ================================================================== *)
(** * The range of the category scores and of the total                 *)
(* ================================================================== *)

Module TotalBounds.

Import JS Weights Extraction Scoring Scoring64 JSFacts F64Facts Pages ScoringBounds.
Local Open Scope Q_scope.

(** The most points a factor can have under a context, as an integer; a
    factor without a configured maximum has none. *)
Definition limit (c : context) (f : Factor) : Z :=
  match maxPoints f with
  | Number (Num m) => Qceiling (cap c (name f) * m)
  | _ => 0%Z
  end.

Definition limitSum (c : context) (fs : list Factor) : Z :=
  fold_right (fun f acc => (limit c f + acc)%Z) 0%Z fs.

Definition weighted (f : Factor) : bool :=
  match maxPoints f with
  | Number _ => true
  | Undefined => false
  end.

(** The points of the factor are a number from 0 to its limit. *)
Definition limited (c : context) (f : Factor) : Prop :=
  numIn 0 (inject_Z (limit c f)) (toNum (points f)).

Lemma bounded_limited (c : context) (f : Factor) :
  bounded c f -> weighted f = true -> limited c f.
Proof.
  unfold bounded, weighted, limited, limit. destruct (maxPoints f) as [|m]; [discriminate|].
  intros (p & mq & -> & -> & H0 & H1) _. exists p. split; [reflexivity|].
  split; [exact H0|]. eapply Qle_trans; [exact H1|apply Qle_ceiling].
Qed.

Lemma limited_nonneg (c : context) (f : Factor) : limited c f -> (0 <= limit c f)%Z.
Proof.
  intros (v & _ & H0 & H1). rewrite Zle_Qle. change (inject_Z 0) with 0. lra.
Qed.

Lemma limitSum_nonneg (c : context) (fs : list Factor) :
  Forall (limited c) fs -> (0 <= limitSum c fs)%Z.
Proof.
  induction 1 as [|f t Hf _ IH]; cbn [limitSum fold_right]; [lia|].
  fold (limitSum c t). generalize (limited_nonneg Hf). lia.
Qed.

(** The points are added one factor after the other; the sums are
    integers under [2^53], which the doubles hold exactly, so the raw
    score stays under the sum of the limits. *)
Lemma fold_add_limited (c : context) (fs : list Factor) (acc : num) (a : Z) :
  (0 <= a)%Z -> numIn 0 (inject_Z a) acc -> Forall (limited c) fs ->
  (a + limitSum c fs < 2 ^ 53)%Z ->
  numIn 0 (inject_Z (a + limitSum c fs))
        (fold_left (fun x f => add x (toNum (points f))) fs acc).
Proof.
  revert acc a. induction fs as [|f t IH]; intros acc a Ha Hacc H Hlt.
  - cbn [fold_left limitSum fold_right]. now rewrite Z.add_0_r.
  - inversion H as [|? ? Hf Ht]; subst. cbn [fold_left limitSum fold_right] in *.
    fold (limitSum c t) in *.
    generalize (limited_nonneg Hf) (limitSum_nonneg Ht). intros Hf0 Ht0.
    rewrite Z.add_assoc. apply IH; [lia| |assumption|lia].
    apply numIn_add_le with (h1 := inject_Z a) (h2 := inject_Z (limit c f)).
    + exact Hacc.
    + exact Hf.
    + rewrite inject_Z_plus. apply Qle_refl.
    + apply fits_Z. lia.
Qed.

Lemma rawScore_limited (c : context) (fs : list Factor) :
  Forall (limited c) fs -> (limitSum c fs < 2 ^ 53)%Z ->
  numIn 0 (inject_Z (limitSum c fs)) (rawScore fs).
Proof.
  intros H Hlt. unfold rawScore.
  apply (@fold_add_limited c fs (ofZ 0) 0%Z); [lia| |assumption|exact Hlt].
  exists 0. repeat split; apply Qle_refl.
Qed.

Lemma rawScore_bounded (c : context) (fs : list Factor) :
  Forall (bounded c) fs -> forallb weighted fs = true -> (limitSum c fs < 2 ^ 53)%Z ->
  numIn 0 (inject_Z (limitSum c fs)) (rawScore fs).
Proof.
  intros Hb Hw. apply rawScore_limited.
  rewrite forallb_forall in Hw. rewrite Forall_forall in *.
  intros f Hf. apply bounded_limited; auto.
Qed.

(** A category score between 0 and 100. *)
Definition inRange (cat : CategoryScore) : Prop := numIn 0 100 (score cat).

Lemma clamped_inRange (h : Q) (x : num) : numIn 0 h x -> numIn 0 100 (min (ofZ 100) x).
Proof. intros H. eapply numIn_min_cap; [discriminate|exact H]. Qed.

Lemma inRange_structuredData (c : context) (s : Schema.Schemas) :
  inRange (scoreStructuredData s).
Proof.
  unfold inRange.
  change (score (scoreStructuredData s)) with (rawScore (factors (scoreStructuredData s))).
  assert (E : limitSum c (factors (scoreStructuredData s)) = 100%Z)
    by (destruct c; reflexivity).
  eapply numIn_weaken; [apply (@rawScore_bounded c)|].
  - apply bounded_structuredData.
  - reflexivity.
  - rewrite E. reflexivity.
  - rewrite E. apply Qle_refl.
Qed.

Lemma inRange_protocolMeta (c : context) (data : MetaTags) (iv : option ImageFormatFact) :
  inRange (scoreProtocolMeta data iv).
Proof.
  unfold inRange.
  change (score (scoreProtocolMeta data iv))
    with (rawScore (factors (scoreProtocolMeta data iv))).
  assert (E : limitSum c (factors (scoreProtocolMeta data iv)) = 100%Z)
    by (destruct c; reflexivity).
  eapply numIn_weaken; [apply (@rawScore_bounded c)|].
  - apply bounded_protocolMeta.
  - reflexivity.
  - rewrite E. reflexivity.
  - rewrite E. apply Qle_refl.
Qed.

Lemma inRange_contentQuality (c : context) (d : ExtractedData) :
  wellFormed d ->
  inRange (scoreContentQuality c (Extraction.contentQuality d) (answerFormat d)).
Proof.
  intros H. eapply clamped_inRange. apply (@rawScore_bounded c).
  - now apply bounded_contentQuality.
  - reflexivity.
  - destruct c; reflexivity.
Qed.

Lemma inRange_contentStructure (c : context) (d : ExtractedData) :
  wellFormed d ->
  inRange (scoreContentStructure (Extraction.contentStructure d)
             (readabilityScore (Extraction.contentQuality d))).
Proof.
  intros H. eapply clamped_inRange. apply (@rawScore_bounded c).
  - now apply bounded_contentStructure.
  - reflexivity.
  - destruct c; reflexivity.
Qed.

Lemma inRange_authorityTrust (c : context) (d : ExtractedData) :
  wellFormed d -> inRange (scoreAuthorityTrust c (trustSignals d)).
Proof.
  intros H. eapply clamped_inRange. apply (@rawScore_bounded c).
  - now apply bounded_authorityTrust.
  - reflexivity.
  - destruct c; reflexivity.
Qed.

(** The page does not make the engine read a weight that
    [FACTOR_WEIGHTS.aiDiscoverability] lacks: no answer-format signals
    are delivered, and the Product schema, if there is one, has neither a
    name nor an identifier. *)
Definition aiUntouched (d : ExtractedData) : Prop :=
  answerFormat d = None /\
  match Schema.product (schemas d) with
  | Some p =>
      Val.truthy (Schema.name p) = false /\ Val.truthy (Schema.gtin p) = false /\
      Val.truthy (Schema.mpn p) = false /\ Val.truthy (Schema.sku p) = false
  | None => True
  end.

Lemma bounded_points (c : context) (f : Factor) (m : Q) :
  bounded c f -> maxPoints f = Number (Num m) ->
  numIn 0 (cap c (name f) * m) (toNum (points f)).
Proof.
  unfold bounded. intros H E. rewrite E in H.
  destruct H as (p & mq & -> & [= <-] & H0 & H1). now exists p.
Qed.

Lemma crawler_points (r : RobotsFact) :
  numIn 0 35 (toNum (points (snd (scoreAICrawlerAccess r (Number (Num (35 # 1))))))).
Proof.
  eapply numIn_weaken; [apply (@bounded_points hybrid)|].
  - apply bounded_crawler.
  - unfold scoreAICrawlerAccess, scored. repeat split_case; reflexivity.
  - apply Qle_refl.
Qed.

Lemma llms_points (l : LlmsTxtFact) :
  numIn 0 20 (toNum (points (snd (scoreLlmsTxt l (Number (Num (20 # 1))))))).
Proof.
  unfold scoreLlmsTxt, scored. weights.
  repeat split_case; cbn [snd points mkFactor toNum]; rng.
Qed.

Lemma inRange_aiDiscoverability (d : ExtractedData) (nd : option NetworkData) :
  aiUntouched d ->
  exists cat, scoreAIDiscoverability d nd = Ok cat /\ inRange cat.
Proof.
  intros [Ha Hp]. unfold scoreAIDiscoverability.
  assert (He : scoreEntityConsistency d (get FW_aiDiscoverability "entityConsistency")
               = Ok (scored "Entity Consistency" fail (Number (ofZ 0))
                            (get FW_aiDiscoverability "entityConsistency") false)).
  { unfold scoreEntityConsistency.
    destruct (Schema.product (schemas d)) as [p|]; [|reflexivity].
    destruct Hp as (-> & _). reflexivity. }
  rewrite He. cbn [bind]. eexists. split; [reflexivity|].
  assert (Ea : scoreAnswerFormatContent d (get FW_aiDiscoverability "answerFormatContent")
               = scored "Answer-Format Content" fail (Number (ofZ 0))
                        (get FW_aiDiscoverability "answerFormatContent") false).
  { unfold scoreAnswerFormatContent. now rewrite Ha. }
  assert (Ei : scoreProductIdentifiers d (get FW_aiDiscoverability "productIdentifiers")
               = scored "Product Identifiers" fail (Number (ofZ 0))
                        (get FW_aiDiscoverability "productIdentifiers") false).
  { unfold scoreProductIdentifiers.
    destruct (Schema.product (schemas d)) as [p|]; [|reflexivity].
    destruct Hp as (_ & -> & -> & ->). reflexivity. }
  unfold inRange. cbn [score]. rewrite Ea, Ei.
  change (get FW_aiDiscoverability "aiCrawlerAccess") with (Number (Num (35 # 1))).
  change (get FW_aiDiscoverability "llmsTxtPresence") with (Number (Num (20 # 1))).
  unfold rawScore. cbn [fold_left snd scored points mkFactor toNum].
  generalize (crawler_points (match nd with Some n => robots n | None => noRobots end))
             (llms_points (match nd with Some n => llms n | None => noLlms end)).
  intros H1 H5. eapply clamped_inRange. bnd.
Qed.

(** A rounded number under a bound that rounds to at most 100 is an
    integer from 0 to 100. *)
Lemma round_in_range (h : Q) (x : num) :
  numIn 0 h x -> (roundQ h <= 100)%Z -> is_int_between 0 100 (round x) = true.
Proof.
  intros (v & -> & H0 & H1) Hh. cbn [round]. unfold is_int_between, ofZ.
  change (roundQ v # 1) with (inject_Z (roundQ v)). rewrite Qfloor_Z.
  assert (0 <= roundQ v)%Z by now apply roundQ_nonneg.
  assert (roundQ v <= roundQ h)%Z by now apply roundQ_mono.
  rewrite Qeq_bool_refl. cbn [andb].
  apply andb_true_intro. split; apply Z.leb_le; lia.
Qed.

(** The weighted sum of six category scores from 0 to 100, each product
    and each sum rounded to a double, rounds to an integer from 0 to
    100. *)
Lemma weightedSum_in_range (cs : CategoryScores) :
  Forall inRange (categories cs) -> is_int_between 0 100 (round (weightedSum cs)) = true.
Proof.
  unfold categories, inRange. intros H.
  repeat match goal with
  | H : Forall _ (_ :: _) |- _ => inversion H; clear H; subst
  end.
  unfold weightedSum. cbv zeta. weights.
  eapply round_in_range; [bnd|]. vm_compute. discriminate.
Qed.

(** The doubles of the weighted sum are not the exact sum: for the
    category scores 0, 85, 75, 85, 80 and 55 the exact sum is 59.5, the
    engine's sum is just under it, and the total is 59. *)
Definition categoryOf (s : Z) : CategoryScore :=
  {| score := ofZ s; factors := []; weight := Undefined; categoryName := "" |}.

Definition scoresOf (a b c d e f : Z) : CategoryScores :=
  {| structuredData := categoryOf a; protocolMeta := categoryOf b;
     Scoring.contentQuality := categoryOf c; Scoring.contentStructure := categoryOf d;
     authorityTrust := categoryOf e; aiDiscoverability := categoryOf f |}.

Lemma weightedSum_below_the_half :
  round (weightedSum (scoresOf 0 85 75 85 80 55)) = ofZ 59 /\
  Scoring.weightedSum (scoresOf 0 85 75 85 80 55) = Num (119 # 2) /\
  JS.lt (weightedSum (scoresOf 0 85 75 85 80 55)) (Num (119 # 2)) = true.
Proof. repeat split; vm_compute; reflexivity. Qed.

(** For a well-formed page that does not touch the missing weights,
    under every context, with or without the image check and the network
    facts, the engine returns; every category score is a number from 0 to
    100 and the total is an integer from 0 to 100. *)
Theorem total_is_an_integer_in_range (c : context) (d : ExtractedData)
    (iv : option ImageFormatFact) (nd : option NetworkData) :
  wellFormed d -> aiUntouched d ->
  exists r,
    calculateScore c d iv nd = Ok r /\
    Forall inRange (categories (categoryScores r)) /\
    is_int_between 0 100 (totalScore r) = true.
Proof.
  intros Hwf Hai. unfold calculateScore.
  destruct (inRange_aiDiscoverability nd Hai) as (ai & -> & Hr).
  cbn [bind]. eexists. split; [reflexivity|].
  cbn [categoryScores totalScore].
  assert (Hc : Forall inRange (categories
    {| structuredData := scoreStructuredData (schemas d);
       protocolMeta := scoreProtocolMeta (metaTags d) iv;
       Scoring.contentQuality :=
         scoreContentQuality c (Extraction.contentQuality d) (answerFormat d);
       Scoring.contentStructure :=
         scoreContentStructure (Extraction.contentStructure d)
           (readabilityScore (Extraction.contentQuality d));
       authorityTrust := scoreAuthorityTrust c (trustSignals d);
       aiDiscoverability := ai |})).
  { unfold categories.
    cbn [structuredData protocolMeta Scoring.contentQuality Scoring.contentStructure
         authorityTrust aiDiscoverability].
    repeat apply Forall_cons; try apply Forall_nil.
    - apply (inRange_structuredData c).
    - apply (inRange_protocolMeta c).
    - now apply inRange_contentQuality.
    - now apply (inRange_contentStructure c).
    - now apply inRange_authorityTrust.
    - exact Hr. }
  split; [exact Hc|]. now apply weightedSum_in_range.
Qed.

(** A page with forty-eight reviews and three questions, scored under
    the [want] context with two of the fourteen crawlers blocked. *)
Definition richPage : ExtractedData :=
  withFaq (withReviews emptyPage
     {| reviewCount := ofZ 48; averageRating := Some (Weights.dec 45 10);
        hasReviews := true; hasRecentReviews := Some true;
        averageReviewLength := ofZ 120; reviewsAnalyzed := ofZ 10;
        reviewCountScore := ofZ 58; ratingScore := ofZ 90; depthScore := ofZ 75 |})
     {| count := ofZ 3; countScore := ofZ 50 |}.

Definition richNetwork : NetworkData :=
  {| robots := CrawlerSpec.partlyBlocked; llms := noLlms |}.

Lemma wellFormed_richPage : wellFormed richPage.
Proof. constructor; vm_compute; try tauto; split; discriminate. Qed.

Lemma aiUntouched_richPage : aiUntouched richPage.
Proof. split; [reflexivity|exact I]. Qed.

Lemma total_is_an_integer_in_range_witness :
  wellFormed richPage /\ aiUntouched richPage /\
  exists r,
    calculateScore want richPage None (Some richNetwork) = Ok r /\
    List.map score (categories (categoryScores r))
      = [ofZ 0; ofZ 5; ofZ 5; ofZ 31; ofZ 63; ofZ 30] /\
    totalScore r = ofZ 17 /\
    is_int_between 0 100 (totalScore r) = true.
Proof.
  split; [exact wellFormed_richPage|]. split; [exact aiUntouched_richPage|].
  destruct (@total_is_an_integer_in_range want richPage None (Some richNetwork)
              wellFormed_richPage aiUntouched_richPage)
    as (r & Hr & _ & Hi).
  exists r. split; [exact Hr|].
  assert (E : calculateScore want richPage None (Some richNetwork)
              = Ok (match calculateScore want richPage None (Some richNetwork) with
                    | Ok x => x
                    | TypeError => noResult want
                    end)) by (vm_compute; reflexivity).
  rewrite E in Hr. apply Ok_inj in Hr. subst r.
  split; [vm_compute; reflexivity|]. split; [vm_compute; reflexivity|exact Hi].
Defined.

End TotalBounds.

(* ================================================================== *)
(** * Where the exact engine and the engine in doubles agree            *)
(* ================================================================== *)

Module Agreement.

Import JS Weights Extraction Scoring Pages.
Open Scope string_scope.

(** The og:image format has the points [w], [w / 2] or [0] of an integer
    weight: no rounding takes place. *)
Lemma imageFormat_agrees (og : option string) (iv : option ImageFormatFact) :
  Scoring64.imageFormat og iv = Scoring.imageFormat og iv.
Proof.
  unfold Scoring64.imageFormat, Scoring.imageFormat.
  change (Scoring64.div (Scoring64.weightOf FW_protocolMeta "ogImageFormat") (ofZ 2))
    with (JS.div (toNum (get FW_protocolMeta "ogImageFormat")) (ofZ 2)).
  change (Scoring64.weightOf FW_protocolMeta "ogImageFormat")
    with (toNum (get FW_protocolMeta "ogImageFormat")).
  reflexivity.
Qed.

(** The pages of the examples are scored alike: a missing weight makes
    the total [NaN] in doubles as it does exactly, and the points of a
    page with one question need no rounding. *)
Lemma example_pages_agree :
  Scoring64.calculateScore hybrid widgetPage None None
    = Scoring.calculateScore hybrid widgetPage None None /\
  Scoring64.calculateScore hybrid RecsSpec.oneQuestionPage None None
    = Scoring.calculateScore hybrid RecsSpec.oneQuestionPage None None.
Proof. split; vm_compute; reflexivity. Qed.

(** They differ where a product falls just under a half: forty-eight
    reviews, a count score of 58, give 14 points of 25, not the 15 of
    the exact product 14.5. *)
Lemma scaled_below_the_half :
  Scoring64.scaled (ofZ 58) (ofZ 25) = ofZ 14 /\
  Scoring.scaled (ofZ 58) (ofZ 25) = ofZ 15.
Proof. split; vm_compute; reflexivity. Qed.

End Agreement.

(* ================================================================== *)
(** * service-worker.js: what the parser of robots.txt guarantees       *)
(* ================================================================== *)

Module WorkerSpec.

Import JS Val Extraction Worker.
Open Scope string_scope.
Open Scope list_scope.

(** *** The second loop *)

Lemma sortCrawlers_lists (m : RuleMap) (wild : bool) (cs bl al : list string) :
  sortCrawlers m wild cs = Ok (bl, al) ->
  exists b : string -> bool,
    bl = filter b cs /\ al = filter (fun c => negb (b c)) cs /\
    forall c, In c cs -> blocks m wild c = Ok (b c).
Proof.
  revert bl al. induction cs as [|c r IH]; intros bl al; cbn [sortCrawlers].
  - intros [= <- <-]. exists (fun _ => false). repeat split. intros c [].
  - destruct (blocks m wild c) as [b0|] eqn:Hb; [|discriminate]. cbn [bind].
    destruct (sortCrawlers m wild r) as [[bl' al']|]; [|discriminate]. cbn [bind fst snd].
    destruct (IH bl' al' eq_refl) as (b & -> & -> & Hall).
    intros H.
    exists (fun x => if String.eqb x c then b0 else b x).
    assert (Hr : forall x, In x r ->
               blocks m wild x = Ok (if String.eqb x c then b0 else b x)).
    { intros x Hx. destruct (String.eqb_spec x c) as [->|]; [exact Hb|now apply Hall]. }
    assert (Hf : forall p : bool -> bool,
               filter (fun x => p (if String.eqb x c then b0 else b x)) r
               = filter (fun x => p (b x)) r).
    { intros p. apply filter_ext_in. intros x Hx.
      generalize (Hall x Hx) (Hr x Hx). intros -> [= <-]. reflexivity. }
    cbn [filter]. rewrite String.eqb_refl.
    rewrite (Hf (fun v => v)), (Hf negb).
    split; [|split].
    + destruct b0; injection H as <- <-; reflexivity.
    + destruct b0; injection H as <- <-; reflexivity.
    + intros x [<-|Hx]; [now rewrite String.eqb_refl|now apply Hr].
Qed.

Lemma filter_split_length (A : Type) (b : A -> bool) (l : list A) :
  (List.length (filter b l) + List.length (filter (fun x => negb (b x)) l)
   = List.length l)%nat.
Proof.
  induction l as [|x t IH]; [reflexivity|].
  cbn [filter]. destruct (b x); cbn [negb List.length]; lia.
Qed.

Lemma NoDup_MAJOR : NoDup MAJOR_AI_CRAWLERS.
Proof.
  unfold MAJOR_AI_CRAWLERS.
  repeat (apply NoDup_cons;
          [cbn [In]; intros H;
           repeat (destruct H as [H|H]; [discriminate H|]); exact H|]).
  apply NoDup_nil.
Qed.

Lemma parseRobotsTxt_partitions_the_crawlers_aux (content : string) (p : Parsed) :
  parseRobotsTxt content = Ok p ->
  (List.length (blockedCrawlers p) + List.length (allowedCrawlers p) = 14)%nat /\
  exists b : string -> bool,
    blockedCrawlers p = filter b MAJOR_AI_CRAWLERS /\
    allowedCrawlers p = filter (fun c => negb (b c)) MAJOR_AI_CRAWLERS.
Proof.
  unfold parseRobotsTxt.
  destruct (parseLines _) as [st|]; [|discriminate]. cbn [bind].
  destruct (sortCrawlers _ _ _) as [[bl al]|] eqn:E; [|discriminate]. cbn [bind fst snd].
  intros [= <-]. cbn [blockedCrawlers allowedCrawlers].
  destruct (sortCrawlers_lists _ _ _ E) as (b & -> & -> & _).
  split; [apply (filter_split_length b MAJOR_AI_CRAWLERS)|]. now exists b.
Qed.

(** Whenever the parser returns, each of the fourteen monitored crawlers
    is in exactly one of [blockedCrawlers] and [allowedCrawlers], in the
    order of [MAJOR_AI_CRAWLERS]; the two lists have fourteen names
    together. *)
Theorem parseRobotsTxt_partitions_the_crawlers (content : string) (p : Parsed) :
  parseRobotsTxt content = Ok p ->
  (List.length (blockedCrawlers p) + List.length (allowedCrawlers p) = 14)%nat /\
  (forall c, In c MAJOR_AI_CRAWLERS <->
             In c (blockedCrawlers p) \/ In c (allowedCrawlers p)) /\
  (forall c, In c (blockedCrawlers p) -> ~ In c (allowedCrawlers p)) /\
  NoDup (blockedCrawlers p) /\ NoDup (allowedCrawlers p) /\
  (exists b : string -> bool,
     blockedCrawlers p = filter b MAJOR_AI_CRAWLERS /\
     allowedCrawlers p = filter (fun c => negb (b c)) MAJOR_AI_CRAWLERS).
Proof.
  intros H. destruct (@parseRobotsTxt_partitions_the_crawlers_aux content p H) as (Hlen & b & Eb & Ea).
  split; [exact Hlen|]. rewrite Eb, Ea.
  split; [|split; [|split; [|split]]].
  - intros c. rewrite !filter_In. destruct (b c); cbn [negb]; intuition congruence.
  - intros c. rewrite !filter_In. intros [_ Hb] [_ Hn]. rewrite Hb in Hn. discriminate.
  - apply NoDup_filter, NoDup_MAJOR.
  - apply NoDup_filter, NoDup_MAJOR.
  - now exists b.
Qed.


Definition nl : string := String newline "".

(** A robots.txt that turns GPTBot away. *)
Definition blocksGpt : string :=
  ("User-agent: GPTBot" ++ nl ++ "Disallow: /" ++ nl)%string.

Definition noParse : Parsed :=
  {| crawlerRules := []; blockedCrawlers := []; allowedCrawlers := [];
     hasWildcardDisallowAll := false |}.

Definition parsed (content : string) : Parsed :=
  match parseRobotsTxt content with
  | Ok p => p
  | TypeError => noParse
  end.

Lemma parseRobotsTxt_partitions_the_crawlers_witness :
  blockedCrawlers (parsed blocksGpt) = ["gptbot"] /\
  (List.length (blockedCrawlers (parsed blocksGpt))
   + List.length (allowedCrawlers (parsed blocksGpt)) = 14)%nat.
Proof.
  split; [vm_compute; reflexivity|].
  apply (@parseRobotsTxt_partitions_the_crawlers blocksGpt (parsed blocksGpt)).
  vm_compute. reflexivity.
Defined.

(** *** When the parser returns *)

(** A line as the loop reads it. *)
Definition normal (line : string) : string := Str.toLowerCase (Str.trim line).

Definition skipped (t : string) : bool := Str.startsWith t "#" || String.eqb t "".

(** The user agent a line names, when it is a [User-agent] line. *)
Definition agentOf (line : string) : option string :=
  let t := normal line in
  if skipped t then None
  else if Str.startsWith t "user-agent:"
       then Some (Str.trim (replace t "user-agent:" "")) else None.

(** The path a line disallows, when it is a [Disallow] line. *)
Definition disallowOf (line : string) : option string :=
  let t := normal line in
  if skipped t then None
  else if Str.startsWith t "user-agent:" then None
  else if Str.startsWith t "disallow:"
       then Some (Str.trim (replace t "disallow:" "")) else None.

Lemma own_app (m : RuleMap) (k : string) (r : Rules) :
  own (m ++ [(k, r)]) k = match own m k with Some r' => Some r' | None => Some r end.
Proof.
  induction m as [|[k' r'] t IH]; cbn [own app].
  - now rewrite String.eqb_refl.
  - destruct (String.eqb k k'); [reflexivity|exact IH].
Qed.

Lemma own_app_other (m : RuleMap) (k k' : string) (r : Rules) :
  own m k' <> None -> own (m ++ [(k, r)]) k' <> None.
Proof.
  induction m as [|[k0 r0] t IH]; cbn [own app]; [congruence|].
  destruct (String.eqb k' k0); [discriminate|exact IH].
Qed.

Lemma own_update (m : RuleMap) (k k' : string) (f : Rules -> Rules) :
  own (update m k f) k'
  = match own m k' with
    | Some r => Some (if String.eqb k' k then f r else r)
    | None => None
    end.
Proof.
  induction m as [|[k0 r0] t IH]; [reflexivity|]. cbn [update own].
  destruct (String.eqb_spec k k0) as [->|Hk]; cbn [own].
  - destruct (String.eqb_spec k' k0) as [->|Hk']; [reflexivity|].
    destruct (own t k') as [r|]; [|reflexivity].
    destruct (String.eqb_spec k' k0); [contradiction|reflexivity].
  - destruct (String.eqb_spec k' k0) as [->|Hk'].
    + destruct (String.eqb_spec k0 k); [congruence|reflexivity].
    + exact IH.
Qed.

(** The agent the rules are filed under has an entry of its own. *)
Definition filed (st : State) : Prop :=
  match currentAgent st with
  | Some a => Str.nonEmpty a = true -> own (rules st) a <> None
  | None => True
  end.

Lemma lineStep_returns (st : State) (line : string) :
  filed st ->
  (forall a, agentOf line = Some a -> inherited a = false) ->
  exists st', lineStep st line = Ok st' /\ filed st'.
Proof.
  intros Hst Hline. unfold lineStep, agentOf, normal, skipped in *. cbv zeta in *.
  set (t := Str.toLowerCase (Str.trim line)) in *.
  destruct (Str.startsWith t "#" || String.eqb t ""); [now exists st|].
  destruct (Str.startsWith t "user-agent:").
  - set (a := Str.trim (replace t "user-agent:" "")) in *.
    specialize (Hline a eq_refl).
    eexists. split; [reflexivity|]. unfold filed, lookup. cbn [currentAgent rules].
    intros _. rewrite Hline. destruct (own (rules st) a) as [r|] eqn:E.
    + rewrite E. discriminate.
    + rewrite own_app, E. discriminate.
  - unfold filed in Hst. destruct (currentAgent st) as [a|] eqn:Ea;
      [|exists st; split; [reflexivity|]; unfold filed; now rewrite Ea].
    destruct (Str.nonEmpty a) eqn:Hne;
      [|exists st; split; [reflexivity|]; unfold filed; rewrite Ea; congruence].
    specialize (Hst eq_refl). unfold lookup.
    destruct (own (rules st) a) as [r|] eqn:E; [|congruence].
    destruct (Str.startsWith t "disallow:"); [|destruct (Str.startsWith t "allow:")].
    + eexists. split; [reflexivity|]. unfold filed. cbn [currentAgent rules].
      intros _. rewrite own_update, E. discriminate.
    + eexists. split; [reflexivity|]. unfold filed. cbn [currentAgent rules].
      intros _. rewrite own_update, E. discriminate.
    + exists st. split; [reflexivity|]. unfold filed. rewrite Ea. congruence.
Qed.

Lemma parseLines_returns (lines : list string) (st : State) :
  filed st ->
  (forall line a, In line lines -> agentOf line = Some a -> inherited a = false) ->
  exists st', foldM lineStep lines st = Ok st'.
Proof.
  revert st. induction lines as [|l r IH]; intros st Hst H; [now exists st|].
  cbn [foldM].
  destruct (@lineStep_returns st l Hst) as (st1 & -> & H1).
  { intros a. apply H. now left. }
  cbn [bind]. apply IH; [exact H1|]. intros line a Hin. apply H. now right.
Qed.

Lemma sortCrawlers_returns (m : RuleMap) (wild : bool) (cs : list string) :
  forallb (fun c => negb (inherited (Str.toLowerCase c))) cs = true ->
  exists lists, sortCrawlers m wild cs = Ok lists.
Proof.
  induction cs as [|c r IH]; cbn [forallb sortCrawlers]; [now eexists|].
  intros H. apply andb_prop in H. destruct H as [Hc Hr].
  destruct (IH Hr) as (lists & ->).
  unfold blocks, lookup. destruct (own m (Str.toLowerCase c)); [now eexists|].
  apply negb_true_iff in Hc. rewrite Hc. now eexists.
Qed.

(** The parser returns for every text in which no [User-agent] line names
    [constructor] or [__proto__]; a rule under such a name makes it
    throw. *)
Theorem parseRobotsTxt_returns (content : string) :
  (forall line a, In line (split content newline) -> agentOf line = Some a ->
                  a <> "constructor" /\ a <> "__proto__") ->
  exists p, parseRobotsTxt content = Ok p.
Proof.
  intros H. unfold parseRobotsTxt, parseLines.
  destruct (@parseLines_returns (split content newline) start) as (st & ->).
  - exact I.
  - intros line a Hin Ha. destruct (H line a Hin Ha) as [H1 H2].
    unfold inherited. apply orb_false_iff.
    split; apply String.eqb_neq; assumption.
  - cbn [bind].
    destruct (@sortCrawlers_returns (rules st) (wildcard st) MAJOR_AI_CRAWLERS)
      as (lists & ->); [vm_compute; reflexivity|].
    cbn [bind]. now eexists.
Qed.

(** A group named [constructor] makes the parser throw. *)
Definition constructorGroup : string :=
  ("User-agent: constructor" ++ nl ++ "Disallow: /private")%string.

Lemma parseRobotsTxt_throws : parseRobotsTxt constructorGroup = TypeError.
Proof. vm_compute. reflexivity. Qed.

Lemma parseRobotsTxt_returns_witness :
  exists p, parseRobotsTxt blocksGpt = Ok p.
Proof.
  apply parseRobotsTxt_returns.
  intros line a Hin. vm_compute in Hin.
  repeat (destruct Hin as [<-|Hin]; [vm_compute; intros [= <-]; split; discriminate|]).
  destruct Hin.
Defined.

(** *** From the fetch to the points *)

Section Pipeline.

Import Scoring Scoring64 CrawlerSpec.
Open Scope Z_scope.

(** The message of the [TypeError] the parser throws. *)
Variable thrown : string.

Lemma failed_points (m : string) :
  m <> "" ->
  let f := crawlerFactor {| Extraction.accessible := Some false; Extraction.error := Some m;
                            Extraction.blockedCrawlers := [];
                            Extraction.allowedCrawlers := [] |} 35 in
  fstatus f = warning /\ isNum (points f) (35 # 2).
Proof.
  intros Hm f. subst f. unfold crawlerFactor, scoreAICrawlerAccess.
  cbn [Extraction.accessible Extraction.error Extraction.present_str].
  unfold Str.nonEmpty. destruct (String.eqb_spec m ""); [contradiction|].
  cbn [negb snd scored mkFactor points fstatus toNum]. split; [reflexivity|].
  destruct (@half_points 35) as (v & E & Hv); [split; discriminate|].
  exists v. split; [exact E|]. rewrite Hv. reflexivity.
Qed.

(** The AI Crawler Access factor of what [fetchRobotsTxt] resolves to,
    with the configured 35 points.  A file that is read and parsed gives
    the exact share [35 * allowed / 14] of the fourteen monitored
    crawlers, rounded: [pass] exactly when no crawler is blocked, [fail]
    exactly when all are.  A response that is not [ok] gives the 35
    points.  No base URL, a rejection with a message, and a parser that
    throws give half of the points with a [warning]. *)
Theorem fetched_robots_points (o : Fetched) :
  let f := crawlerFactor (fetchRobotsTxt thrown o) 35 in
  match o with
  | Content c =>
      match parseRobotsTxt c with
      | Ok p =>
          let a := Z.of_nat (List.length (allowedCrawlers p)) in
          0 <= a <= 14 /\
          points f = Number (ofZ (roundQ (share 35 a 14))) /\
          (fstatus f = pass <-> blockedCrawlers p = []) /\
          (fstatus f = fail <-> allowedCrawlers p = [])
      | TypeError => thrown <> "" -> fstatus f = warning /\ isNum (points f) (35 # 2)
      end
  | NotOk => fstatus f = pass /\ points f = Number (ofZ 35)
  | NoBaseUrl => fstatus f = warning /\ isNum (points f) (35 # 2)
  | Rejected m => m <> "" -> fstatus f = warning /\ isNum (points f) (35 # 2)
  end.
Proof.
  intros f. subst f. destruct o as [|m| |c]; cbn [fetchRobotsTxt].
  - apply failed_points. discriminate.
  - intros Hm. now apply failed_points.
  - split; reflexivity.
  - destruct (parseRobotsTxt c) as [p|] eqn:E; [|intros Hm; now apply failed_points].
    destruct (@parseRobotsTxt_partitions_the_crawlers_aux c p E) as [Hlen _].
    set (r := {| Extraction.accessible := Some true; Extraction.error := None;
                 Extraction.blockedCrawlers := blockedCrawlers p;
                 Extraction.allowedCrawlers := allowedCrawlers p |}).
    cbv zeta.
    set (a := Z.of_nat (List.length (allowedCrawlers p))).
    set (b := Z.of_nat (List.length (blockedCrawlers p))).
    assert (Hab : a + b = 14) by (unfold a, b; lia).
    assert (Ha : 0 <= a) by apply Nat2Z.is_nonneg.
    assert (Hb : 0 <= b) by apply Nat2Z.is_nonneg.
    destruct (@accessible_points r 35) as (Hp & Hf & Hq);
      [split; discriminate|reflexivity| |].
    { cbn [Extraction.blockedCrawlers Extraction.allowedCrawlers r]. fold a b.
      rewrite Hab. split; [reflexivity|discriminate]. }
    cbn [Extraction.blockedCrawlers Extraction.allowedCrawlers r] in Hp, Hf, Hq.
    fold a b in Hp, Hf, Hq. rewrite Hab in Hp.
    split; [lia|]. split; [|split].
    + rewrite Hp. f_equal. apply share_35_14. lia.
    + rewrite Hq. unfold b. destruct (blockedCrawlers p); cbn [List.length];
        split; try discriminate; try reflexivity; lia.
    + rewrite Hf. unfold a. destruct (allowedCrawlers p); cbn [List.length];
        split; try discriminate; try reflexivity; lia.
Qed.

End Pipeline.

Lemma fetched_robots_points_witness :
  Scoring.points (CrawlerSpec.crawlerFactor (fetchRobotsTxt "" (Content blocksGpt)) 35)
  = Number (ofZ 33).
Proof.
  generalize (fetched_robots_points "" (Content blocksGpt)).
  cbv zeta. cbn [fetchRobotsTxt].
  assert (E : parseRobotsTxt blocksGpt = Ok (parsed blocksGpt)) by (vm_compute; reflexivity).
  rewrite E. intros (_ & H & _). rewrite H. vm_compute. reflexivity.
Defined.

End WorkerSpec.
